(** * mars_j2: interior-model ingestion and lithosphere location

    A shallow embedding of [main] in [mars_j2.py] from line 57 on: the deck
    reader, the tabulated reader, the lithosphere scan, the reports and the
    running minimum and maximum of the reported percentage.

    - Python floats and numpy float64 values are IEEE binary64 numbers:
      the primitive floats of the kernel, with their own comparisons and
      arithmetic.
    - Exceptions are results: every step returns [Ok] or [Raise].
    - [main] is one function, so the names it assigns while reading one
      file are still bound when it reads the next; the ones that can be
      read before they are assigned again are threaded through the models
      as [Locals].
    - The built-in conversions [float] and [int], the file contents and the
      external hydrostatic-shape routine are parameters.

    The definitions come first; the properties follow, each with the
    number of the claim it settles. *)

From Stdlib Require Import ZArith Lia Bool Ascii String Floats Uint63.
From stdpp Require Import base option list.

Local Open Scope Z_scope.

(** ** Python values, exceptions and indexing *)

(** The exceptions the modelled code can raise.  [RuntimeError] is the
    explicit [raise] of the deck reader (unsupported polynomial decks);
    the other three come from the interpreter: a failed [float()]/[int()]
    conversion or a negative [np.zeros] size, a subscript out of range,
    and a read of a local variable that was never assigned. *)
Inductive exn := RuntimeError | ValueError | IndexError | UnboundLocalError.

Inductive result (A : Type) : Type :=
  | Ok (a : A)
  | Raise (e : exn).
Arguments Ok {A} a.
Arguments Raise {A} e.

#[global] Instance result_ret : MRet result := @Ok.
#[global] Instance result_bind : MBind result := λ A B f m,
  match m with Ok a => f a | Raise e => Raise e end.

(** Reading a local variable: unbound until its first assignment. *)
Definition read_var {A} (v : option A) : result A :=
  match v with Some a => Ok a | None => Raise UnboundLocalError end.

(** Conversions that answer [None] raise [ValueError]. *)
Definition convert {A} (v : option A) : result A :=
  match v with Some a => Ok a | None => Raise ValueError end.

(** Position denoted by subscript [i] in a sequence of length [n]:
    negative subscripts count from the end. *)
Definition py_pos (n : nat) (i : Z) : option nat :=
  let j := if i <? 0 then i + Z.of_nat n else i in
  if (0 <=? j) && (j <? Z.of_nat n) then Some (Z.to_nat j) else None.

(** [l[i]] on a Python list or a numpy array. *)
Definition py_get {A} (l : list A) (i : Z) : result A :=
  match py_pos (length l) i with
  | Some k => match l !! k with Some x => Ok x | None => Raise IndexError end
  | None => Raise IndexError
  end.

(** [l[i] = v] on a numpy array. *)
Definition py_set {A} (l : list A) (i : Z) (v : A) : result (list A) :=
  match py_pos (length l) i with
  | Some k => Ok (<[k:=v]> l)
  | None => Raise IndexError
  end.

(** [np.zeros(n)]: a negative size is a [ValueError].  The allocation of
    a non-negative size is taken to succeed; numpy refuses a size the
    memory cannot hold ([MemoryError], or [ValueError] beyond the largest
    dimension), which is outside this model: where the outcome depends on
    the allocation, the size is bounded by lines of the file that are
    present. *)
Definition np_zeros (n : Z) : result (list float) :=
  if n <? 0 then Raise ValueError else Ok (replicate (Z.to_nat n) 0%float).

(** [for i in range(lo, lo + count)], the body threading a state and
    possibly raising. *)
Fixpoint for_range {S} (body : Z → S → result S) (lo : Z) (count : nat) (s : S)
  : result S :=
  match count with
  | O => Ok s
  | Datatypes.S k => s' ← body lo s; for_range body (lo + 1) k s'
  end.

(** What a loop body hands back: go on with the next index, or [break]. *)
Inductive flow (S : Type) : Type :=
  | Next (s : S)
  | Break (s : S).
Arguments Next {S} s.
Arguments Break {S} s.

(** [for i in range(lo, lo + count)] with a body that may [break]. *)
Fixpoint for_break {S} (body : Z → S → result (flow S)) (lo : Z) (count : nat)
    (s : S) : result S :=
  match count with
  | O => Ok s
  | Datatypes.S k =>
      f ← body lo s;
      match f with
      | Next s' => for_break body (lo + 1) k s'
      | Break s' => Ok s'
      end
  end.

(** ** [str.split()]

    The lines of a file are ASCII text; the separators are the ASCII white
    space characters of Python. *)

Definition is_space (c : ascii) : bool :=
  let n := nat_of_ascii c in
  (Nat.eqb n 32 || (Nat.leb 9 n && Nat.leb n 13) || (Nat.leb 28 n && Nat.leb n 31))%bool.

Definition flush (tok : string) (k : list string) : list string :=
  match tok with EmptyString => k | _ => tok :: k end.

Fixpoint split_from (tok : string) (s : string) : list string :=
  match s with
  | EmptyString => flush tok []
  | String c s' =>
      if is_space c then flush tok (split_from EmptyString s')
      else split_from (String.append tok (String c EmptyString)) s'
  end.

Definition split (s : string) : list string := split_from EmptyString s.

(** [os.path.splitext(name)[1]] for a directory entry (no separator in
    it): the suffix from the last dot, leading dots not counting. *)
Definition is_dot (c : ascii) : bool := Ascii.eqb c "."%char.

Fixpoint strip_dots (s : string) : string :=
  match s with
  | String c s' => if is_dot c then strip_dots s' else s
  | EmptyString => EmptyString
  end.

Fixpoint last_dot_suffix (s : string) : option string :=
  match s with
  | EmptyString => None
  | String c s' =>
      match last_dot_suffix s' with
      | Some t => Some t
      | None => if is_dot c then Some s else None
      end
  end.

Definition splitext_ext (name : string) : string :=
  default EmptyString (last_dot_suffix (strip_dots name)).

(** ** What the script takes from outside *)

(** The built-in conversions [float(s)] and [int(s)]; [None] stands for
    the [ValueError] of a string that is not a literal. *)
Class Builtins := {
  py_float : string → option float;
  py_int : string → option Z
}.

(** The external hydrostatic-shape routine, reduced to what the script
    reads from its result: [clm_hydro.coeffs[0, 2, 0]] for the profile and
    shell index it is called with (every other argument is fixed for the
    run), and the constant [potential.coeffs[0, 2, 0]]. *)
Class Collaborator := {
  HydrostaticShapeLith : list float → list float → Z → float;
  potential_c20 : float
}.

(** ** Local variables of [main] that survive from one model to the next

    [main] is one function: a name assigned while one file is processed is
    still bound when the next file is read.  Only four such names can be
    read before the current file assigns them. *)
Record Locals := mkLocals {
  v_rt : option float;
  v_i_core : option Z;
  v_i_crust : option Z;
  v_i_lith : option Z
}.

Definition unbound : Locals := mkLocals None None None None.

Definition set_rt (x : float) (l : Locals) : Locals :=
  mkLocals (Some x) (v_i_core l) (v_i_crust l) (v_i_lith l).
Definition set_i_core (x : Z) (l : Locals) : Locals :=
  mkLocals (v_rt l) (Some x) (v_i_crust l) (v_i_lith l).
Definition set_i_crust (x : Z) (l : Locals) : Locals :=
  mkLocals (v_rt l) (v_i_core l) (Some x) (v_i_lith l).
Definition set_i_lith (x : option Z) (l : Locals) : Locals :=
  mkLocals (v_rt l) (v_i_core l) (v_i_crust l) x.

(** ** The deck reader (lines 58-100) *)

Section Embedding.
Context `{Builtins} `{Collaborator}.

(** [data = lines[j].split(); float(data[0]); float(data[1])]. *)
Definition read_row (lines : list string) (j : Z) : result (float * float) :=
  line ← py_get lines j;
  let data := split line in
  s ← py_get data 0;
  r ← convert (py_float s);
  s ← py_get data 1;
  d ← convert (py_float s);
  Ok (r, d).

(** Lines 61-70: the title is echoed, the polynomial flag checked, and the
    entry count and the zero-based crust and core entry numbers read. *)
Definition deck_header (lines : list string) : result (Z * Z * Z) :=
  _ ← py_get lines 0;
  l1 ← py_get lines 1;
  s ← py_get (split l1) 2;
  flag ← convert (py_float s);
  if negb (PrimFloat.eqb flag 1) then Raise RuntimeError else
  l2 ← py_get lines 2;
  s ← py_get (split l2) 0;
  num_file ← convert (py_int s);
  s ← py_get (split l2) 3;
  crust_index_file ← convert (py_int s);
  s ← py_get (split l2) 2;
  core_index_file ← convert (py_int s);
  Ok (num_file, crust_index_file - 1, core_index_file - 1).

(** What the deck loop changes: the two arrays, the output index [num] and
    the local variables. *)
Record DeckState := mkDeck {
  radius : list float;
  rho : list float;
  num : Z;
  locals : Locals
}.

(** Body of the loop of lines 76-92 at entry pair [(i, i+1)]. *)
Definition deck_step (lines : list string) (i_core_file i_crust_file : Z)
    (i : Z) (st : DeckState) : result DeckState :=
  '(rb, rhob) ← read_row lines (i + 3);
  '(rt, rhot) ← read_row lines (i + 4);
  let loc := set_rt rt (locals st) in
  if PrimFloat.eqb rb rt then
    let loc := if i =? i_core_file then set_i_core (num st) loc else loc in
    let loc := if i =? i_crust_file then set_i_crust (num st) loc else loc in
    Ok (mkDeck (radius st) (rho st) (num st) loc)
  else
    radius' ← py_set (radius st) (num st) rb;
    rho' ← py_set (rho st) (num st) ((rhot + rhob) / 2)%float;
    Ok (mkDeck radius' rho' (num st + 1) loc).

(** The profile handed on: the two arrays, the surface index [n] and the
    surface radius [r0_model]. *)
Record Profile := mkProfile {
  p_radius : list float;
  p_rho : list float;
  p_n : Z;
  p_r0 : float
}.

(** Lines 59-100.  The slices [radius[:n+1]] and [rho[:n+1]] keep the
    first [n+1] rows ([n+1] is the output index after the surface row, never
    negative). *)
Definition deck_parse (lines : list string) (loc : Locals)
    : result (Profile * Locals) :=
  '(num_file, i_crust_file, i_core_file) ← deck_header lines;
  radius0 ← np_zeros num_file;
  rho0 ← np_zeros num_file;
  st ← for_range (deck_step lines i_core_file i_crust_file) 0
         (Z.to_nat (num_file - 1)) (mkDeck radius0 rho0 0 loc);
  rt ← read_var (v_rt (locals st));
  radius1 ← py_set (radius st) (num st) rt;
  rho1 ← py_set (rho st) (num st) 0%float;
  let num1 := num st + 1 in
  let n := num1 - 1 in
  let radius2 := take (Z.to_nat (n + 1)) radius1 in
  let rho2 := take (Z.to_nat (n + 1)) rho1 in
  r0_model ← py_get radius2 n;
  Ok (mkProfile radius2 rho2 n r0_model, locals st).

(** ** The lithosphere scan (lines 103-113 and 164-174) *)

(** One pass of the scan.  The state is the binding of [i_lith].  The
    [and] is short-circuit: [radius[i+1]] is read only when
    [radius[i] <= r0_model - d_lith] holds.  The source reads [radius[i]]
    and [radius[i+1]] again in the inner tests; the reads that succeeded
    once are bound once here. *)
Definition locate_step (radius : list float) (r0_model d_lith : float)
    (i : Z) (i_lith : option Z) : result (flow (option Z)) :=
  ri ← py_get radius i;
  if PrimFloat.leb ri (r0_model - d_lith)%float then
    ri1 ← py_get radius (i + 1);
    if PrimFloat.ltb (r0_model - d_lith)%float ri1 then
      if PrimFloat.eqb ri (r0_model - d_lith)%float then Ok (Break (Some i))
      else if PrimFloat.leb ((r0_model - d_lith) - ri)%float
                            (ri1 - (r0_model - d_lith))%float
      then Ok (Break (Some i))
      else Ok (Break (Some (i + 1)))
    else Ok (Next i_lith)
  else Ok (Next i_lith).

(** The scan over [range(0, count)]: [count] is [n+1] in the deck branch
    and [num] in the tabulated branch, the length of [radius] in both. *)
Definition locate (radius : list float) (r0_model d_lith : float) (count : Z)
    (i_lith : option Z) : result (option Z) :=
  for_break (locate_step radius r0_model d_lith) 0 (Z.to_nat count) i_lith.

(** ** One deck model (lines 58-132) *)

(** The quantities printed for a model, and the call made to the external
    routine (profile and shell index). *)
Record Report := mkReport {
  surface_km : float;
  rho_mantle : option float;
  mantle_km : option float;
  rho_core : option float;
  core_km : option float;
  actual_depth_km : float;
  call_radius : list float;
  call_rho : list float;
  call_i_lith : Z;
  percent : float
}.

(** Lines 131-132 and 188. *)
Definition percent_of (radius rho : list float) (i_lith : Z) : float :=
  (HydrostaticShapeLith radius rho i_lith / potential_c20 * 100)%float.

Definition deck_model (d_lith : float) (lines : list string) (loc : Locals)
    : result (Report * Locals) :=
  '(p, loc) ← deck_parse lines loc;
  i_lith' ← locate (p_radius p) (p_r0 p) d_lith (p_n p + 1) (v_i_lith loc);
  let loc := set_i_lith i_lith' loc in
  i_crust ← read_var (v_i_crust loc);
  rho_mantle ← py_get (p_rho p) (i_crust - 1);
  i_core ← read_var (v_i_core loc);
  rho_core ← py_get (p_rho p) (i_core - 1);
  r_mantle ← py_get (p_radius p) i_crust;
  r_core ← py_get (p_radius p) i_core;
  i_lith ← read_var (v_i_lith loc);
  r_lith ← py_get (p_radius p) i_lith;
  Ok (mkReport (p_r0 p / 1000)%float
        (Some rho_mantle) (Some (r_mantle / 1000)%float)
        (Some rho_core) (Some (r_core / 1000)%float)
        ((p_r0 p - r_lith) / 1000)%float
        (p_radius p) (p_rho p) i_lith
        (percent_of (p_radius p) (p_rho p) i_lith),
      loc).

(** ** One tabulated model (lines 148-190) *)

(** Body of the copy loop of lines 155-158. *)
Definition tab_step (lines : list string) (i : Z)
    (st : list float * list float) : result (list float * list float) :=
  line ← py_get lines (i + 4);
  let data := split line in
  s ← py_get data 0;
  r ← convert (py_float s);
  radius' ← py_set st.1 i r;
  s ← py_get data 1;
  d ← convert (py_float s);
  rho' ← py_set st.2 i d;
  Ok (radius', rho').

(** Lines 150-160: the rows of a tabulated file, copied into the two
    arrays, and the surface radius. *)
Definition tab_parse (lines : list string) : result Profile :=
  let num := Z.of_nat (length lines) - 4 in
  radius0 ← np_zeros num;
  rho0 ← np_zeros num;
  '(radius1, rho1) ← for_range (tab_step lines) 0 (Z.to_nat num) (radius0, rho0);
  r0_model ← py_get radius1 (num - 1);
  Ok (mkProfile radius1 rho1 (num - 1) r0_model).

(** The scan of lines 164-174 runs between the copy loop and the
    assignment [rho[n] = 0.] of line 177; it reads [radius] only. *)
Definition tab_model (d_lith : float) (lines : list string) (loc : Locals)
    : result (Report * Locals) :=
  p ← tab_parse lines;
  i_lith' ← locate (p_radius p) (p_r0 p) d_lith (p_n p + 1) (v_i_lith loc);
  let loc := set_i_lith i_lith' loc in
  rho2 ← py_set (p_rho p) (p_n p) 0%float;
  i_lith ← read_var (v_i_lith loc);
  r_lith ← py_get (p_radius p) i_lith;
  Ok (mkReport (p_r0 p / 1000)%float None None None None
        ((p_r0 p - r_lith) / 1000)%float
        (p_radius p) rho2 i_lith
        (percent_of (p_radius p) rho2 i_lith),
      loc).

(** ** The two batches and [main] *)

(** Lines 57-132: the models are processed in order; the first exception
    ends the run, after the reports already printed. *)
Fixpoint deck_batch (d_lith : float) (files : list (list string)) (loc : Locals)
    : list Report * result Locals :=
  match files with
  | [] => ([], Ok loc)
  | lines :: rest =>
      match deck_model d_lith lines loc with
      | Raise e => ([], Raise e)
      | Ok (r, loc') =>
          let '(rs, out) := deck_batch d_lith rest loc' in (r :: rs, out)
      end
  end.

(** Lines 192-195. *)
Definition update_pmax (pmax percent : float) : float :=
  if PrimFloat.ltb pmax percent then percent else pmax.
Definition update_pmin (pmin percent : float) : float :=
  if PrimFloat.ltb percent pmin then percent else pmin.

(** Lines 144-195 over the sorted directory listing, each entry with the
    lines of its file: entries whose extension is not [.dat] are skipped. *)
Fixpoint tab_batch (d_lith : float) (models : list (string * list string))
    (loc : Locals) (pmin pmax : float)
    : list Report * result (Locals * (float * float)) :=
  match models with
  | [] => ([], Ok (loc, (pmin, pmax)))
  | (file, lines) :: rest =>
      if negb (String.eqb (splitext_ext file) ".dat") then
        tab_batch d_lith rest loc pmin pmax
      else
        match tab_model d_lith lines loc with
        | Raise e => ([], Raise e)
        | Ok (r, loc') =>
            let '(rs, out) :=
              tab_batch d_lith rest loc'
                (update_pmin pmin (percent r)) (update_pmax pmax (percent r)) in
            (r :: rs, out)
        end
  end.

(** [main], from line 57 on: [d_lith = 150.e3], the deck batch, then the
    tabulated batch started from [pmin = 100], [pmax = 0]; the last line
    prints the pair. *)
Definition main (files : list (list string)) (models : list (string * list string))
    : list Report * list Report * result (float * float) :=
  let d_lith := 150000%float in
  let '(drs, out) := deck_batch d_lith files unbound in
  match out with
  | Raise e => (drs, [], Raise e)
  | Ok loc =>
      let '(trs, out') := tab_batch d_lith models loc 100%float 0%float in
      (drs, trs, '(_, mm) ← out'; Ok mm)
  end.

End Embedding.

(** ** Concrete conversions and a stub collaborator

    Used to run the embedding on sample files.  The conversions are the
    built-in ones restricted to unsigned decimal integer literals; below
    [2^53] the conversion to binary64 is exact. *)
Definition digit_of (c : ascii) : option Z :=
  let n := nat_of_ascii c in
  if (Nat.leb 48 n && Nat.leb n 57)%bool then Some (Z.of_nat (n - 48)) else None.

Fixpoint digits_from (acc : Z) (s : string) : option Z :=
  match s with
  | EmptyString => Some acc
  | String c s' => d ← digit_of c; digits_from (10 * acc + d) s'
  end.

Definition int_literal (s : string) : option Z :=
  match s with
  | EmptyString => None
  | _ => digits_from 0 s
  end.

Definition float_literal (s : string) : option float :=
  z ← int_literal s;
  if z <? 2 ^ 53 then Some (PrimFloat.of_uint63 (Uint63.of_Z z)) else None.

Definition literal_builtins : Builtins :=
  {| py_float := float_literal; py_int := int_literal |}.

(** A stub for the external routine: it answers the shell index it is
    given, as a number, and the reference coefficient is [100], so that the
    reported percentage is [i_lith / 100 * 100]. *)
Definition index_stub : Collaborator :=
  {| HydrostaticShapeLith := λ _ _ i, PrimFloat.of_uint63 (Uint63.of_Z i);
     potential_c20 := 100%float |}.

(** A minimal deck: title, flag line, header line ([N = 3], core and crust
    both declared at entry 1), one boundary pair at radius 0 and one layer
    up to the terminal entry at radius 1000. *)
Definition minimal_deck : list string :=
  [ "minimal one-layer deck"; "0 0 1"; "3 0 1 1";
    "0 8000"; "0 7000"; "1000 3000" ]%string.

(** A minimal table: four header lines and four rows. *)
Definition small_table : list string :=
  [ "model"; "units"; "columns"; "count";
    "0 8000"; "10 5000"; "20 3000"; "30 2900" ]%string.

(** Two tables with radii in metres.  With the thickness of the script,
    150 km, the target of both is 3239500: the first brackets it between
    its rows 2 and 3, the second starts above it. *)
Definition deep_table : list string :=
  [ "model"; "units"; "columns"; "count";
    "0 8000"; "3000000 4000"; "3200000 3400"; "3389500 2900" ]%string.

Definition shallow_table : list string :=
  [ "model"; "units"; "columns"; "count";
    "3300000 3400"; "3350000 3000"; "3389500 2900" ]%string.

(** Two decks with the same six entries: layers from 0 to 1000, 1000 to
    2000 and 2000 to 3000, with boundary pairs at 1000 (entries 2 and 3) and
    2000 (entries 4 and 5).  The first declares the core at entry 2 and the
    crust at entry 4; the second declares them at entries 1 and 3, which
    open layers. *)
Definition marked_deck : list string :=
  [ "deck with matching markers"; "0 0 1"; "6 0 2 4";
    "0 8000"; "1000 7000"; "1000 4000"; "2000 3000"; "2000 2900"; "3000 2800"
  ]%string.

Definition unmarked_deck : list string :=
  [ "deck with markers on layers"; "0 0 1"; "6 0 1 3";
    "0 8000"; "1000 7000"; "1000 4000"; "2000 3000"; "2000 2900"; "3000 2800"
  ]%string.

(** A stub for the external routine that answers the first density of the
    profile, against a reference coefficient of [100]. *)
Definition density_stub : Collaborator :=
  {| HydrostaticShapeLith := λ _ rho _, List.hd 0%float rho;
     potential_c20 := 100%float |}.

(** The minimal deck with polynomial flag 0. *)
Definition polynomial_deck : list string :=
  [ "polynomial deck"; "0 0 0"; "3 0 1 1";
    "0 8000"; "0 7000"; "1000 3000" ]%string.

(** Two tables whose first densities are 80 and 10: with [density_stub]
    their percentages are 80 and 10. *)
Definition table_80 : list string :=
  [ "model"; "units"; "columns"; "count";
    "0 80"; "3000000 40"; "3200000 34"; "3389500 29" ]%string.

Definition table_10 : list string :=
  [ "model"; "units"; "columns"; "count";
    "0 10"; "3000000 9"; "3200000 8"; "3389500 7" ]%string.

(** A table whose first density is 150: with [density_stub] its
    percentage is 150. *)
Definition table_150 : list string :=
  [ "model"; "units"; "columns"; "count";
    "0 150"; "3000000 40"; "3200000 34"; "3389500 29" ]%string.

(** A deck that declares a single entry. *)
Definition single_entry_deck : list string :=
  [ "deck of one entry"; "0 0 1"; "1 0 1 1"; "500 9000" ]%string.

(** The six-entry deck cut after its fourth entry, and with a fourth entry
    that is not a number. *)
Definition truncated_deck : list string :=
  [ "deck cut short"; "0 0 1"; "6 0 2 4";
    "0 8000"; "1000 7000"; "1000 4000"; "2000 3000" ]%string.

Definition garbled_deck : list string :=
  [ "deck with a bad entry"; "0 0 1"; "6 0 2 4";
    "0 8000"; "1000 7000"; "1000 4000"; "2000 x"; "2000 2900"; "3000 2800"
  ]%string.

(** A table with a blank line after its second row. *)
Definition gapped_table : list string :=
  [ "model"; "units"; "columns"; "count";
    "0 8000"; "10 5000"; " "; "30 2900" ]%string.

(** A stub for the external routine that answers the density of the row at
    the shell index, against a reference coefficient of [100]. *)
Definition shell_density_stub : Collaborator :=
  {| HydrostaticShapeLith := λ _ rho i, nth (Z.to_nat i) rho 0%float;
     potential_c20 := 100%float |}.

(** Three tables for [shell_density_stub].  With the thickness of the
    script the first brackets its target at rows 2 and 3 (shell index 2,
    density 50), the second at rows 0 and 1 (shell index 1, density 25), and
    the third starts above its target: it is evaluated at the shell index
    of the table read before it. *)
Definition table_shell_2 : list string :=
  [ "model"; "units"; "columns"; "count";
    "0 90"; "3000000 70"; "3200000 50"; "3389500 30" ]%string.

Definition table_shell_1 : list string :=
  [ "model"; "units"; "columns"; "count";
    "0 80"; "3000000 25"; "3050000 20" ]%string.

Definition table_no_shell : list string :=
  [ "model"; "units"; "columns"; "count";
    "3300000 500"; "3350000 75"; "3389500 30" ]%string.

(** A stub for the external routine whose coefficient is a zero: with the
    sign bit set for a profile whose first density is 1, and without it
    for every other profile. *)
Definition signed_zero_stub : Collaborator :=
  {| HydrostaticShapeLith := λ _ rho _,
       if PrimFloat.eqb (List.hd 0%float rho) 1 then (-0)%float else 0%float;
     potential_c20 := 100%float |}.

Definition table_first_1 : list string :=
  [ "model"; "units"; "columns"; "count";
    "0 1"; "3000000 4"; "3200000 3"; "3389500 2" ]%string.

Definition table_first_2 : list string :=
  [ "model"; "units"; "columns"; "count";
    "0 2"; "3000000 4"; "3200000 3"; "3389500 2" ]%string.

(** ** Notions the properties are stated with *)

(** Strictly increasing radii: every row lies strictly below the next. *)
Fixpoint increasing (rs : list float) : bool :=
  match rs with
  | a :: (b :: _) as rest => PrimFloat.ltb a b && increasing rest
  | _ => true
  end.

(** Rows [i] and [i+1] bracket the target: [r_i <= t < r_{i+1}]. *)
Definition bracket (rs : list float) (t : float) (i : nat) : bool :=
  match rs !! i, rs !! S i with
  | Some a, Some b => PrimFloat.leb a t && PrimFloat.ltb t b
  | _, _ => false
  end.

(** The resolution policy on a bracketing pair [(a, b)] at index [i]. *)
Definition resolve (a b t : float) (i : Z) : Z :=
  if PrimFloat.eqb a t then i
  else if PrimFloat.leb (t - a)%float (b - t)%float then i
  else i + 1.

(** The entries of a deck: [k] rows read from line [j] on. *)
Fixpoint read_rows `{Builtins} (lines : list string) (j : Z) (k : nat)
    : result (list (float * float)) :=
  match k with
  | O => Ok []
  | S k' => e ← read_row lines j; es ← read_rows lines (j + 1) k'; Ok (e :: es)
  end.

(** Entries [i] and [i+1] are a boundary pair: their radii are equal. *)
Definition boundary (es : list (float * float)) (i : nat) : bool :=
  match es !! i, es !! S i with
  | Some b, Some t => PrimFloat.eqb b.1 t.1
  | _, _ => false
  end.

(** The profile rows the consecutive entry pairs give rise to: a boundary
    pair gives none, a layer pair gives one row at the bottom radius with
    the mean of the two densities. *)
Fixpoint emit (es : list (float * float)) : list (float * float) :=
  match es with
  | b :: (t :: _) as rest =>
      if PrimFloat.eqb b.1 t.1 then emit rest
      else (b.1, ((t.2 + b.2) / 2)%float) :: emit rest
  | _ => []
  end.

(** The output index running when pair [i] is reached: the number of rows
    the pairs before it gave. *)
Definition rows_before (es : list (float * float)) (i : nat) : Z :=
  Z.of_nat (length (emit (take (S i) es))).

(** Binding of a boundary index after the first [k] pairs: the running
    output index if the declared pair [i_file] is among them and is a
    boundary pair, the previous binding otherwise. *)
Definition marker_upto (es : list (float * float)) (k : nat) (i_file : Z)
    (old : option Z) : option Z :=
  if (0 <=? i_file) && (i_file <? Z.of_nat k) && boundary es (Z.to_nat i_file)
  then Some (rows_before es (Z.to_nat i_file))
  else old.

Definition marker (es : list (float * float)) (i_file : Z) (old : option Z)
    : option Z :=
  marker_upto es (length es - 1) i_file old.

(** The entry radii never decrease: every pair is a boundary pair or a
    layer whose top lies strictly above its bottom. *)
Fixpoint nondecreasing (es : list (float * float)) : bool :=
  match es with
  | b :: (t :: _) as rest =>
      (PrimFloat.eqb b.1 t.1 || PrimFloat.ltb b.1 t.1) && nondecreasing rest
  | _ => true
  end.

(** State of the deck loop after the first [k] entry pairs. *)
Definition deck_after (es : list (float * float)) (i_core_file i_crust_file : Z)
    (loc : Locals) (k : nat) (st : DeckState) : Prop :=
  length (radius st) = length es ∧ length (rho st) = length es ∧
  num st = rows_before es k ∧
  take (Z.to_nat (num st)) (radius st) = (emit (take (S k) es)).*1 ∧
  take (Z.to_nat (num st)) (rho st) = (emit (take (S k) es)).*2 ∧
  locals st = mkLocals (match k with O => v_rt loc | _ => fst <$> es !! k end)
                (marker_upto es k i_core_file (v_i_core loc))
                (marker_upto es k i_crust_file (v_i_crust loc))
                (v_i_lith loc).


(** State in which the deck loop starts on a deck of [N] entries. *)
Definition deck_init (N : nat) (loc : Locals) : DeckState :=
  mkDeck (replicate N 0%float) (replicate N 0%float) 0 loc.



(** A computation that does not end in [RuntimeError]. *)
Definition quiet {A} (r : result A) : Prop := r ≠ Raise RuntimeError.

(** The running pair of lines 192-195 over a sequence of percentages. *)
Definition aggregate (ps : list float) (pmin pmax : float) : float * float :=
  (fold_left update_pmin ps pmin, fold_left update_pmax ps pmax).

(** The test of line 145 on a directory entry: its extension is [.dat]. *)
Definition is_dat (file : string) : bool :=
  String.eqb (splitext_ext file) ".dat".

(** The first index below [n] at which [P] holds, if any. *)
Fixpoint first_index (P : nat → bool) (lo n : nat) : option nat :=
  match n with
  | O => None
  | S n' => if P lo then Some lo else first_index P (S lo) n'
  end.

(** A computation that does not end in the exception [e]. *)
Definition never {A} (e : exn) (r : result A) : Prop := r ≠ Raise e.

(** A variable that has been assigned. *)
Definition bound {A} (v : option A) : bool :=
  match v with Some _ => true | None => false end.

(** The four surviving names are all assigned. *)
Definition all_bound (loc : Locals) : bool :=
  bound (v_rt loc) && bound (v_i_core loc) && bound (v_i_crust loc)
  && bound (v_i_lith loc).
(** ** Order facts on binary64 numbers

    The comparisons of the program are the IEEE ones: every comparison with
    a NaN is false, and the two zeros compare equal. *)
Module F64.

Definition comb (c1 c2 : comparison) : option comparison :=
  match c1, c2 with
  | Eq, c | c, Eq => Some c
  | Lt, Lt => Some Lt
  | Gt, Gt => Some Gt
  | _, _ => None
  end.

Definition cmp (x y : float) : option comparison :=
  SFcompare (Prim2SF x) (Prim2SF y).

Ltac cmp_cases :=
  repeat match goal with
  | |- context [Z.compare ?a ?b] => destruct (Z.compare_spec a b); subst
  | |- context [Pos.compare_cont Eq ?a ?b] =>
      change (Pos.compare_cont Eq a b) with (Pos.compare a b);
      destruct (Pos.compare_spec a b); subst
  end.

Lemma SFcompare_comb a b c c1 c2 c3 :
  SFcompare a b = Some c1 → SFcompare b c = Some c2 → comb c1 c2 = Some c3 →
  SFcompare a c = Some c3.
Proof.
  destruct a as [[]|[]| |[] ma ea], b as [[]|[]| |[] mb eb],
    c as [[]|[]| |[] mc ec]; simpl; intros H1 H2 H3;
    try discriminate; try congruence;
    injection H1 as <-; injection H2 as <-; revert H3;
    cmp_cases; simpl; intros H3; try discriminate; try congruence; try lia.
Qed.

Lemma SFcompare_sym a b :
  SFcompare b a = option_map CompOpp (SFcompare a b).
Proof.
  destruct a as [[]|[]| |[] ma ea], b as [[]|[]| |[] mb eb]; simpl; try reflexivity;
    f_equal; cmp_cases; simpl; try reflexivity; try lia.
Qed.


Lemma ltb_cmp x y : PrimFloat.ltb x y = match cmp x y with Some Lt => true | _ => false end.
Proof. apply FloatAxioms.ltb_spec. Qed.

Lemma eqb_cmp x y : PrimFloat.eqb x y = match cmp x y with Some Eq => true | _ => false end.
Proof. apply FloatAxioms.eqb_spec. Qed.

Lemma leb_cmp x y :
  PrimFloat.leb x y = match cmp x y with Some (Lt | Eq) => true | _ => false end.
Proof. apply FloatAxioms.leb_spec. Qed.

Lemma cmp_sym x y : cmp y x = option_map CompOpp (cmp x y).
Proof. apply SFcompare_sym. Qed.

Lemma cmp_comb x y z c1 c2 c3 :
  cmp x y = Some c1 → cmp y z = Some c2 → comb c1 c2 = Some c3 → cmp x z = Some c3.
Proof. apply SFcompare_comb. Qed.

(** Goals about two numbers: case analysis on their comparison. *)
Ltac order2 x y :=
  rewrite ?ltb_cmp, ?eqb_cmp, ?leb_cmp in *;
  rewrite ?(cmp_sym x y) in *;
  destruct (cmp x y) as [[]|]; simpl in *; congruence.

(** Goals about a chain [x, y, z]: the comparison of the ends follows from
    the two links. *)
Ltac order3 x y z :=
  rewrite ?ltb_cmp, ?eqb_cmp, ?leb_cmp in *;
  let Hxy := fresh in let Hyz := fresh in
  destruct (cmp x y) as [[]|] eqn:Hxy; try discriminate;
  destruct (cmp y z) as [[]|] eqn:Hyz; try discriminate;
  erewrite (cmp_comb x y z) by (first [eassumption | reflexivity]);
  reflexivity.

Lemma ltb_trans x y z :
  PrimFloat.ltb x y = true → PrimFloat.ltb y z = true → PrimFloat.ltb x z = true.
Proof. intros; order3 x y z. Qed.

Lemma ltb_eqb_trans x y z :
  PrimFloat.ltb x y = true → PrimFloat.eqb y z = true → PrimFloat.ltb x z = true.
Proof. intros; order3 x y z. Qed.

Lemma eqb_ltb_trans x y z :
  PrimFloat.eqb x y = true → PrimFloat.ltb y z = true → PrimFloat.ltb x z = true.
Proof. intros; order3 x y z. Qed.

Lemma leb_trans x y z :
  PrimFloat.leb x y = true → PrimFloat.leb y z = true → PrimFloat.leb x z = true.
Proof. intros; order3 x y z. Qed.

Lemma leb_ltb_trans x y z :
  PrimFloat.leb x y = true → PrimFloat.ltb y z = true → PrimFloat.ltb x z = true.
Proof. intros; order3 x y z. Qed.

Lemma ltb_leb_trans x y z :
  PrimFloat.ltb x y = true → PrimFloat.leb y z = true → PrimFloat.ltb x z = true.
Proof. intros; order3 x y z. Qed.

Lemma eqb_trans x y z :
  PrimFloat.eqb x y = true → PrimFloat.eqb y z = true → PrimFloat.eqb x z = true.
Proof. intros; order3 x y z. Qed.

Lemma ltb_leb x y : PrimFloat.ltb x y = true → PrimFloat.leb x y = true.
Proof. intros; order2 x y. Qed.

Lemma eqb_leb x y : PrimFloat.eqb x y = true → PrimFloat.leb x y = true.
Proof. intros; order2 x y. Qed.

Lemma eqb_sym x y : PrimFloat.eqb x y = PrimFloat.eqb y x.
Proof. order2 x y. Qed.

Lemma ltb_not_leb x y : PrimFloat.ltb x y = true → PrimFloat.leb y x = false.
Proof. intros; order2 x y. Qed.

Lemma leb_not_ltb x y : PrimFloat.leb x y = true → PrimFloat.ltb y x = false.
Proof. intros; order2 x y. Qed.

Lemma leb_neq_ltb x y :
  PrimFloat.leb x y = true → PrimFloat.eqb x y = false → PrimFloat.ltb x y = true.
Proof. intros; order2 x y. Qed.

Lemma leb_nlt_eqb x y :
  PrimFloat.leb x y = true → PrimFloat.ltb x y = false → PrimFloat.eqb x y = true.
Proof. intros; order2 x y. Qed.

Lemma ltb_neq x y : PrimFloat.ltb x y = true → PrimFloat.eqb x y = false.
Proof. intros; order2 x y. Qed.

Lemma leb_antisym x y :
  PrimFloat.leb x y = true → PrimFloat.leb y x = true → PrimFloat.eqb x y = true.
Proof. intros; order2 x y. Qed.

(** A number that takes part in a true comparison is not a NaN, and so
    equals itself. *)
Lemma cmp_refl_l x y c : cmp x y = Some c → cmp x x = Some Eq.
Proof.
  unfold cmp. destruct (Prim2SF x) as [[]|[]| |[] m e], (Prim2SF y); simpl;
    try discriminate; intros _; try reflexivity;
    rewrite Z.compare_refl; change (Pos.compare_cont Eq m m) with (Pos.compare m m);
    rewrite Pos.compare_refl; reflexivity.
Qed.

Lemma cmp_refl_r x y c : cmp x y = Some c → cmp y y = Some Eq.
Proof.
  intros Hc. apply (cmp_refl_l y x (CompOpp c)). rewrite cmp_sym, Hc. reflexivity.
Qed.

Lemma ltb_refl_l x y : PrimFloat.ltb x y = true → PrimFloat.eqb x x = true.
Proof.
  rewrite ltb_cmp, eqb_cmp. destruct (cmp x y) as [c|] eqn:Hc; [|discriminate].
  rewrite (cmp_refl_l _ _ _ Hc). reflexivity.
Qed.

Lemma ltb_refl_r x y : PrimFloat.ltb x y = true → PrimFloat.eqb y y = true.
Proof.
  rewrite ltb_cmp, eqb_cmp. destruct (cmp x y) as [c|] eqn:Hc; [|discriminate].
  rewrite (cmp_refl_r _ _ _ Hc). reflexivity.
Qed.

Lemma leb_refl_l x y : PrimFloat.leb x y = true → PrimFloat.eqb x x = true.
Proof.
  rewrite leb_cmp, eqb_cmp. destruct (cmp x y) as [c|] eqn:Hc; [|discriminate].
  rewrite (cmp_refl_l _ _ _ Hc). reflexivity.
Qed.

(** Two numbers that are not NaNs are comparable. *)
Lemma cmp_total x y : cmp x x = Some Eq → cmp y y = Some Eq → ∃ c, cmp x y = Some c.
Proof.
  unfold cmp. destruct (Prim2SF x) as [[]|[]| |[] m e], (Prim2SF y) as [[]|[]| |[] m' e'];
    simpl; try discriminate; eauto.
Qed.

Lemma ltb_total x y :
  PrimFloat.eqb x x = true → PrimFloat.eqb y y = true →
  PrimFloat.ltb x y = false → PrimFloat.leb y x = true.
Proof.
  rewrite !eqb_cmp, ltb_cmp, leb_cmp. intros Hx Hy.
  destruct (cmp_total x y) as [c Hc].
  - destruct (cmp x x) as [[]|]; congruence.
  - destruct (cmp y y) as [[]|]; congruence.
  - rewrite (cmp_sym x y), Hc. destruct c; simpl; congruence.
Qed.


End F64.

(** ** The embedding on small inputs *)

Example split_row : split "  3389.5   2900  " = ["3389.5"; "2900"]%string.
Proof. reflexivity. Qed.

Example split_blank : split "   " = [].
Proof. reflexivity. Qed.

Example splitext_dat : splitext_ext "model_01.dat" = ".dat"%string.
Proof. reflexivity. Qed.

Example splitext_hidden : splitext_ext ".dat" = EmptyString.
Proof. reflexivity. Qed.

Example py_get_negative : py_get [1; 2; 3]%float (-1) = Ok 3%float.
Proof. reflexivity. Qed.

Example py_get_beyond : py_get [1; 2; 3]%float 3 = Raise IndexError.
Proof. reflexivity. Qed.

Example locate_nearest_above :
  locate [0; 10; 20; 30]%float 30 13 4 None = Ok (Some 2).
Proof. reflexivity. Qed.

Example locate_exact_row :
  locate [0; 10; 20; 30]%float 30 20 4 None = Ok (Some 1).
Proof. reflexivity. Qed.

Example minimal_deck_model :
  call_i_lith <$> (@deck_batch literal_builtins index_stub 500 [minimal_deck]
                     unbound).1
  = [0].
Proof. reflexivity. Qed.

Example aggregate_three :
  aggregate [55; 10; 80]%float 100 0 = (10, 80)%float.
Proof. reflexivity. Qed.

(** ** Sequencing and indexing lemmas *)

Lemma bind_Ok {A B} (a : A) (f : A → result B) : (Ok a ≫= f) = f a.
Proof. reflexivity. Qed.

Lemma bind_Raise {A B} (e : exn) (f : A → result B) : (Raise e ≫= f) = Raise e.
Proof. reflexivity. Qed.

Lemma py_pos_nat (n k : nat) : (k < n)%nat → py_pos n (Z.of_nat k) = Some k.
Proof.
  intros Hk. unfold py_pos.
  destruct (Z.ltb_spec (Z.of_nat k) 0); [lia|].
  destruct (Z.leb_spec 0 (Z.of_nat k)); [|lia].
  destruct (Z.ltb_spec (Z.of_nat k) (Z.of_nat n)); [|lia].
  simpl. by rewrite Nat2Z.id.
Qed.

Lemma py_pos_ge (n : nat) (i : Z) : Z.of_nat n <= i → py_pos n i = None.
Proof.
  intros Hi. unfold py_pos.
  destruct (Z.ltb_spec i 0); [lia|].
  destruct (Z.ltb_spec i (Z.of_nat n)); [lia|].
  by rewrite andb_false_r.
Qed.

Lemma py_pos_last (n : nat) : (0 < n)%nat → py_pos n (-1) = Some (n - 1)%nat.
Proof.
  intros Hn. unfold py_pos. simpl.
  destruct (Z.leb_spec 0 (-1 + Z.of_nat n)); [|lia].
  destruct (Z.ltb_spec (-1 + Z.of_nat n) (Z.of_nat n)); [|lia].
  simpl. f_equal. lia.
Qed.

Lemma py_pos_Some (n : nat) (i : Z) (k : nat) : py_pos n i = Some k → (k < n)%nat.
Proof.
  unfold py_pos. intros Hp.
  destruct (_ && _) eqn:Hb; [|discriminate]. injection Hp as <-.
  apply andb_prop in Hb as [H1 H2].
  apply Z.leb_le in H1. apply Z.ltb_lt in H2. lia.
Qed.

Lemma py_get_nat {A} (l : list A) (k : nat) (x : A) :
  l !! k = Some x → py_get l (Z.of_nat k) = Ok x.
Proof.
  intros Hl. unfold py_get.
  rewrite py_pos_nat by (by eapply lookup_lt_Some). by rewrite Hl.
Qed.

Lemma py_get_ge {A} (l : list A) (i : Z) :
  Z.of_nat (length l) <= i → py_get l i = Raise IndexError.
Proof. intros Hi. unfold py_get. by rewrite py_pos_ge. Qed.

Lemma py_set_nat {A} (l : list A) (k : nat) (x : A) :
  (k < length l)%nat → py_set l (Z.of_nat k) x = Ok (<[k:=x]> l).
Proof. intros Hk. unfold py_set. by rewrite py_pos_nat. Qed.

(** ** The scan *)

Section Locate.
Variables (rs : list float) (r0 d : float).
Local Abbreviation t := (r0 - d)%float.

(** A pass over a pair that does not bracket the target leaves [i_lith]
    alone, provided the row above exists. *)
Lemma locate_step_skip (j : nat) (il : option Z) :
  (S j < length rs)%nat → bracket rs t j = false →
  locate_step rs r0 d (Z.of_nat j) il = Ok (Next il).
Proof.
  intros Hj Hb.
  destruct (lookup_lt_is_Some_2 rs j) as [a Ha]; [lia|].
  destruct (lookup_lt_is_Some_2 rs (S j)) as [b Hb']; [lia|].
  unfold bracket in Hb. rewrite Ha, Hb' in Hb.
  unfold locate_step. rewrite (py_get_nat _ _ _ Ha). simpl.
  destruct (PrimFloat.leb a t); [|done].
  replace (Z.of_nat j + 1) with (Z.of_nat (S j)) by lia.
  rewrite (py_get_nat _ _ _ Hb'). simpl.
  simpl in Hb. by rewrite Hb.
Qed.

(** A pass over a bracketing pair binds [i_lith] by the resolution policy
    and leaves the loop. *)
Lemma locate_step_hit (i : nat) (a b : float) (il : option Z) :
  rs !! i = Some a → rs !! S i = Some b → bracket rs t i = true →
  locate_step rs r0 d (Z.of_nat i) il = Ok (Break (Some (resolve a b t (Z.of_nat i)))).
Proof.
  intros Ha Hb Hbr. unfold bracket in Hbr. rewrite Ha, Hb in Hbr.
  apply andb_prop in Hbr as [H1 H2].
  unfold locate_step. rewrite (py_get_nat _ _ _ Ha). simpl. rewrite H1.
  replace (Z.of_nat i + 1) with (Z.of_nat (S i)) by lia.
  rewrite (py_get_nat _ _ _ Hb). simpl. rewrite H2.
  unfold resolve. destruct (PrimFloat.eqb a t); [done|].
  destruct (PrimFloat.leb (t - a) (b - t)); [reflexivity|]. do 3 f_equal. lia.
Qed.

(** The scan stops at the first bracketing pair. *)
Lemma locate_first (i : nat) (a b : float) (il : option Z) :
  rs !! i = Some a → rs !! S i = Some b → bracket rs t i = true →
  (∀ j, (j < i)%nat → bracket rs t j = false) →
  locate rs r0 d (Z.of_nat (length rs)) il = Ok (Some (resolve a b t (Z.of_nat i))).
Proof.
  intros Ha Hb Hbr Hfirst. unfold locate. rewrite Nat2Z.id.
  assert (Hlen : (S i < length rs)%nat) by (by eapply lookup_lt_Some).
  assert (Hgen : ∀ m k count, (k + m = i)%nat → (i < k + count)%nat →
    for_break (locate_step rs r0 d) (Z.of_nat k) count il
    = Ok (Some (resolve a b t (Z.of_nat i)))).
  { induction m as [|m IH]; intros k count Hk Hc.
    - assert (k = i) by lia. subst k.
      destruct count as [|count]; [lia|]. simpl.
      rewrite (locate_step_hit i a b); auto.
    - destruct count as [|count]; [lia|]. simpl.
      rewrite locate_step_skip by (try apply Hfirst; lia). simpl.
      replace (Z.of_nat k + 1) with (Z.of_nat (S k)) by lia.
      apply IH; lia. }
  apply (Hgen i 0%nat); lia.
Qed.

End Locate.

(** ** Strictly increasing radii *)

Lemma increasing_lookup (rs : list float) (j : nat) (a b : float) :
  increasing rs = true → rs !! j = Some a → rs !! S j = Some b →
  PrimFloat.ltb a b = true.
Proof.
  revert j. induction rs as [|x [|y rs] IH]; intros j Hinc Ha Hb; [done| |].
  - by destruct j.
  - simpl in Hinc. apply andb_prop in Hinc as [Hxy Hinc].
    destruct j as [|j]; simpl in *.
    + congruence.
    + by apply (IH j).
Qed.

Lemma increasing_lt (rs : list float) (j k : nat) (a b : float) :
  increasing rs = true → (j < k)%nat → rs !! j = Some a → rs !! k = Some b →
  PrimFloat.ltb a b = true.
Proof.
  intros Hinc Hjk Ha. revert b. induction k as [|k IH]; intros b Hb; [lia|].
  destruct (lookup_lt_is_Some_2 rs k) as [c Hc].
  { apply lookup_lt_Some in Hb. lia. }
  pose proof (increasing_lookup rs k c b Hinc Hc Hb) as Hcb.
  destruct (decide (j = k)) as [->|Hne].
  - congruence.
  - eapply F64.ltb_trans; [|exact Hcb]. apply IH; [lia|done].
Qed.

(** In a strictly increasing profile no pair below a bracketing pair
    brackets the target. *)
Lemma bracket_first (rs : list float) (t : float) (i j : nat) :
  increasing rs = true → bracket rs t i = true → (j < i)%nat →
  bracket rs t j = false.
Proof.
  intros Hinc Hbr Hj. unfold bracket in *.
  destruct (rs !! i) as [a|] eqn:Ha; [|done].
  destruct (rs !! S i) as [b|] eqn:Hb; [|done].
  apply andb_prop in Hbr as [H1 H2].
  destruct (rs !! j) as [x|] eqn:Hx; [|done].
  destruct (rs !! S j) as [y|] eqn:Hy; [|done].
  apply andb_false_intro2.
  destruct (decide (S j = i)) as [<-|Hne].
  - assert (y = a) as -> by congruence. by apply F64.leb_not_ltb.
  - apply F64.leb_not_ltb, F64.ltb_leb. eapply F64.ltb_leb_trans; [|exact H1].
    apply (increasing_lt rs (S j) i); [done|lia|done..].
Qed.

(** In a strictly increasing profile a row equal to the target is the
    bottom row of the bracketing pair. *)
Lemma bracket_equal_row (rs : list float) (t : float) (i k : nat) (c : float) :
  increasing rs = true → bracket rs t i = true →
  rs !! k = Some c → PrimFloat.eqb c t = true → k = i.
Proof.
  intros Hinc Hbr Hc Heq. unfold bracket in *.
  destruct (rs !! i) as [a|] eqn:Ha; [|done].
  destruct (rs !! S i) as [b|] eqn:Hb; [|done].
  apply andb_prop in Hbr as [H1 H2].
  destruct (lt_eq_lt_dec k i) as [[Hlt|Heq']|Hgt]; [|done|]; exfalso.
  - pose proof (increasing_lt rs k i c a Hinc Hlt Hc Ha) as Hca.
    pose proof (F64.ltb_leb_trans _ _ _ Hca H1) as Hct.
    apply F64.ltb_neq in Hct. congruence.
  - assert (Htc : PrimFloat.ltb t c = true).
    { destruct (decide (k = S i)) as [->|Hne].
      - congruence.
      - eapply F64.ltb_trans; [exact H2|].
        apply (increasing_lt rs (S i) k); [done|lia|done..]. }
    apply F64.ltb_neq in Htc. rewrite F64.eqb_sym in Htc. congruence.
Qed.

(** C1. On a profile with strictly increasing radii and a lithosphere
    thickness for which rows [i] and [i+1] bracket the target
    [r0 - d], that pair is the first bracketing pair in scan order, and
    the scan returns [i] when [r_i] equals the target, [i] when
    [target - r_i <= r_{i+1} - target], and [i+1] otherwise; hence any row
    equal to the target is the one returned.  On radii [0, 10, 20, 30] with
    target 15 the scan returns 1. *)
Theorem locate_nearest_below (rs : list float) (r0 d : float) (il : option Z)
    (i : nat) (a b : float) :
  increasing rs = true → last rs = Some r0 →
  rs !! i = Some a → rs !! S i = Some b → bracket rs (r0 - d) i = true →
  (∀ j, (j < i)%nat → bracket rs (r0 - d) j = false)
  ∧ locate rs r0 d (Z.of_nat (length rs)) il
    = Ok (Some (if PrimFloat.eqb a (r0 - d) then Z.of_nat i
                else if PrimFloat.leb ((r0 - d) - a) (b - (r0 - d)) then Z.of_nat i
                else Z.of_nat i + 1))
  ∧ (∀ k c, rs !! k = Some c → PrimFloat.eqb c (r0 - d) = true →
       locate rs r0 d (Z.of_nat (length rs)) il = Ok (Some (Z.of_nat k)))
  ∧ locate [0; 10; 20; 30]%float 30 15 4 None = Ok (Some 1).
Proof.
  intros Hinc _ Ha Hb Hbr.
  assert (Hfirst : ∀ j, (j < i)%nat → bracket rs (r0 - d) j = false).
  { intros j Hj. by eapply bracket_first. }
  pose proof (locate_first rs r0 d i a b il Ha Hb Hbr Hfirst) as Hloc.
  unfold resolve in Hloc.
  split; [done|]. split; [done|]. split; [|reflexivity].
  intros k c Hc Heq.
  assert (k = i) as -> by (by eapply bracket_equal_row).
  assert (c = a) as -> by congruence.
  by rewrite Hloc, Heq.
Qed.

Lemma locate_nearest_below_witness :
  locate [0; 10; 20; 30]%float 30 15 (Z.of_nat 4) None
  = Ok (Some (if PrimFloat.eqb 10 (30 - 15) then Z.of_nat 1
              else if PrimFloat.leb ((30 - 15) - 10) (20 - (30 - 15)) then Z.of_nat 1
              else Z.of_nat 1 + 1)).
Proof.
  apply (locate_nearest_below [0; 10; 20; 30]%float 30 15 None 1 10 20);
    reflexivity.
Defined.

Lemma py_get_Ok_nat {A} (l : list A) (k : nat) (x : A) :
  py_get l (Z.of_nat k) = Ok x → l !! k = Some x.
Proof.
  unfold py_get. destruct (py_pos (length l) (Z.of_nat k)) as [m|] eqn:Hp; [|done].
  apply py_pos_Some in Hp as Hm. rewrite py_pos_nat in Hp.
  - injection Hp as <-. destruct (l !! k); [|done]. by intros [= <-].
  - unfold py_pos in Hp. destruct (Z.ltb_spec (Z.of_nat k) 0); [lia|].
    destruct (Z.ltb_spec (Z.of_nat k) (Z.of_nat (length l))); [lia|].
    by rewrite andb_false_r in Hp.
Qed.

Lemma convert_Ok {A} (v : option A) (a : A) : convert v = Ok a → v = Some a.
Proof. destruct v; [by intros [= <-]|done]. Qed.

(** ** The scan when no pair brackets the target *)

Section LocateRange.
Variables (rs : list float) (r0 d : float).
Local Abbreviation t := (r0 - d)%float.

(** The pass at the last row: row [i+1] does not exist, and it is read
    exactly when the guard [radius[i] <= r0 - d] holds. *)
Lemma locate_step_last (k : nat) (rl : float) (il : option Z) :
  rs !! k = Some rl → S k = length rs →
  locate_step rs r0 d (Z.of_nat k) il
  = if PrimFloat.leb rl t then Raise IndexError else Ok (Next il).
Proof.
  intros Hk Hlen. unfold locate_step. rewrite (py_get_nat _ _ _ Hk), bind_Ok.
  destruct (PrimFloat.leb rl t); [|done].
  by rewrite py_get_ge by lia.
Qed.


(** Without a bracketing pair the scan reaches the last row: there it fails
    on reading [radius[n+1]] if the last radius does not exceed the target,
    and otherwise ends with [i_lith] as it found it. *)
Lemma locate_no_bracket (rl : float) (il : option Z) :
  last rs = Some rl → (∀ j, bracket rs t j = false) →
  locate rs r0 d (Z.of_nat (length rs)) il
  = if PrimFloat.leb rl t then Raise IndexError else Ok il.
Proof.
  intros Hlast Hnb. unfold locate. rewrite Nat2Z.id.
  rewrite last_lookup in Hlast.
  assert (Hpos : (0 < length rs)%nat).
  { apply lookup_lt_Some in Hlast. lia. }
  assert (Hgen : ∀ count k, (k + S count = length rs)%nat →
    for_break (locate_step rs r0 d) (Z.of_nat k) (S count) il
    = if PrimFloat.leb rl t then Raise IndexError else Ok il).
  { induction count as [|count IH]; intros k Hk.
    - cbn [for_break]. rewrite (locate_step_last k rl) by
        (try lia; by replace k with (Init.Nat.pred (length rs)) by lia).
      by destruct (PrimFloat.leb rl t).
    - change (for_break (locate_step rs r0 d) (Z.of_nat k) (S (S count)) il)
        with (f ← locate_step rs r0 d (Z.of_nat k) il;
              match f with
              | Next s' => for_break (locate_step rs r0 d) (Z.of_nat k + 1) (S count) s'
              | Break s' => Ok s'
              end).
      rewrite locate_step_skip by (try apply Hnb; lia). rewrite bind_Ok.
      replace (Z.of_nat k + 1) with (Z.of_nat (S k)) by lia.
      apply IH. lia. }
  destruct (length rs) as [|n] eqn:Hn; [lia|].
  apply (Hgen n 0%nat). lia.
Qed.


(** In a strictly increasing profile whose last radius does not exceed the
    target, no pair brackets the target. *)
Lemma no_bracket_above (rl : float) :
  increasing rs = true → last rs = Some rl → PrimFloat.leb rl t = true →
  ∀ j, bracket rs t j = false.
Proof.
  intros Hinc Hlast Hg j. rewrite last_lookup in Hlast. unfold bracket.
  destruct (rs !! j) as [a|] eqn:Ha; [|done].
  destruct (rs !! S j) as [b|] eqn:Hb; [|done].
  apply andb_false_intro2.
  pose proof (lookup_lt_Some _ _ _ Hb) as Hj.
  destruct (decide (S j = Init.Nat.pred (length rs))) as [Heq|Hne].
  - rewrite Heq in Hb. assert (b = rl) as -> by congruence.
    by apply F64.leb_not_ltb.
  - apply F64.leb_not_ltb, F64.ltb_leb.
    apply (F64.ltb_leb_trans _ rl); [|done].
    apply (increasing_lt rs (S j) (Init.Nat.pred (length rs))); [done|lia|done..].
Qed.

(** In a strictly increasing profile whose first radius lies strictly
    above the target, no pair brackets the target and the guard is false at
    the last row. *)
Lemma no_bracket_below (rf rl : float) :
  increasing rs = true → rs !! 0%nat = Some rf → last rs = Some rl →
  PrimFloat.ltb t rf = true →
  (∀ j, bracket rs t j = false) ∧ PrimFloat.leb rl t = false.
Proof.
  intros Hinc Hf Hlast Hlt.
  assert (Hall : ∀ j a, rs !! j = Some a → PrimFloat.leb a t = false).
  { intros j a Ha. apply F64.ltb_not_leb.
    destruct j as [|j].
    - congruence.
    - apply (F64.ltb_trans _ rf); [done|].
      apply (increasing_lt rs 0 (S j)); [done|lia|done..]. }
  split.
  - intros j. unfold bracket.
    destruct (rs !! j) as [a|] eqn:Ha; [|done].
    destruct (rs !! S j) as [b|]; [|done].
    by rewrite (Hall j a Ha).
  - rewrite last_lookup in Hlast. by eapply Hall.
Qed.

End LocateRange.

(** ** Reads of the scan and the profile bounds *)




(** C4, as stated, fails: with a thickness of 40 on the profile
    [0, 10, 20, 30], larger than the surface radius 30, no pair brackets the
    target and the scan returns normally, with the shell index as it found
    it: unbound, or bound by an earlier model. *)
Lemma scan_no_depth_error :
  locate [0; 10; 20; 30]%float 30 40 4 None = Ok None ∧
  locate [0; 10; 20; 30]%float 30 40 4 (Some 2) = Ok (Some 2).
Proof. split; reflexivity. Qed.

(** C4, amended.  When no pair brackets the target the scan raises no
    error of its own.  It reaches the last row; if the last radius does not
    exceed the target it fails with [IndexError] on reading [radius[n+1]],
    and otherwise it returns with the shell index as it found it.  On a
    profile with strictly increasing radii the second case covers every
    target strictly below the first radius (as for a thickness of 40 on
    radii [0, 10, 20, 30], larger than the surface radius) and the first
    case every target at or above the surface radius. *)
Theorem scan_without_bracket (rs : list float) (r0 d : float) (il : option Z) :
  last rs = Some r0 →
  ((∀ j, bracket rs (r0 - d) j = false) →
     locate rs r0 d (Z.of_nat (length rs)) il
     = if PrimFloat.leb r0 (r0 - d) then Raise IndexError else Ok il)
  ∧ (increasing rs = true →
       (∀ rf, rs !! 0%nat = Some rf → PrimFloat.ltb (r0 - d) rf = true →
          (∀ j, bracket rs (r0 - d) j = false)
          ∧ locate rs r0 d (Z.of_nat (length rs)) il = Ok il)
       ∧ (PrimFloat.leb r0 (r0 - d) = true →
            (∀ j, bracket rs (r0 - d) j = false)
            ∧ locate rs r0 d (Z.of_nat (length rs)) il = Raise IndexError)).
Proof.
  intros Hlast. split; [by apply locate_no_bracket|].
  intros Hinc. split.
  - intros rf Hf Hlt.
    destruct (no_bracket_below rs r0 d rf r0 Hinc Hf Hlast Hlt) as [Hnb Hg].
    split; [done|]. by rewrite (locate_no_bracket rs r0 d r0 il Hlast Hnb), Hg.
  - intros Hg.
    pose proof (no_bracket_above rs r0 d r0 Hinc Hlast Hg) as Hnb.
    split; [done|]. by rewrite (locate_no_bracket rs r0 d r0 il Hlast Hnb), Hg.
Qed.

Lemma scan_without_bracket_witness :
  ((∀ j, bracket [0; 10; 20; 30]%float (30 - 40) j = false)
   ∧ locate [0; 10; 20; 30]%float 30 40 (Z.of_nat 4) (Some 2) = Ok (Some 2))
  ∧ ((∀ j, bracket [0; 10; 20; 30]%float (30 - 0) j = false)
     ∧ locate [0; 10; 20; 30]%float 30 0 (Z.of_nat 4) (Some 2) = Raise IndexError).
Proof.
  split.
  - exact (proj1 (proj2 (scan_without_bracket [0; 10; 20; 30]%float 30 40 (Some 2)
             eq_refl) eq_refl) 0%float eq_refl eq_refl).
  - exact (proj2 (proj2 (scan_without_bracket [0; 10; 20; 30]%float 30 0 (Some 2)
             eq_refl) eq_refl) eq_refl).
Defined.

(** ** The deck loop against the rows of the entry pairs *)

Lemma for_range_S {S} (body : Z → S → result S) (lo : Z) (k : nat) (s : S) :
  for_range body lo (Datatypes.S k) s
  = (s' ← body lo s; for_range body (lo + 1) k s').
Proof. reflexivity. Qed.

Lemma for_range_snoc {S} (body : Z → S → result S) (lo : Z) (k : nat) (s : S) :
  for_range body lo (Datatypes.S k) s
  = (s' ← for_range body lo k s; body (lo + Z.of_nat k) s').
Proof.
  revert lo s. induction k as [|k IH]; intros lo s.
  - simpl. rewrite Z.add_0_r. by destruct (body lo s).
  - rewrite for_range_S, (for_range_S body lo k).
    destruct (body lo s) as [s1|e]; [|done]. rewrite !bind_Ok, IH.
    by replace (lo + 1 + Z.of_nat k) with (lo + Z.of_nat (Datatypes.S k)) by lia.
Qed.

Lemma emit_cons2 (x y : float * float) (l : list (float * float)) :
  emit (x :: y :: l)
  = if PrimFloat.eqb x.1 y.1 then emit (y :: l)
    else (x.1, ((y.2 + x.2) / 2)%float) :: emit (y :: l).
Proof. reflexivity. Qed.

Lemma emit_snoc (es : list (float * float)) (k : nat) (b t : float * float) :
  es !! k = Some b → es !! S k = Some t →
  emit (take (S (S k)) es)
  = emit (take (S k) es)
    ++ (if PrimFloat.eqb b.1 t.1 then []
        else [(b.1, ((t.2 + b.2) / 2)%float)]).
Proof.
  revert k. induction es as [|x [|y es] IH]; intros k Hb Ht; [done| |].
  - by destruct k.
  - destruct k as [|k].
    + simpl in Hb, Ht. injection Hb as ->. injection Ht as ->.
      destruct es; simpl; by destruct (PrimFloat.eqb _ _).
    + simpl in Hb, Ht. specialize (IH k Hb Ht).
      change (take (S (S (S k))) (x :: y :: es)) with (x :: take (S (S k)) (y :: es)).
      change (take (S (S k)) (x :: y :: es)) with (x :: take (S k) (y :: es)).
      change (take (S (S k)) (y :: es)) with (y :: take (S k) es) in *.
      change (take (S k) (y :: es)) with (y :: take k es) in *.
      rewrite !emit_cons2.
      destruct (PrimFloat.eqb x.1 y.1).
      * exact IH.
      * rewrite IH. reflexivity.
Qed.

Lemma emit_length_le (es : list (float * float)) : (length (emit es) ≤ length es - 1)%nat.
Proof.
  induction es as [|x [|y es] IH]; [simpl; lia..|].
  rewrite emit_cons2. destruct (PrimFloat.eqb _ _); simpl in *; lia.
Qed.

Lemma rows_before_le (es : list (float * float)) (k : nat) :
  0 <= rows_before es k <= Z.of_nat k.
Proof.
  unfold rows_before. pose proof (emit_length_le (take (S k) es)) as Hle.
  rewrite length_take in Hle. lia.
Qed.

Lemma marker_upto_0 (es : list (float * float)) (i : Z) (old : option Z) :
  marker_upto es 0 i old = old.
Proof.
  unfold marker_upto.
  destruct (Z.leb_spec 0 i), (Z.ltb_spec i (Z.of_nat 0)); simpl; try done; lia.
Qed.

Lemma marker_upto_S (es : list (float * float)) (k : nat) (i : Z) (old : option Z) :
  marker_upto es (S k) i old
  = if (Z.of_nat k =? i) && boundary es k then Some (rows_before es k)
    else marker_upto es k i old.
Proof.
  unfold marker_upto.
  destruct (Z.eqb_spec (Z.of_nat k) i) as [<-|Hne]; simpl.
  - rewrite Nat2Z.id.
    destruct (Z.leb_spec 0 (Z.of_nat k)); [|lia].
    destruct (Z.ltb_spec (Z.of_nat k) (Z.of_nat (S k))); [|lia].
    destruct (Z.ltb_spec (Z.of_nat k) (Z.of_nat k)); [lia|]. simpl.
    by destruct (boundary es k).
  - destruct (Z.leb_spec 0 i); [|done]. simpl.
    destruct (Z.ltb_spec i (Z.of_nat (S k))), (Z.ltb_spec i (Z.of_nat k));
      try done; lia.
Qed.

Lemma take_S_insert {A} (l : list A) (n : nat) (x : A) :
  (n < length l)%nat → take (S n) (<[n:=x]> l) = take n l ++ [x].
Proof.
  intros Hn. rewrite (take_S_r _ _ x).
  - by rewrite take_insert_ge.
  - by apply list_lookup_insert_eq.
Qed.

Section Deck.
Context `{Builtins}.

Lemma read_rows_length (lines : list string) (j : Z) (k : nat) es :
  read_rows lines j k = Ok es → length es = k.
Proof.
  revert j es. induction k as [|k IH]; intros j es; simpl.
  - by intros [= <-].
  - destruct (read_row lines j) as [e|]; [|done]. rewrite bind_Ok.
    destruct (read_rows lines (j + 1) k) as [es'|] eqn:Hr; [|done].
    rewrite bind_Ok. intros [= <-]. simpl. f_equal. by eapply IH.
Qed.

Lemma read_rows_lookup (lines : list string) (j : Z) (k : nat) es (m : nat) e :
  read_rows lines j k = Ok es → es !! m = Some e →
  read_row lines (j + Z.of_nat m) = Ok e.
Proof.
  revert j es m. induction k as [|k IH]; intros j es m; simpl.
  - by intros [= <-].
  - destruct (read_row lines j) as [e0|] eqn:H0; [|done]. rewrite bind_Ok.
    destruct (read_rows lines (j + 1) k) as [es'|] eqn:Hr; [|done].
    rewrite bind_Ok. intros [= <-] Hm. destruct m as [|m]; simpl in Hm.
    + injection Hm as <-. by rewrite Z.add_0_r.
    + replace (j + Z.of_nat (S m)) with (j + 1 + Z.of_nat m) by lia.
      by eapply IH.
Qed.

(** The pass over pair [(k, k+1)] from the state the first [k] pairs left:
    a boundary pair gives no row and binds the declared indices, a layer
    pair writes one row at the output index and advances it. *)
Lemma deck_step_pair (lines : list string) es (ico icr : Z) (loc : Locals)
    (k : nat) (st : DeckState) (rb rhob rt rhot : float) :
  read_rows lines 3 (length es) = Ok es →
  es !! k = Some (rb, rhob) → es !! S k = Some (rt, rhot) →
  deck_after es ico icr loc k st →
  0 <= num st < Z.of_nat (length es) ∧
  deck_step lines ico icr (Z.of_nat k) st
  = Ok (if PrimFloat.eqb rb rt then
          mkDeck (radius st) (rho st) (num st)
            (let l := set_rt rt (locals st) in
             let l := if Z.of_nat k =? ico then set_i_core (num st) l else l in
             if Z.of_nat k =? icr then set_i_crust (num st) l else l)
        else
          mkDeck (<[Z.to_nat (num st) := rb]> (radius st))
            (<[Z.to_nat (num st) := ((rhot + rhob) / 2)%float]> (rho st))
            (num st + 1) (set_rt rt (locals st))).
Proof.
  intros Hrows Hb Ht (Hlr & Hlp & Hnum & _).
  pose proof (read_rows_lookup _ _ _ _ _ _ Hrows Hb) as Hrb.
  pose proof (read_rows_lookup _ _ _ _ _ _ Hrows Ht) as Hrt.
  pose proof (rows_before_le es k) as Hle.
  apply lookup_lt_Some in Ht.
  split; [lia|]. unfold deck_step.
  replace (Z.of_nat k + 3) with (3 + Z.of_nat k) by lia.
  replace (Z.of_nat k + 4) with (3 + Z.of_nat (S k)) by lia.
  rewrite Hrb, bind_Ok, Hrt, bind_Ok.
  destruct (PrimFloat.eqb rb rt); [done|].
  assert (Hnz : ∃ m, num st = Z.of_nat m ∧ (m < length es)%nat).
  { exists (Z.to_nat (num st)). lia. }
  destruct Hnz as (m & -> & Hm). rewrite Nat2Z.id.
  rewrite !py_set_nat by lia. by rewrite !bind_Ok.
Qed.

Lemma deck_after_step (lines : list string) es (ico icr : Z) (loc : Locals)
    (k : nat) (st st' : DeckState) :
  read_rows lines 3 (length es) = Ok es → (S k < length es)%nat →
  deck_after es ico icr loc k st →
  deck_step lines ico icr (Z.of_nat k) st = Ok st' →
  deck_after es ico icr loc (S k) st'.
Proof.
  intros Hrows Hk Hst Hstep.
  destruct (lookup_lt_is_Some_2 es k) as [[rb rhob] Hb]; [lia|].
  destruct (lookup_lt_is_Some_2 es (S k)) as [[rt rhot] Ht]; [lia|].
  destruct (deck_step_pair lines es ico icr loc k st _ _ _ _ Hrows Hb Ht Hst)
    as [Hn Hstep'].
  rewrite Hstep' in Hstep. injection Hstep as <-.
  destruct st as [R P n l].
  destruct Hst as (Hlr & Hlp & Hnum & Htr & Htp & Hloc).
  simpl in Hlr, Hlp, Hnum, Htr, Htp, Hloc, Hn. subst n l.
  pose proof (emit_snoc es k _ _ Hb Ht) as Hsnoc. simpl in Hsnoc.
  assert (Hbd : boundary es k = PrimFloat.eqb rb rt).
  { unfold boundary. by rewrite Hb, Ht. }
  cbn [radius rho num locals].
  destruct (PrimFloat.eqb rb rt) eqn:Heq.
  - unfold deck_after; cbn [radius rho num locals].
    rewrite app_nil_r in Hsnoc.
    assert (Hrb' : rows_before es (S k) = rows_before es k).
    { unfold rows_before. by rewrite Hsnoc. }
    rewrite Hrb', Hsnoc, Ht, !marker_upto_S, Hbd. repeat split; try done.
    by destruct (Z.of_nat k =? ico), (Z.of_nat k =? icr).
  - unfold rows_before in *.
    set (m := length (emit (take (S k) es))) in *.
    rewrite Nat2Z.id in Htr, Htp |- *.
    unfold deck_after; cbn [radius rho num locals]. unfold rows_before.
    rewrite !length_insert, Hsnoc, Ht, !fmap_app, length_app. simpl length.
    replace (Z.to_nat (Z.of_nat m + 1)) with (S m) by lia.
    rewrite !take_S_insert by lia. rewrite Htr, Htp, !marker_upto_S, Hbd.
    rewrite !andb_false_r.
    repeat split; try done. fold m. lia.
Qed.

Lemma deck_loop_spec (lines : list string) es (ico icr : Z) (loc : Locals) (k : nat) :
  read_rows lines 3 (length es) = Ok es → (k < length es)%nat →
  ∃ st, for_range (deck_step lines ico icr) 0 k (deck_init (length es) loc)
        = Ok st ∧ deck_after es ico icr loc k st.
Proof.
  intros Hrows. induction k as [|k IH]; intros Hk.
  - eexists; split; [reflexivity|]. unfold deck_after; simpl.
    assert (He : emit (take 1 es) = []) by (by destruct es as [|? [|? ?]]).
    unfold rows_before. rewrite !length_replicate, He. simpl.
    repeat split; try done.
    destruct loc; simpl. by rewrite !marker_upto_0.
  - destruct IH as (st & Hrun & Hst); [lia|].
    rewrite for_range_snoc, Hrun, bind_Ok, Z.add_0_l.
    destruct (lookup_lt_is_Some_2 es k) as [[rb rhob] Hb]; [lia|].
    destruct (lookup_lt_is_Some_2 es (S k)) as [[rt rhot] Ht]; [lia|].
    destruct (deck_step_pair lines es ico icr loc k st _ _ _ _ Hrows Hb Ht Hst)
      as [_ Hstep].
    eexists; split; [exact Hstep|].
    eapply deck_after_step; eauto.
Qed.

(** The deck reader on a deck whose header is read as [(N, icr, ico)], with
    [N >= 2] entries [es]: the profile is the rows of the entry pairs
    followed by the surface row, and the boundary indices are bound at the
    declared pairs when these are boundary pairs. *)
Lemma deck_parse_spec (lines : list string) (loc : Locals) (N icr ico : Z)
    (es : list (float * float)) (rt rhot : float) :
  deck_header lines = Ok (N, icr, ico) →
  read_rows lines 3 (Z.to_nat N) = Ok es → 2 <= N →
  last es = Some (rt, rhot) →
  deck_parse lines loc
  = Ok (mkProfile ((emit es).*1 ++ [rt]) ((emit es).*2 ++ [0%float])
          (Z.of_nat (length (emit es))) rt,
        mkLocals (Some rt) (marker es ico (v_i_core loc))
          (marker es icr (v_i_crust loc)) (v_i_lith loc)).
Proof.
  intros Hhd Hrows HN Hlast.
  pose proof (read_rows_length _ _ _ _ Hrows) as Hlen.
  unfold deck_parse. rewrite Hhd, bind_Ok. cbn match.
  unfold np_zeros. destruct (Z.ltb_spec N 0); [lia|]. rewrite !bind_Ok.
  rewrite <- Hlen in Hrows |- *.
  replace (Z.to_nat (N - 1)) with (length es - 1)%nat by lia.
  destruct (deck_loop_spec lines es ico icr loc (length es - 1) Hrows)
    as ([R P n l] & Hrun & Hlr & Hlp & Hnum & Htr & Htp & Hloc); [lia|].
  unfold deck_init in Hrun. rewrite Hrun.
  simpl in Hlr, Hlp, Hnum, Htr, Htp, Hloc. subst n l.
  replace (S (length es - 1)) with (length es) in * by lia.
  rewrite firstn_all in *.
  rewrite bind_Ok. cbn [radius rho num locals v_rt].
  rewrite last_lookup in Hlast.
  replace (Init.Nat.pred (length es)) with (length es - 1)%nat in Hlast by lia.
  assert (Hrt : match (length es - 1)%nat with
                | O => v_rt loc
                | _ => fst <$> es !! (length es - 1)%nat
                end = Some rt).
  { rewrite Hlast. destruct (length es - 1)%nat eqn:Hk; [lia|done]. }
  rewrite Hrt. cbn [read_var]. rewrite bind_Ok.
  pose proof (rows_before_le es (length es - 1)) as Hle.
  unfold rows_before in *. replace (S (length es - 1)) with (length es) in * by lia.
  rewrite firstn_all in *.
  set (m := length (emit es)) in *. rewrite Nat2Z.id in Htr, Htp.
  rewrite !py_set_nat by lia. rewrite !bind_Ok.
  replace (Z.to_nat (Z.of_nat m + 1 - 1 + 1)) with (S m) by lia.
  rewrite !take_S_insert by lia. rewrite Htr, Htp.
  replace (Z.of_nat m + 1 - 1) with (Z.of_nat m) by lia.
  rewrite (py_get_nat _ m rt).
  - reflexivity.
  - rewrite lookup_app_r by (rewrite length_fmap; lia).
    rewrite length_fmap. fold m. by rewrite Nat.sub_diag.
Qed.

End Deck.

(** ** The deck reader: header, pairs, profile *)

(** Inversion of a successful step of a sequence. *)
Ltac bind_inv H :=
  match type of H with
  | (?m ≫= _) = Ok _ =>
      let E := fresh "E" in
      destruct m eqn:E; [rewrite bind_Ok in H | discriminate H]
  end.

Section DeckClaims.
Context `{Builtins}.

(** What a header that is read successfully says. *)
Lemma deck_header_Ok (lines : list string) (N icr ico : Z) :
  deck_header lines = Ok (N, icr, ico) →
  ∃ l1 s flag l2 sN sK sC,
    lines !! 1%nat = Some l1 ∧ split l1 !! 2%nat = Some s ∧
    py_float s = Some flag ∧ PrimFloat.eqb flag 1 = true ∧
    lines !! 2%nat = Some l2 ∧
    split l2 !! 0%nat = Some sN ∧ py_int sN = Some N ∧
    split l2 !! 3%nat = Some sK ∧ py_int sK = Some (icr + 1) ∧
    split l2 !! 2%nat = Some sC ∧ py_int sC = Some (ico + 1).
Proof.
  unfold deck_header. intros Hh.
  bind_inv Hh. bind_inv Hh. bind_inv Hh. bind_inv Hh.
  destruct (PrimFloat.eqb a2 1) eqn:Hflag; [|discriminate Hh]. simpl negb in Hh. cbv iota in Hh.
  bind_inv Hh. bind_inv Hh. bind_inv Hh. bind_inv Hh. bind_inv Hh.
  bind_inv Hh. bind_inv Hh.
  injection Hh as <- <- <-.
  repeat match goal with
  | E : py_get _ 0 = Ok _ |- _ => apply (py_get_Ok_nat _ 0%nat) in E
  | E : py_get _ 1 = Ok _ |- _ => apply (py_get_Ok_nat _ 1%nat) in E
  | E : py_get _ 2 = Ok _ |- _ => apply (py_get_Ok_nat _ 2%nat) in E
  | E : py_get _ 3 = Ok _ |- _ => apply (py_get_Ok_nat _ 3%nat) in E
  | E : convert _ = Ok _ |- _ => apply convert_Ok in E
  end.
  rewrite !Z.sub_add.
  do 7 eexists. repeat split; eassumption.
Qed.

(** C2. On a well-formed deck the loop reaches every consecutive entry
    pair [(k, k+1)] and handles it as follows.  Equal radii: no row is
    written, the output index stays, and the output index is recorded as
    the core index when [k] is the declared core entry number minus one,
    and as the crust index when [k] is the declared crust entry number
    minus one.  Different radii: exactly one row is written at the output
    index, with the bottom radius and the mean of the two densities, and
    the output index advances.  The minimal deck gives a two-row profile
    whose last density is 0. *)
Theorem deck_loop_pairs (lines : list string) (loc : Locals) (N icr ico : Z)
    (es : list (float * float)) (k : nat) (rb rhob rt rhot : float) :
  deck_header lines = Ok (N, icr, ico) →
  read_rows lines 3 (Z.to_nat N) = Ok es →
  es !! k = Some (rb, rhob) → es !! S k = Some (rt, rhot) →
  (∃ l2 sC sK, lines !! 2%nat = Some l2 ∧
     split l2 !! 2%nat = Some sC ∧ py_int sC = Some (ico + 1) ∧
     split l2 !! 3%nat = Some sK ∧ py_int sK = Some (icr + 1))
  ∧ (∃ st,
       for_range (deck_step lines ico icr) 0 k (deck_init (Z.to_nat N) loc) = Ok st
       ∧ 0 <= num st < N
       ∧ for_range (deck_step lines ico icr) 0 (S k) (deck_init (Z.to_nat N) loc)
         = Ok (if PrimFloat.eqb rb rt then
                 mkDeck (radius st) (rho st) (num st)
                   (mkLocals (Some rt)
                      (if Z.of_nat k =? ico then Some (num st)
                       else v_i_core (locals st))
                      (if Z.of_nat k =? icr then Some (num st)
                       else v_i_crust (locals st))
                      (v_i_lith (locals st)))
               else
                 mkDeck (<[Z.to_nat (num st) := rb]> (radius st))
                   (<[Z.to_nat (num st) := ((rhot + rhob) / 2)%float]> (rho st))
                   (num st + 1)
                   (mkLocals (Some rt) (v_i_core (locals st))
                      (v_i_crust (locals st)) (v_i_lith (locals st)))))
  ∧ @deck_parse literal_builtins minimal_deck unbound
    = Ok (mkProfile [0; 1000]%float [5000; 0]%float 1 1000%float,
          mkLocals (Some 1000%float) (Some 0) (Some 0) None).
Proof.
  intros Hhd Hrows Hb Ht.
  pose proof (read_rows_length _ _ _ _ Hrows) as Hlen.
  pose proof (lookup_lt_Some _ _ _ Ht) as Hk.
  split; [|split; [|reflexivity]].
  - destruct (deck_header_Ok _ _ _ _ Hhd)
      as (l1 & s & flag & l2 & sN & sK & sC & _ & _ & _ & _ & ? & _ & _ & ? & ? & ? & ?).
    by exists l2, sC, sK.
  - rewrite <- Hlen in Hrows |- *.
    destruct (deck_loop_spec lines es ico icr loc k Hrows) as (st & Hrun & Hst); [lia|].
    destruct (deck_step_pair lines es ico icr loc k st _ _ _ _ Hrows Hb Ht Hst)
      as [Hn Hstep].
    exists st. split; [done|]. split; [lia|].
    rewrite for_range_snoc, Hrun, bind_Ok, Z.add_0_l, Hstep. f_equal.
    destruct (PrimFloat.eqb rb rt); [|by destruct (locals st)].
    f_equal. destruct (locals st), (Z.of_nat k =? ico), (Z.of_nat k =? icr); done.
Qed.

End DeckClaims.

Lemma deck_loop_pairs_witness :
  ∃ st,
    for_range (@deck_step literal_builtins minimal_deck 0 0) 0 1 (deck_init 3 unbound)
    = Ok st
    ∧ 0 <= num st < 3
    ∧ for_range (@deck_step literal_builtins minimal_deck 0 0) 0 2 (deck_init 3 unbound)
      = Ok (mkDeck (<[Z.to_nat (num st) := 0%float]> (radius st))
              (<[Z.to_nat (num st) := ((3000 + 7000) / 2)%float]> (rho st))
              (num st + 1)
              (mkLocals (Some 1000%float) (v_i_core (locals st))
                 (v_i_crust (locals st)) (v_i_lith (locals st)))).
Proof.
  exact (proj1 (proj2 (@deck_loop_pairs literal_builtins minimal_deck unbound 3 0 0
    [(0, 8000); (0, 7000); (1000, 3000)]%float 1 0%float 7000%float 1000%float
    3000%float eq_refl eq_refl eq_refl eq_refl))).
Defined.

(** ** Subscripts that address a row *)

Lemma py_get_in_range {A} (l : list A) (i : Z) :
  - Z.of_nat (length l) <= i < Z.of_nat (length l) → ∃ x, py_get l i = Ok x.
Proof.
  intros Hi. unfold py_get, py_pos.
  destruct (Z.ltb_spec i 0).
  - destruct (Z.leb_spec 0 (i + Z.of_nat (length l))); [|lia].
    destruct (Z.ltb_spec (i + Z.of_nat (length l)) (Z.of_nat (length l))); [|lia].
    simpl. destruct (lookup_lt_is_Some_2 l (Z.to_nat (i + Z.of_nat (length l))))
      as [x Hx]; [lia|]. rewrite Hx. by exists x.
  - destruct (Z.leb_spec 0 i); [|lia].
    destruct (Z.ltb_spec i (Z.of_nat (length l))); [|lia].
    simpl. destruct (lookup_lt_is_Some_2 l (Z.to_nat i)) as [x Hx]; [lia|].
    rewrite Hx. by exists x.
Qed.

(** The index the policy picks on rows [i] and [i+1] reads one of them. *)
Lemma resolve_row (rs : list float) (t : float) (i : nat) (a b : float) :
  rs !! i = Some a → rs !! S i = Some b →
  ∃ x, py_get rs (resolve a b t (Z.of_nat i)) = Ok x
       ∧ (resolve a b t (Z.of_nat i) = Z.of_nat i ∧ x = a
          ∨ resolve a b t (Z.of_nat i) = Z.of_nat i + 1 ∧ x = b).
Proof.
  intros Ha Hb. unfold resolve. destruct (PrimFloat.eqb a t).
  - exists a. split; [by apply py_get_nat|by left].
  - destruct (PrimFloat.leb _ _).
    + exists a. split; [by apply py_get_nat|by left].
    + exists b. split; [|by right].
      replace (Z.of_nat i + 1) with (Z.of_nat (S i)) by lia. by apply py_get_nat.
Qed.


(** ** Shape of the profiles *)

(** Radii that never decrease give strictly increasing rows: a row is
    written only below a strictly higher top, and every later radius is at
    least that top. *)
Lemma emit_increasing (es : list (float * float)) (t lst : float * float) :
  nondecreasing (t :: es) = true → PrimFloat.eqb t.1 t.1 = true →
  last (t :: es) = Some lst →
  increasing ((emit (t :: es)).*1 ++ [lst.1]) = true
  ∧ ∃ h tl, (emit (t :: es)).*1 ++ [lst.1] = h :: tl
            ∧ (PrimFloat.eqb t.1 h || PrimFloat.ltb t.1 h) = true.
Proof.
  revert t. induction es as [|u es IH]; intros t Hnd Hrefl Hlast.
  - simpl in Hlast. injection Hlast as <-. simpl. split; [done|].
    exists t.1, []. by rewrite Hrefl.
  - change (nondecreasing (t :: u :: es))
      with ((PrimFloat.eqb t.1 u.1 || PrimFloat.ltb t.1 u.1) && nondecreasing (u :: es))
      in Hnd.
    apply andb_prop in Hnd as [Htu Hnd].
    assert (Hu : PrimFloat.eqb u.1 u.1 = true).
    { apply orb_prop in Htu as [Heq|Hlt].
      - apply (F64.eqb_trans _ t.1); [by rewrite F64.eqb_sym|done].
      - by apply (F64.ltb_refl_r t.1). }
    destruct (IH u Hnd Hu Hlast) as (Hinc & h & tl & Hrs & Hh).
    rewrite emit_cons2.
    destruct (PrimFloat.eqb t.1 u.1) eqn:Heq.
    + split; [done|]. exists h, tl. split; [done|].
      apply orb_prop in Hh as [Hh|Hh]; apply orb_true_iff.
      * left. by apply (F64.eqb_trans _ u.1).
      * right. by apply (F64.eqb_ltb_trans _ u.1).
    + simpl in Htu.
      assert (Hth : PrimFloat.ltb t.1 h = true).
      { apply orb_prop in Hh as [Hh|Hh].
        - by apply (F64.ltb_eqb_trans _ u.1).
        - by apply (F64.ltb_trans _ u.1). }
      split.
      * rewrite fmap_cons. cbn [fst app]. rewrite Hrs in Hinc |- *.
        simpl. by rewrite Hth.
      * exists t.1, (h :: tl). rewrite fmap_cons. cbn [fst app].
        rewrite Hrs, Hrefl. done.
Qed.

Lemma nondecreasing_head (t u : float * float) (es : list (float * float)) :
  nondecreasing (t :: u :: es) = true → PrimFloat.eqb t.1 t.1 = true.
Proof.
  simpl. intros Hnd. apply andb_prop in Hnd as [Htu _].
  apply orb_prop in Htu as [Heq|Hlt].
  - apply (F64.eqb_trans _ u.1); [done|by rewrite F64.eqb_sym].
  - by apply (F64.ltb_refl_l _ u.1).
Qed.

Section Tabulated.
Context `{Builtins}.

(** A pass of the copy loop writes the row read from line [i + 4]. *)
Lemma tab_step_read (lines : list string) (i : nat) (st : list float * list float)
    (r d : float) :
  read_row lines (4 + Z.of_nat i) = Ok (r, d) →
  (i < length st.1)%nat → (i < length st.2)%nat →
  tab_step lines (Z.of_nat i) st = Ok (<[i:=r]> st.1, <[i:=d]> st.2).
Proof.
  unfold read_row, tab_step. intros Hr H1 H2.
  replace (Z.of_nat i + 4) with (4 + Z.of_nat i) by lia.
  bind_inv Hr. bind_inv Hr. bind_inv Hr. bind_inv Hr. bind_inv Hr.
  injection Hr as <- <-.
  repeat first [ rewrite bind_Ok | rewrite py_set_nat by done
               | match goal with E : _ = Ok _ |- _ => rewrite E end ].
  done.
Qed.

Lemma tab_loop_spec (lines : list string) (es : list (float * float)) (k : nat) :
  read_rows lines 4 (length es) = Ok es → (k ≤ length es)%nat →
  ∃ R P, for_range (tab_step lines) 0 k
           (replicate (length es) 0%float, replicate (length es) 0%float)
         = Ok (R, P)
    ∧ length R = length es ∧ length P = length es
    ∧ take k R = (take k es).*1 ∧ take k P = (take k es).*2.
Proof.
  intros Hrows. induction k as [|k IH]; intros Hk.
  - do 2 eexists. split; [reflexivity|]. by rewrite !length_replicate.
  - destruct IH as (R & P & Hrun & Hlr & Hlp & Htr & Htp); [lia|].
    destruct (lookup_lt_is_Some_2 es k) as [[r d] He]; [lia|].
    pose proof (read_rows_lookup _ _ _ _ _ _ Hrows He) as Hr.
    rewrite for_range_snoc, Hrun, bind_Ok, Z.add_0_l.
    rewrite (tab_step_read lines k (R, P) r d Hr) by (simpl; lia).
    do 2 eexists. split; [reflexivity|]. simpl.
    rewrite !length_insert, !take_S_insert by lia.
    rewrite (take_S_r es k (r, d)) by done.
    by rewrite !fmap_app, Htr, Htp.
Qed.

(** The tabulated reader on a file of four header lines and at least one
    row, every row being two numbers: the rows are copied verbatim. *)
Lemma tab_parse_spec (lines : list string) (es : list (float * float))
    (r0 rho0 : float) :
  (5 ≤ length lines)%nat → read_rows lines 4 (length lines - 4) = Ok es →
  last es = Some (r0, rho0) →
  tab_parse lines
  = Ok (mkProfile es.*1 es.*2 (Z.of_nat (length es) - 1) r0).
Proof.
  intros Hlen Hrows Hlast.
  pose proof (read_rows_length _ _ _ _ Hrows) as Hes.
  unfold tab_parse.
  replace (Z.of_nat (length lines) - 4) with (Z.of_nat (length es)) by lia.
  unfold np_zeros. destruct (Z.ltb_spec (Z.of_nat (length es)) 0); [lia|].
  rewrite !bind_Ok, Nat2Z.id. rewrite <- Hes in Hrows.
  destruct (tab_loop_spec lines es (length es) Hrows)
    as (R & P & -> & Hlr & Hlp & Htr & Htp); [lia|].
  rewrite bind_Ok. cbn match.
  rewrite <- Hlr in Htr at 1. rewrite <- Hlp in Htp at 1.
  rewrite !firstn_all in Htr, Htp. subst R P.
  rewrite last_lookup in Hlast.
  replace (Z.of_nat (length es) - 1) with (Z.of_nat (Init.Nat.pred (length es))) by lia.
  rewrite (py_get_nat _ _ r0); [done|].
  by rewrite list_lookup_fmap, Hlast.
Qed.

End Tabulated.

Section ProfileClaims.
Context `{Builtins} `{Collaborator}.

(** C3. Valid deck (header read, [N >= 2] entries read, entry radii never
    decreasing): the reader returns a profile with strictly increasing
    radii whose last row sits at the last top radius with density exactly
    0, and the surface index is the index of that row.  Valid table (four
    header lines, at least one row, every row two numbers, radii strictly
    increasing): the rows are copied, the radii stay strictly increasing and
    the density of the last row is overwritten with 0: every run that
    reaches the external routine hands on the overwritten densities, and a
    table with a pair of rows that brackets the target does reach it. *)
Theorem profile_increasing_surface_zero :
  (∀ (lines : list string) (loc : Locals) (N icr ico : Z) es,
     deck_header lines = Ok (N, icr, ico) →
     read_rows lines 3 (Z.to_nat N) = Ok es → 2 <= N →
     nondecreasing es = true →
     ∃ p loc' rt rhot,
       last es = Some (rt, rhot) ∧ deck_parse lines loc = Ok (p, loc') ∧
       increasing (p_radius p) = true ∧
       last (p_rho p) = Some 0%float ∧ last (p_radius p) = Some rt ∧
       p_r0 p = rt ∧
       Z.of_nat (length (p_radius p)) = p_n p + 1 ∧
       length (p_rho p) = length (p_radius p))
  ∧ (∀ (lines : list string) es,
       (5 ≤ length lines)%nat →
       read_rows lines 4 (length lines - 4) = Ok es →
       increasing es.*1 = true →
       ∃ p rho2,
         tab_parse lines = Ok p ∧ p_radius p = es.*1 ∧ p_rho p = es.*2 ∧
         py_set (p_rho p) (p_n p) 0%float = Ok rho2 ∧
         rho2 = <[(length es - 1)%nat := 0%float]> es.*2 ∧
         last rho2 = Some 0%float ∧ increasing (p_radius p) = true ∧
         (∀ d loc r loc', tab_model d lines loc = Ok (r, loc') →
            call_radius r = p_radius p ∧ call_rho r = rho2) ∧
         (∀ d loc i a b,
            p_radius p !! i = Some a → p_radius p !! S i = Some b →
            bracket (p_radius p) (p_r0 p - d) i = true →
            ∃ r loc', tab_model d lines loc = Ok (r, loc') ∧
                      call_radius r = p_radius p ∧ call_rho r = rho2 ∧
                      last (call_rho r) = Some 0%float)).
Proof.
  split.
  - intros lines loc N icr ico es Hhd Hrows HN Hnd.
    pose proof (read_rows_length _ _ _ _ Hrows) as Hlen.
    destruct es as [|t [|u es]]; [simpl in Hlen; lia..|].
    destruct (last (t :: u :: es)) as [[rt rhot]|] eqn:Hlast.
    2:{ by apply last_None in Hlast. }
    rewrite (deck_parse_spec lines loc N icr ico _ rt rhot Hhd Hrows HN Hlast).
    destruct (emit_increasing (u :: es) t (rt, rhot) Hnd) as [Hinc _].
    { by eapply nondecreasing_head. }
    { done. }
    do 4 eexists. split; [reflexivity|]. split; [reflexivity|].
    cbn [p_radius p_rho p_n p_r0].
    rewrite !last_snoc, !length_app, !length_fmap. cbn [length].
    repeat split; try done. lia.
  - intros lines es Hlen Hrows Hinc.
    pose proof (read_rows_length _ _ _ _ Hrows) as Hes.
    destruct (last es) as [[r0 rho0]|] eqn:Hlast.
    2:{ apply last_None in Hlast. subst es. simpl in Hes. lia. }
    rewrite (tab_parse_spec lines es r0 rho0 Hlen Hrows Hlast).
    assert (Hset : py_set es.*2 (Z.of_nat (length es) - 1) 0%float
                   = Ok (<[(length es - 1)%nat := 0%float]> es.*2)).
    { replace (Z.of_nat (length es) - 1) with (Z.of_nat (length es - 1)) by lia.
      apply py_set_nat. rewrite length_fmap. lia. }
    assert (Hzero : last (<[(length es - 1)%nat := 0%float]> es.*2)
                    = Some 0%float).
    { rewrite last_lookup, length_insert, length_fmap.
      replace (Init.Nat.pred (length es)) with (length es - 1)%nat by lia.
      apply list_lookup_insert_eq. rewrite length_fmap. lia. }
    do 2 eexists. split; [reflexivity|]. cbn [p_radius p_rho p_n p_r0].
    split; [done|]. split; [done|]. split; [exact Hset|]. split; [done|].
    split; [done|]. split; [done|]. split.
    + intros d loc r loc' Hm. unfold tab_model in Hm.
      rewrite (tab_parse_spec lines es r0 rho0 Hlen Hrows Hlast), bind_Ok in Hm.
      cbn [p_radius p_rho p_n p_r0] in Hm.
      bind_inv Hm. rewrite Hset, bind_Ok in Hm.
      bind_inv Hm. bind_inv Hm. by injection Hm as <- _.
    + intros d loc i a b Ha Hb Hbr.
      destruct (resolve_row es.*1 (r0 - d) i a b Ha Hb) as (x & Hx & _).
      do 2 eexists. split.
      { unfold tab_model.
        rewrite (tab_parse_spec lines es r0 rho0 Hlen Hrows Hlast), bind_Ok.
        cbn [p_radius p_rho p_n p_r0].
        replace (Z.of_nat (length es) - 1 + 1) with (Z.of_nat (length es.*1))
          by (rewrite length_fmap; lia).
        rewrite (locate_first es.*1 r0 d i a b (v_i_lith loc) Ha Hb Hbr), bind_Ok.
        2:{ intros j Hj. by eapply bracket_first. }
        rewrite Hset, bind_Ok.
        cbn [set_i_lith v_i_lith read_var]. rewrite bind_Ok, Hx, bind_Ok.
        reflexivity. }
      cbn [call_radius call_rho]. by rewrite Hzero.
Qed.

End ProfileClaims.

Lemma profile_increasing_surface_zero_witness :
  (∃ p loc' rt rhot,
     last [(0, 8000); (0, 7000); (1000, 3000)]%float = Some (rt, rhot) ∧
     @deck_parse literal_builtins minimal_deck unbound = Ok (p, loc') ∧
     increasing (p_radius p) = true ∧
     last (p_rho p) = Some 0%float ∧ last (p_radius p) = Some rt ∧
     p_r0 p = rt ∧
     Z.of_nat (length (p_radius p)) = p_n p + 1 ∧
     length (p_rho p) = length (p_radius p))
  ∧ (@tab_parse literal_builtins small_table
     = Ok (mkProfile [0; 10; 20; 30]%float [8000; 5000; 3000; 2900]%float 3 30)
     ∧ increasing [0; 10; 20; 30]%float = true
     ∧ py_set [8000; 5000; 3000; 2900]%float 3 0%float
       = Ok [8000; 5000; 3000; 0]%float
     ∧ ∃ r loc',
         @tab_model literal_builtins index_stub 15 small_table unbound
         = Ok (r, loc') ∧
         call_radius r = [0; 10; 20; 30]%float ∧
         call_rho r = [8000; 5000; 3000; 0]%float ∧
         last (call_rho r) = Some 0%float).
Proof.
  split.
  - apply (proj1 (@profile_increasing_surface_zero literal_builtins index_stub)
             minimal_deck unbound 3 0 0 [(0, 8000); (0, 7000); (1000, 3000)]%float);
      [reflexivity | reflexivity | lia | reflexivity].
  - destruct (proj2 (@profile_increasing_surface_zero literal_builtins index_stub)
                small_table
                [(0, 8000); (10, 5000); (20, 3000); (30, 2900)]%float
                ltac:(simpl; lia) eq_refl eq_refl)
      as (p & rho2 & Hp & Hrad & Hrho & Hset & Hrho2 & Hlast & Hinc & Hany & Hrun).
    assert (Hpq : Ok p
      = Ok (mkProfile [0; 10; 20; 30]%float [8000; 5000; 3000; 2900]%float 3 30)).
    { rewrite <- Hp. reflexivity. }
    injection Hpq as ->. split; [reflexivity|]. split; [exact Hinc|].
    split; [exact (eq_trans Hset (f_equal Ok Hrho2))|].
    destruct (Hrun 15%float unbound 1%nat 10%float 20%float eq_refl eq_refl eq_refl)
      as (r & loc' & Hm & Hcr & Hcp & Hz).
    exists r, loc'. split; [exact Hm|]. split; [exact Hcr|].
    split; [by rewrite Hcp, Hrho2|exact Hz].
Defined.

(** ** The densities reported below the boundary indices *)

Lemma for_range_inv {S} (P : S → Prop) (body : Z → S → result S) (lo : Z)
    (k : nat) (s s' : S) :
  (∀ i s s', P s → body i s = Ok s' → P s') →
  P s → for_range body lo k s = Ok s' → P s'.
Proof.
  intros Hbody. revert lo s. induction k as [|k IH]; intros lo s Hs Hrun.
  - simpl in Hrun. by injection Hrun as <-.
  - rewrite for_range_S in Hrun. bind_inv Hrun. eauto.
Qed.

Lemma py_set_Ok_nonneg {A} (l l' : list A) (i : Z) (v : A) :
  0 <= i → py_set l i v = Ok l' →
  (Z.to_nat i < length l)%nat ∧ l' = <[Z.to_nat i := v]> l.
Proof.
  intros Hi. unfold py_set, py_pos.
  destruct (Z.ltb_spec i 0); [lia|].
  destruct (_ && _) eqn:Hb; [|done]. intros [= <-].
  apply andb_prop in Hb as [_ Hlt]. apply Z.ltb_lt in Hlt. split; [lia|done].
Qed.

Section Densities.
Context `{Builtins} `{Collaborator}.

Lemma deck_step_num (lines : list string) (ico icr i : Z) (st st' : DeckState) :
  0 <= num st → deck_step lines ico icr i st = Ok st' → 0 <= num st'.
Proof.
  unfold deck_step. intros Hn Hs.
  bind_inv Hs. destruct a as [rb rhob]. bind_inv Hs. destruct a as [rt rhot].
  destruct (PrimFloat.eqb rb rt).
  - by injection Hs as <-.
  - bind_inv Hs. bind_inv Hs. injection Hs as <-. simpl. lia.
Qed.

(** Whatever the deck, a profile the reader returns ends with density 0,
    and subscript [-1] reads that row. *)
Lemma deck_parse_last (lines : list string) (loc loc' : Locals) (p : Profile) :
  deck_parse lines loc = Ok (p, loc') →
  last (p_rho p) = Some 0%float ∧ py_get (p_rho p) (0 - 1) = Ok 0%float.
Proof.
  unfold deck_parse. intros Hp.
  bind_inv Hp. destruct a as [[N icr] ico].
  bind_inv Hp. bind_inv Hp. bind_inv Hp.
  assert (Hn : 0 <= num a1).
  { eapply (for_range_inv (λ st, 0 <= num st)); [|  |exact E2]; [|simpl; lia].
    intros i s s'. apply deck_step_num. }
  bind_inv Hp. bind_inv Hp. bind_inv Hp.
  apply (py_set_Ok_nonneg _ _ _ _ Hn) in E5 as [Hlt ->].
  bind_inv Hp. injection Hp as <- _. cbn [p_rho].
  replace (Z.to_nat (num a1 + 1 - 1 + 1)) with (S (Z.to_nat (num a1))) by lia.
  rewrite take_S_insert by done.
  split; [apply last_snoc|].
  unfold py_get. rewrite length_app, length_take. cbn [length].
  rewrite py_pos_last by lia.
  rewrite lookup_app_r by (rewrite length_take; lia).
  rewrite length_take.
  by replace (Init.Nat.min (Z.to_nat (num a1)) (length (rho a1)) + 1 - 1
              - Init.Nat.min (Z.to_nat (num a1)) (length (rho a1)))%nat
    with 0%nat by lia.
Qed.

Lemma deck_parse_shape (lines : list string) (loc loc' : Locals) (p : Profile) :
  deck_parse lines loc = Ok (p, loc') →
  0 <= p_n p ∧ Z.of_nat (length (p_radius p)) = p_n p + 1
  ∧ length (p_rho p) = length (p_radius p).
Proof.
  unfold deck_parse. intros Hp.
  bind_inv Hp. destruct a as [[N icr] ico].
  bind_inv Hp. bind_inv Hp. bind_inv Hp.
  assert (Hn : 0 <= num a1).
  { eapply (for_range_inv (λ st, 0 <= num st)); [|  |exact E2]; [|simpl; lia].
    intros i s s'. apply deck_step_num. }
  bind_inv Hp. bind_inv Hp. bind_inv Hp.
  apply (py_set_Ok_nonneg _ _ _ _ Hn) in E4 as [Hlr ->].
  apply (py_set_Ok_nonneg _ _ _ _ Hn) in E5 as [Hlp ->].
  bind_inv Hp. injection Hp as <- _. cbn [p_radius p_rho p_n].
  rewrite !length_take, !length_insert. lia.
Qed.

(** C9. The mantle and core densities reported for a deck are
    [rho[i_crust - 1]] and [rho[i_core - 1]].  In every profile the deck
    reader returns, subscript [-1] is in range and reads the last row,
    whose density is 0: a boundary index bound to 0 gives a reported density
    of 0, not an out-of-range failure.  Whenever the scan returns and the
    three indices address rows of the profile, index 0 included, the deck
    is reported, with these two densities. *)
Theorem densities_below_boundary (d : float) (lines : list string)
    (loc loc1 : Locals) (p : Profile) :
  deck_parse lines loc = Ok (p, loc1) →
  py_get (p_rho p) (0 - 1) = Ok 0%float ∧ last (p_rho p) = Some 0%float ∧
  (∀ r loc', deck_model d lines loc = Ok (r, loc') →
    ∃ i_crust i_core x y,
      v_i_crust loc1 = Some i_crust ∧ v_i_core loc1 = Some i_core ∧
      py_get (p_rho p) (i_crust - 1) = Ok x ∧ rho_mantle r = Some x ∧
      py_get (p_rho p) (i_core - 1) = Ok y ∧ rho_core r = Some y ∧
      (i_crust = 0 → rho_mantle r = Some 0%float) ∧
      (i_core = 0 → rho_core r = Some 0%float))
  ∧ (∀ i_crust i_core i_lith,
       v_i_crust loc1 = Some i_crust → v_i_core loc1 = Some i_core →
       locate (p_radius p) (p_r0 p) d (p_n p + 1) (v_i_lith loc1)
       = Ok (Some i_lith) →
       0 <= i_crust <= p_n p → 0 <= i_core <= p_n p → 0 <= i_lith <= p_n p →
       ∃ r x y,
         deck_model d lines loc = Ok (r, set_i_lith (Some i_lith) loc1) ∧
         py_get (p_rho p) (i_crust - 1) = Ok x ∧ rho_mantle r = Some x ∧
         py_get (p_rho p) (i_core - 1) = Ok y ∧ rho_core r = Some y ∧
         (i_crust = 0 → rho_mantle r = Some 0%float) ∧
         (i_core = 0 → rho_core r = Some 0%float)).
Proof.
  intros Hp. destruct (deck_parse_last _ _ _ _ Hp) as [Hlast Hwrap].
  split; [done|]. split; [done|]. split; cycle 1.
  { intros ic io il Hc Ho Hloc Hic Hio Hil.
    destruct (deck_parse_shape _ _ _ _ Hp) as (Hn & Hlr & Hlp).
    destruct (py_get_in_range (p_rho p) (ic - 1)) as [x Hx]; [lia|].
    destruct (py_get_in_range (p_rho p) (io - 1)) as [y Hy]; [lia|].
    destruct (py_get_in_range (p_radius p) ic) as [rm Hrm]; [lia|].
    destruct (py_get_in_range (p_radius p) io) as [rc Hrc]; [lia|].
    destruct (py_get_in_range (p_radius p) il) as [rl Hrl]; [lia|].
    eexists _, x, y. split.
    { unfold deck_model. rewrite Hp, bind_Ok. cbn match. rewrite Hloc, bind_Ok.
      cbn [set_i_lith v_i_crust v_i_core v_i_lith]. rewrite Hc, Ho.
      cbn [read_var].
      rewrite bind_Ok, Hx, bind_Ok, bind_Ok, Hy, bind_Ok, Hrm, bind_Ok, Hrc.
      rewrite bind_Ok, bind_Ok, Hrl, bind_Ok. reflexivity. }
    cbn [rho_mantle rho_core]. split; [done|]. split; [done|]. split; [done|].
    split; [done|]. split; intros ->; congruence. }
  intros r loc' Hm. unfold deck_model in Hm. rewrite Hp, bind_Ok in Hm.
  cbn match in Hm. bind_inv Hm.
  destruct loc1 as [vrt vcore vcrust vlith]. cbn [set_i_lith v_i_crust v_i_core
    v_i_lith v_rt] in Hm.
  bind_inv Hm. bind_inv Hm. bind_inv Hm. bind_inv Hm. bind_inv Hm. bind_inv Hm.
  bind_inv Hm. bind_inv Hm. injection Hm as <- _.
  destruct vcrust as [ic|]; [|done]. destruct vcore as [ico|]; [|done].
  simpl in E0, E2. injection E0 as <-. injection E2 as <-.
  exists ic, ico, a1, a3. cbn [v_i_crust v_i_core rho_mantle rho_core].
  repeat split; try done.
  - intros ->. congruence.
  - intros ->. congruence.
Qed.

End Densities.

Lemma densities_below_boundary_witness :
  py_get [5000; 0]%float (0 - 1) = Ok 0%float ∧
  last [5000; 0]%float = Some 0%float ∧
  ∃ r,
    @deck_model literal_builtins index_stub 500 minimal_deck unbound
    = Ok (r, mkLocals (Some 1000%float) (Some 0) (Some 0) (Some 0)) ∧
    rho_mantle r = Some 0%float ∧ rho_core r = Some 0%float.
Proof.
  destruct (@densities_below_boundary literal_builtins index_stub 500 minimal_deck
              unbound (mkLocals (Some 1000%float) (Some 0) (Some 0) None)
              (mkProfile [0; 1000]%float [5000; 0]%float 1 1000%float) eq_refl)
    as (Hwrap & Hlast & _ & Hrun).
  split; [exact Hwrap|]. split; [exact Hlast|].
  destruct (Hrun 0 0 0 eq_refl eq_refl eq_refl ltac:(simpl; lia) ltac:(simpl; lia)
              ltac:(simpl; lia))
    as (r & x & y & Hm & _ & _ & _ & _ & Hzm & Hzc).
  exists r. split; [exact Hm|]. split; [exact (Hzm eq_refl)|exact (Hzc eq_refl)].
Defined.

(** ** The shell index from one model to the next *)




Section Stale.
Context `{Builtins} `{Collaborator}.




End Stale.


(** ** Boundary markers that match no boundary pair *)

(** C5, as stated, fails: the deck whose declared core and crust entries
    open layers is read without error and leaves both indices unbound; read
    after a deck that bound them, it is reported with the indices of that
    earlier deck. *)
Lemma unmatched_markers_no_error :
  @deck_parse literal_builtins unmarked_deck unbound
  = Ok (mkProfile [0; 1000; 2000; 3000]%float [7500; 3500; 2850; 0]%float 3
          3000%float,
        mkLocals (Some 3000%float) None None None)
  ∧ (@deck_batch literal_builtins index_stub 500 [marked_deck; unmarked_deck]
       unbound).2
    = Ok (mkLocals (Some 3000%float) (Some 1) (Some 2) (Some 2))
  ∧ rho_mantle <$> (@deck_batch literal_builtins index_stub 500
                      [marked_deck; unmarked_deck] unbound).1
    = [Some 3500%float; Some 3500%float].
Proof. repeat split; reflexivity. Qed.

Lemma marker_unmatched (es : list (float * float)) (i : Z) (old : option Z) :
  (0 <=? i) && boundary es (Z.to_nat i) = false → marker es i old = old.
Proof.
  unfold marker, marker_upto. intros Hm.
  destruct (0 <=? i); [|done]. simpl in *. rewrite Hm. by rewrite andb_false_r.
Qed.

Section Markers.
Context `{Builtins} `{Collaborator}.

(** C5, amended.  A well-formed deck is read without error whatever its
    declared entry numbers.  When the declared core (crust) entry number
    coincides with no equal-radius pair met by the loop, the core (crust)
    index keeps the binding it had before the file was read: that of an
    earlier model of the run, or none.  Once the scan has returned, the
    report reads the crust index first: with the crust index unbound it
    fails with [UnboundLocalError] there; with the crust index bound, it
    fails with [IndexError] when [rho[i_crust - 1]] is out of range, and
    else, with the core index unbound, with [UnboundLocalError] at the read
    of the core index. *)
Theorem unmatched_markers_keep_binding (lines : list string) (loc : Locals)
    (N icr ico : Z) (es : list (float * float)) :
  deck_header lines = Ok (N, icr, ico) →
  read_rows lines 3 (Z.to_nat N) = Ok es → 2 <= N →
  ∃ p loc1,
    deck_parse lines loc = Ok (p, loc1)
    ∧ ((0 <=? ico) && boundary es (Z.to_nat ico) = false →
         v_i_core loc1 = v_i_core loc)
    ∧ ((0 <=? icr) && boundary es (Z.to_nat icr) = false →
         v_i_crust loc1 = v_i_crust loc)
    ∧ (v_i_crust loc1 = None →
         ∀ d il', locate (p_radius p) (p_r0 p) d (p_n p + 1) (v_i_lith loc1) = Ok il' →
           deck_model d lines loc = Raise UnboundLocalError)
    ∧ (∀ d il' ic,
         locate (p_radius p) (p_r0 p) d (p_n p + 1) (v_i_lith loc1) = Ok il' →
         v_i_crust loc1 = Some ic →
         (∀ e, py_get (p_rho p) (ic - 1) = Raise e →
            e = IndexError ∧ deck_model d lines loc = Raise IndexError)
         ∧ (∀ x, py_get (p_rho p) (ic - 1) = Ok x → v_i_core loc1 = None →
              deck_model d lines loc = Raise UnboundLocalError)).
Proof.
  intros Hhd Hrows HN.
  pose proof (read_rows_length _ _ _ _ Hrows) as Hlen.
  destruct (last es) as [[rt rhot]|] eqn:Hlast.
  2:{ apply last_None in Hlast. subst es. simpl in Hlen. lia. }
  pose proof (deck_parse_spec lines loc N icr ico es rt rhot Hhd Hrows HN Hlast)
    as Hp.
  do 2 eexists. split; [exact Hp|]. cbn [v_i_core v_i_crust v_i_lith].
  split; [apply marker_unmatched|]. split; [apply marker_unmatched|]. split.
  - intros Hcrust d il' Hloc. unfold deck_model. rewrite Hp, bind_Ok. cbn match.
    cbn [p_radius p_rho p_n p_r0 v_i_lith] in Hloc |- *.
    rewrite Hloc, bind_Ok. cbn [set_i_lith v_i_crust]. by rewrite Hcrust.
  - intros d il' ic Hloc Hcrust.
    cbn [p_radius p_rho p_n p_r0 v_i_lith] in Hloc |- *.
    split.
    + intros e He.
      assert (e = IndexError) as ->.
      { unfold py_get in He. destruct (py_pos _ _) as [k|]; [|congruence].
        destruct (_ !! k); congruence. }
      split; [done|]. unfold deck_model. rewrite Hp, bind_Ok. cbn match.
      cbn [p_radius p_rho p_n p_r0 v_i_lith].
      rewrite Hloc, bind_Ok. cbn [set_i_lith v_i_crust]. rewrite Hcrust.
      cbn [read_var]. by rewrite bind_Ok, He.
    + intros x Hx Hcore. unfold deck_model. rewrite Hp, bind_Ok. cbn match.
      cbn [p_radius p_rho p_n p_r0 v_i_lith].
      rewrite Hloc, bind_Ok. cbn [set_i_lith v_i_crust v_i_core]. rewrite Hcrust.
      cbn [read_var]. by rewrite bind_Ok, Hx, bind_Ok, Hcore.
Qed.

End Markers.

Lemma unmatched_markers_keep_binding_witness :
  (∃ p loc1,
     @deck_parse literal_builtins unmarked_deck unbound = Ok (p, loc1)
     ∧ v_i_core loc1 = None ∧ v_i_crust loc1 = None
     ∧ @deck_model literal_builtins index_stub 500 unmarked_deck unbound
       = Raise UnboundLocalError)
  ∧ @deck_model literal_builtins index_stub 500 unmarked_deck
      (mkLocals None None (Some 100) None)
    = Raise IndexError
  ∧ @deck_model literal_builtins index_stub 500 unmarked_deck
      (mkLocals None None (Some 1) None)
    = Raise UnboundLocalError.
Proof.
  split; [|split].
  - destruct (@unmatched_markers_keep_binding literal_builtins index_stub
                unmarked_deck unbound 6 2 0
                [(0, 8000); (1000, 7000); (1000, 4000); (2000, 3000);
                 (2000, 2900); (3000, 2800)]%float eq_refl eq_refl)
      as (p & loc1 & Hp & Hcore & Hcrust & Hmodel & _); [lia|].
    exists p, loc1. split; [exact Hp|].
    pose proof (Hcore eq_refl) as Hc1. pose proof (Hcrust eq_refl) as Hc2.
    split; [exact Hc1|]. split; [exact Hc2|].
    assert (Hpq : Ok (p, loc1)
      = Ok (mkProfile [0; 1000; 2000; 3000]%float [7500; 3500; 2850; 0]%float 3
              3000%float, mkLocals (Some 3000%float) None None None)).
    { rewrite <- Hp. reflexivity. }
    injection Hpq as -> ->.
    exact (Hmodel eq_refl 500%float (Some 2) eq_refl).
  - destruct (@unmatched_markers_keep_binding literal_builtins index_stub
                unmarked_deck (mkLocals None None (Some 100) None) 6 2 0
                [(0, 8000); (1000, 7000); (1000, 4000); (2000, 3000);
                 (2000, 2900); (3000, 2800)]%float eq_refl eq_refl)
      as (p & loc1 & Hp & _ & _ & _ & Hread); [lia|].
    assert (Hpq : Ok (p, loc1)
      = Ok (mkProfile [0; 1000; 2000; 3000]%float [7500; 3500; 2850; 0]%float 3
              3000%float, mkLocals (Some 3000%float) None (Some 100) None)).
    { rewrite <- Hp. reflexivity. }
    injection Hpq as -> ->.
    exact (proj2 (proj1 (Hread 500%float (Some 2) 100 eq_refl eq_refl)
                    IndexError eq_refl)).
  - destruct (@unmatched_markers_keep_binding literal_builtins index_stub
                unmarked_deck (mkLocals None None (Some 1) None) 6 2 0
                [(0, 8000); (1000, 7000); (1000, 4000); (2000, 3000);
                 (2000, 2900); (3000, 2800)]%float eq_refl eq_refl)
      as (p & loc1 & Hp & _ & _ & _ & Hread); [lia|].
    assert (Hpq : Ok (p, loc1)
      = Ok (mkProfile [0; 1000; 2000; 3000]%float [7500; 3500; 2850; 0]%float 3
              3000%float, mkLocals (Some 3000%float) None (Some 1) None)).
    { rewrite <- Hp. reflexivity. }
    injection Hpq as -> ->.
    exact (proj2 (Hread 500%float (Some 2) 1 eq_refl eq_refl)
             7500%float eq_refl eq_refl).
Defined.

(** ** The polynomial flag *)

Lemma quiet_Ok {A} (a : A) : quiet (Ok a).
Proof. done. Qed.

Lemma quiet_bind {A B} (m : result A) (f : A → result B) :
  quiet m → (∀ a, quiet (f a)) → quiet (m ≫= f).
Proof.
  intros Hm Hf. destruct m as [a|e]; [apply Hf|].
  unfold quiet in *. rewrite bind_Raise. intros [= ->]. by apply Hm.
Qed.

Lemma quiet_py_get {A} (l : list A) (i : Z) : quiet (py_get l i).
Proof. unfold py_get. destruct (py_pos _ _); [|done]. by destruct (l !! _). Qed.

Lemma quiet_py_set {A} (l : list A) (i : Z) (v : A) : quiet (py_set l i v).
Proof. unfold py_set. by destruct (py_pos _ _). Qed.

Lemma quiet_convert {A} (v : option A) : quiet (convert v).
Proof. by destruct v. Qed.

Lemma quiet_read_var {A} (v : option A) : quiet (read_var v).
Proof. by destruct v. Qed.

Lemma quiet_np_zeros (n : Z) : quiet (np_zeros n).
Proof. unfold np_zeros. by destruct (n <? 0). Qed.

Lemma quiet_for_range {S} (body : Z → S → result S) (lo : Z) (k : nat) (s : S) :
  (∀ i s, quiet (body i s)) → quiet (for_range body lo k s).
Proof.
  intros Hb. revert lo s. induction k as [|k IH]; intros lo s; [apply quiet_Ok|].
  rewrite for_range_S. apply quiet_bind; auto.
Qed.

Lemma quiet_for_break {S} (body : Z → S → result (flow S)) (lo : Z) (k : nat)
    (s : S) :
  (∀ i s, quiet (body i s)) → quiet (for_break body lo k s).
Proof.
  intros Hb. revert lo s. induction k as [|k IH]; intros lo s; [apply quiet_Ok|].
  cbn [for_break]. apply quiet_bind; [done|].
  intros [s'|s']; [apply IH|apply quiet_Ok].
Qed.

(** Goals of the form [quiet (...)] over sequences of quiet steps. *)
Ltac quiet_steps :=
  repeat first
    [ apply quiet_Ok | apply quiet_py_get | apply quiet_py_set
    | apply quiet_convert | apply quiet_read_var | apply quiet_np_zeros
    | apply quiet_bind; [|intros ?]
    | match goal with
      | |- quiet (let '(_, _) := ?x in _) => destruct x
      | |- quiet (if ?b then _ else _) => destruct b
      end ].

Lemma quiet_locate (rs : list float) (r0 d : float) (n : Z) (il : option Z) :
  quiet (locate rs r0 d n il).
Proof.
  unfold locate. apply quiet_for_break. intros i s. unfold locate_step.
  quiet_steps.
Qed.

Section Flag.
Context `{Builtins} `{Collaborator}.

Lemma quiet_read_row (lines : list string) (j : Z) : quiet (read_row lines j).
Proof. unfold read_row. quiet_steps. Qed.

Lemma quiet_deck_step (lines : list string) (ico icr i : Z) (st : DeckState) :
  quiet (deck_step lines ico icr i st).
Proof.
  unfold deck_step. apply quiet_bind; [apply quiet_read_row|]. intros [rb rhob].
  apply quiet_bind; [apply quiet_read_row|]. intros [rt rhot].
  quiet_steps.
Qed.

(** The header up to the flag test, on a deck whose flag field reads as
    [flag]. *)
Lemma deck_header_flag (lines : list string) (l1 s : string) (flag : float) :
  lines !! 1%nat = Some l1 → split l1 !! 2%nat = Some s →
  py_float s = Some flag →
  deck_header lines
  = if negb (PrimFloat.eqb flag 1) then Raise RuntimeError else
      l2 ← py_get lines 2;
      s ← py_get (split l2) 0;
      num_file ← convert (py_int s);
      s ← py_get (split l2) 3;
      crust_index_file ← convert (py_int s);
      s ← py_get (split l2) 2;
      core_index_file ← convert (py_int s);
      Ok (num_file, crust_index_file - 1, core_index_file - 1).
Proof.
  intros H1 H2 Hf. unfold deck_header.
  destruct (lookup_lt_is_Some_2 lines 0) as [l0 H0'].
  { apply lookup_lt_Some in H1. lia. }
  assert (G0 : py_get lines 0 = Ok l0) by exact (py_get_nat lines 0 l0 H0').
  assert (G1 : py_get lines 1 = Ok l1) by exact (py_get_nat lines 1 l1 H1).
  assert (G2 : py_get (split l1) 2 = Ok s) by exact (py_get_nat (split l1) 2 s H2).
  by rewrite G0, bind_Ok, G1, bind_Ok, G2, bind_Ok, Hf.
Qed.

Lemma deck_batch_app (d : float) (pre rest : list (list string))
    (loc loc1 : Locals) (rs : list Report) :
  deck_batch d pre loc = (rs, Ok loc1) →
  deck_batch d (pre ++ rest) loc
  = (rs ++ (deck_batch d rest loc1).1, (deck_batch d rest loc1).2).
Proof.
  revert loc rs. induction pre as [|f pre IH]; intros loc rs Hb.
  - simpl in Hb. injection Hb as <- <-. simpl. by destruct (deck_batch d rest loc).
  - simpl in Hb |- *. destruct (deck_model d f loc) as [[r loc']|e]; [|done].
    destruct (deck_batch d pre loc') as [rs' out] eqn:Hpre.
    injection Hb as <- ->. by rewrite (IH loc' rs' Hpre).
Qed.

(** C6. A deck whose flag field (line 1, field 2) reads as a number other
    than 1 makes the reader raise the [RuntimeError] of line 64 (the
    unsupported-format error); the batch stops there, with the reports of
    the models before it and none after, and [main] evaluates no tabulated
    model.  A deck whose flag equals 1 never ends in that error. *)
Theorem polynomial_flag_fail_fast (lines : list string) (l1 s : string)
    (flag : float) :
  lines !! 1%nat = Some l1 → split l1 !! 2%nat = Some s →
  py_float s = Some flag →
  (PrimFloat.eqb flag 1 = false →
     ∀ d loc,
       deck_parse lines loc = Raise RuntimeError
       ∧ deck_model d lines loc = Raise RuntimeError
       ∧ ∀ pre post rs loc0,
           deck_batch d pre loc0 = (rs, Ok loc) →
           deck_batch d (pre ++ lines :: post) loc0 = (rs, Raise RuntimeError))
  ∧ (PrimFloat.eqb flag 1 = false →
       ∀ pre post models rs loc,
         deck_batch 150000 pre unbound = (rs, Ok loc) →
         main (pre ++ lines :: post) models = (rs, [], Raise RuntimeError))
  ∧ (PrimFloat.eqb flag 1 = true →
       ∀ d loc,
         deck_parse lines loc ≠ Raise RuntimeError
         ∧ deck_model d lines loc ≠ Raise RuntimeError).
Proof.
  intros H1 H2 Hf.
  pose proof (deck_header_flag lines l1 s flag H1 H2 Hf) as Hhd.
  assert (Hbad : PrimFloat.eqb flag 1 = false →
    ∀ d loc, deck_parse lines loc = Raise RuntimeError
             ∧ deck_model d lines loc = Raise RuntimeError
             ∧ ∀ pre post rs loc0,
                 deck_batch d pre loc0 = (rs, Ok loc) →
                 deck_batch d (pre ++ lines :: post) loc0 = (rs, Raise RuntimeError)).
  { intros Hflag d loc. rewrite Hflag in Hhd. cbn in Hhd.
    assert (Hp : deck_parse lines loc = Raise RuntimeError).
    { unfold deck_parse. by rewrite Hhd. }
    assert (Hm : deck_model d lines loc = Raise RuntimeError).
    { unfold deck_model. by rewrite Hp. }
    split; [done|]. split; [done|].
    intros pre post rs loc0 Hpre.
    rewrite (deck_batch_app d pre (lines :: post) loc0 loc rs Hpre).
    cbn [deck_batch]. rewrite Hm. cbn [fst snd]. by rewrite app_nil_r. }
  split; [done|]. split.
  - intros Hflag pre post models rs loc Hpre.
    destruct (Hbad Hflag 150000%float loc) as (_ & _ & Hbatch).
    unfold main. by rewrite (Hbatch pre post rs unbound Hpre).
  - intros Hflag d loc. rewrite Hflag in Hhd. cbn [negb] in Hhd.
    assert (Hq : quiet (deck_parse lines loc)).
    { unfold deck_parse. rewrite Hhd.
      apply quiet_bind; [quiet_steps|]. intros [[N icr] ico].
      apply quiet_bind; [apply quiet_np_zeros|]. intros radius0.
      apply quiet_bind; [apply quiet_np_zeros|]. intros rho0.
      apply quiet_bind.
      { apply quiet_for_range. intros i st. apply quiet_deck_step. }
      intros st. quiet_steps. }
    split; [exact Hq|].
    unfold deck_model. apply quiet_bind; [exact Hq|]. intros [p loc1].
    apply quiet_bind; [apply quiet_locate|]. intros il'. quiet_steps.
Qed.

End Flag.

Lemma polynomial_flag_fail_fast_witness :
  (@deck_parse literal_builtins polynomial_deck unbound = Raise RuntimeError
   ∧ @deck_model literal_builtins index_stub 500 polynomial_deck unbound
     = Raise RuntimeError
   ∧ @deck_batch literal_builtins index_stub 500
       ([marked_deck] ++ polynomial_deck :: [minimal_deck]) unbound
     = ((@deck_batch literal_builtins index_stub 500 [marked_deck] unbound).1,
        Raise RuntimeError))
  ∧ @main literal_builtins index_stub ([] ++ polynomial_deck :: [minimal_deck])
      [("a.dat", deep_table)]%string
    = ([], [], Raise RuntimeError)
  ∧ (@deck_parse literal_builtins minimal_deck unbound ≠ Raise RuntimeError
     ∧ @deck_model literal_builtins index_stub 500 minimal_deck unbound
       ≠ Raise RuntimeError).
Proof.
  split; [|split].
  - pose proof (proj1 (@polynomial_flag_fail_fast literal_builtins index_stub
             polynomial_deck "0 0 0" "0" 0%float eq_refl eq_refl eq_refl)
             eq_refl 500%float) as Hbad.
    split; [exact (proj1 (Hbad unbound))|].
    split; [exact (proj1 (proj2 (Hbad unbound)))|].
    exact (proj2 (proj2 (Hbad (mkLocals (Some 3000%float) (Some 1) (Some 2) (Some 2))))
             [marked_deck] [minimal_deck]
             (@deck_batch literal_builtins index_stub 500 [marked_deck] unbound).1
             unbound eq_refl).
  - exact (proj1 (proj2 (@polynomial_flag_fail_fast literal_builtins index_stub
             polynomial_deck "0 0 0" "0" 0%float eq_refl eq_refl eq_refl))
             eq_refl [] [minimal_deck] [("a.dat", deep_table)]%string [] unbound
             eq_refl).
  - exact (proj2 (proj2 (@polynomial_flag_fail_fast literal_builtins index_stub
             minimal_deck "0 0 1" "1" 1%float eq_refl eq_refl eq_refl))
             eq_refl 500%float unbound).
Defined.

(** ** The reported minimum and maximum *)

(** C7, as stated, fails in three ways.  The pair starts from [(100, 0)],
    so a batch whose only percentage is 150 reports a minimum of 100.  Two
    tables whose percentages are the two zeros report, in their two orders,
    minima that compare equal and are not the same number.  And a table
    without a bracketing pair is evaluated at the shell index of the table
    read before it, so that the same three tables give the percentages
    50, 0, 25 and the pair [(0, 50)] in one order, and 25, 75, 50 and the
    pair [(25, 75)] in another. *)
Lemma minmax_sentinel_sign_order :
  (percent <$> (@main literal_builtins density_stub []
                  [("a.dat", table_150)]%string).1.2
   = [150%float]
   ∧ (@main literal_builtins density_stub [] [("a.dat", table_150)]%string).2
     = Ok (100%float, 150%float))
  ∧ (percent <$> (@main literal_builtins signed_zero_stub []
                    [("a.dat", table_first_1); ("b.dat", table_first_2)]%string).1.2
     = [(-0)%float; 0%float]
     ∧ (@main literal_builtins signed_zero_stub []
          [("a.dat", table_first_1); ("b.dat", table_first_2)]%string).2
       = Ok ((-0)%float, 0%float)
     ∧ percent <$> (@main literal_builtins signed_zero_stub []
                      [("a.dat", table_first_2); ("b.dat", table_first_1)]%string).1.2
       = [0%float; (-0)%float]
     ∧ (@main literal_builtins signed_zero_stub []
          [("a.dat", table_first_2); ("b.dat", table_first_1)]%string).2
       = Ok (0%float, 0%float)
     ∧ PrimFloat.eqb (-0) 0 = true ∧ (-0)%float ≠ 0%float)
  ∧ (percent <$> (@main literal_builtins shell_density_stub []
                    [("a.dat", table_shell_2); ("b.dat", table_no_shell);
                     ("c.dat", table_shell_1)]%string).1.2
     = [50; 0; 25]%float
     ∧ (@main literal_builtins shell_density_stub []
          [("a.dat", table_shell_2); ("b.dat", table_no_shell);
           ("c.dat", table_shell_1)]%string).2
       = Ok (0%float, 50%float)
     ∧ percent <$> (@main literal_builtins shell_density_stub []
                      [("a.dat", table_shell_1); ("b.dat", table_no_shell);
                       ("c.dat", table_shell_2)]%string).1.2
       = [25; 75; 50]%float
     ∧ (@main literal_builtins shell_density_stub []
          [("a.dat", table_shell_1); ("b.dat", table_no_shell);
           ("c.dat", table_shell_2)]%string).2
       = Ok (25%float, 75%float)).
Proof.
  split; [split; reflexivity|]. split.
  - repeat (split; [reflexivity|]). intros E.
    apply (f_equal PrimFloat.classify) in E. vm_compute in E. discriminate E.
  - repeat split; reflexivity.
Qed.

(** The running minimum from a start [m0] that is a number: it is the
    start or one of the percentages, it is a number, it does not exceed the
    start, and no percentage lies strictly below it. *)
Lemma running_min_spec (ps : list float) (m0 : float) :
  PrimFloat.eqb m0 m0 = true →
  let m := fold_left update_pmin ps m0 in
  m ∈ m0 :: ps ∧ PrimFloat.eqb m m = true ∧ PrimFloat.leb m m0 = true
  ∧ ∀ p, p ∈ ps → PrimFloat.ltb p m = false.
Proof.
  revert m0. induction ps as [|p ps IH]; intros m0 Hm0; simpl.
  - split; [apply elem_of_cons; by left|]. split; [done|].
    split; [by apply F64.eqb_leb|].
    intros p Hp. by apply elem_of_nil in Hp.
  - assert (Hm1 : PrimFloat.eqb (update_pmin m0 p) (update_pmin m0 p) = true).
    { unfold update_pmin. destruct (PrimFloat.ltb p m0) eqn:Hlt; [|done].
      by apply (F64.ltb_refl_l p m0). }
    assert (Hle1 : PrimFloat.leb (update_pmin m0 p) m0 = true).
    { unfold update_pmin. destruct (PrimFloat.ltb p m0) eqn:Hlt.
      - by apply F64.ltb_leb.
      - by apply F64.eqb_leb. }
    destruct (IH _ Hm1) as (Hin & Hrefl & Hle & Hlow).
    set (m := fold_left update_pmin ps (update_pmin m0 p)) in *.
    split; [|split; [done|split]].
    + apply elem_of_cons in Hin as [Hin|Hin].
      * rewrite Hin. unfold update_pmin. rewrite !elem_of_cons.
        destruct (PrimFloat.ltb p m0); auto.
      * rewrite !elem_of_cons. auto.
    + by apply (F64.leb_trans _ (update_pmin m0 p)).
    + intros q Hq. apply elem_of_cons in Hq as [->|Hq]; [|by apply Hlow].
      destruct (PrimFloat.ltb p m) eqn:Hpm; [|done]. exfalso.
      unfold update_pmin in Hle. destruct (PrimFloat.ltb p m0) eqn:Hlt.
      * apply F64.leb_not_ltb in Hle. congruence.
      * pose proof (F64.ltb_leb_trans _ _ _ Hpm Hle). congruence.
Qed.

Lemma running_max_spec (ps : list float) (m0 : float) :
  PrimFloat.eqb m0 m0 = true →
  let m := fold_left update_pmax ps m0 in
  m ∈ m0 :: ps ∧ PrimFloat.eqb m m = true ∧ PrimFloat.leb m0 m = true
  ∧ ∀ p, p ∈ ps → PrimFloat.ltb m p = false.
Proof.
  revert m0. induction ps as [|p ps IH]; intros m0 Hm0; simpl.
  - split; [apply elem_of_cons; by left|]. split; [done|].
    split; [by apply F64.eqb_leb|].
    intros p Hp. by apply elem_of_nil in Hp.
  - assert (Hm1 : PrimFloat.eqb (update_pmax m0 p) (update_pmax m0 p) = true).
    { unfold update_pmax. destruct (PrimFloat.ltb m0 p) eqn:Hlt; [|done].
      by apply (F64.ltb_refl_r m0 p). }
    assert (Hle1 : PrimFloat.leb m0 (update_pmax m0 p) = true).
    { unfold update_pmax. destruct (PrimFloat.ltb m0 p) eqn:Hlt.
      - by apply F64.ltb_leb.
      - by apply F64.eqb_leb. }
    destruct (IH _ Hm1) as (Hin & Hrefl & Hle & Hlow).
    set (m := fold_left update_pmax ps (update_pmax m0 p)) in *.
    split; [|split; [done|split]].
    + apply elem_of_cons in Hin as [Hin|Hin].
      * rewrite Hin. unfold update_pmax. rewrite !elem_of_cons.
        destruct (PrimFloat.ltb m0 p); auto.
      * rewrite !elem_of_cons. auto.
    + by apply (F64.leb_trans _ (update_pmax m0 p)).
    + intros q Hq. apply elem_of_cons in Hq as [->|Hq]; [|by apply Hlow].
      destruct (PrimFloat.ltb m p) eqn:Hpm; [|done]. exfalso.
      unfold update_pmax in Hle. destruct (PrimFloat.ltb m0 p) eqn:Hlt.
      * apply F64.leb_not_ltb in Hle. congruence.
      * pose proof (F64.leb_ltb_trans _ _ _ Hle Hpm). congruence.
Qed.

(** Two orders of the same percentages give minima that compare equal. *)
Lemma running_min_perm (ps ps' : list float) (m0 : float) :
  PrimFloat.eqb m0 m0 = true → ps ≡ₚ ps' →
  PrimFloat.eqb (fold_left update_pmin ps' m0) (fold_left update_pmin ps m0) = true.
Proof.
  intros Hm0 Hperm.
  destruct (running_min_spec ps m0 Hm0) as (Hin & Hr & Hle & Hlow).
  destruct (running_min_spec ps' m0 Hm0) as (Hin' & Hr' & Hle' & Hlow').
  set (m := fold_left update_pmin ps m0) in *.
  set (m' := fold_left update_pmin ps' m0) in *.
  assert (H1 : PrimFloat.leb m' m = true).
  { apply elem_of_cons in Hin as [->|Hin]; [done|].
    apply F64.ltb_total; [done..|]. apply Hlow'. by rewrite <- Hperm. }
  assert (H2 : PrimFloat.leb m m' = true).
  { apply elem_of_cons in Hin' as [->|Hin']; [done|].
    apply F64.ltb_total; [done..|]. apply Hlow. by rewrite Hperm. }
  by apply F64.leb_antisym.
Qed.

Lemma running_max_perm (ps ps' : list float) (m0 : float) :
  PrimFloat.eqb m0 m0 = true → ps ≡ₚ ps' →
  PrimFloat.eqb (fold_left update_pmax ps' m0) (fold_left update_pmax ps m0) = true.
Proof.
  intros Hm0 Hperm.
  destruct (running_max_spec ps m0 Hm0) as (Hin & Hr & Hle & Hlow).
  destruct (running_max_spec ps' m0 Hm0) as (Hin' & Hr' & Hle' & Hlow').
  set (m := fold_left update_pmax ps m0) in *.
  set (m' := fold_left update_pmax ps' m0) in *.
  assert (H1 : PrimFloat.leb m m' = true).
  { apply elem_of_cons in Hin as [->|Hin]; [done|].
    apply F64.ltb_total; [done..|]. apply Hlow'. by rewrite <- Hperm. }
  assert (H2 : PrimFloat.leb m' m = true).
  { apply elem_of_cons in Hin' as [->|Hin']; [done|].
    apply F64.ltb_total; [done..|]. apply Hlow. by rewrite Hperm. }
  by apply F64.leb_antisym.
Qed.

Section MinMax.
Context `{Builtins} `{Collaborator}.

(** The pair a batch ends with is the running pair over the percentages
    of its reports. *)
Lemma tab_batch_aggregate (d : float) (models : list (string * list string))
    (loc loc' : Locals) (pmin pmax : float) (rs : list Report) (mm : float * float) :
  tab_batch d models loc pmin pmax = (rs, Ok (loc', mm)) →
  mm = aggregate (percent <$> rs) pmin pmax.
Proof.
  revert loc pmin pmax rs.
  induction models as [|[file lines] models IH]; intros loc pmin pmax rs Hb.
  - simpl in Hb. by injection Hb as <- <- <-.
  - cbn [tab_batch] in Hb.
    destruct (negb (String.eqb (splitext_ext file) ".dat")); [by apply (IH loc)|].
    destruct (tab_model d lines loc) as [[r loc1]|e]; [|done].
    destruct (tab_batch d models loc1 (update_pmin pmin (percent r))
                (update_pmax pmax (percent r))) as [rs' out] eqn:Hrest.
    injection Hb as <- ->. by apply IH in Hrest.
Qed.

(** C7, amended.  The reported minimum is the least of 100 and the
    percentages, and the reported maximum the greatest of 0 and the
    percentages: each is the start value or one of the percentages, and no
    percentage lies strictly below the minimum or strictly above the
    maximum.  When some percentage is at most 100 the minimum equals a
    percentage, and when some percentage is at least 0 the maximum equals a
    percentage.  Every order of the same percentages gives a pair that
    compares equal to the reported one, and the percentages 10, 55, 80 give
    [(10, 80)] in each of their orders. *)
Theorem minmax_of_batch (d : float) (models : list (string * list string))
    (loc loc' : Locals) (rs : list Report) (lo hi : float) :
  tab_batch d models loc 100 0 = (rs, Ok (loc', (lo, hi))) →
  (lo, hi) = aggregate (percent <$> rs) 100 0
  ∧ (lo ∈ 100%float :: (percent <$> rs)
     ∧ ∀ p, p ∈ percent <$> rs → PrimFloat.ltb p lo = false)
  ∧ (hi ∈ 0%float :: (percent <$> rs)
     ∧ ∀ p, p ∈ percent <$> rs → PrimFloat.ltb hi p = false)
  ∧ ((∃ p, p ∈ percent <$> rs ∧ PrimFloat.leb p 100 = true) →
       ∃ q, q ∈ percent <$> rs ∧ PrimFloat.eqb lo q = true)
  ∧ ((∃ p, p ∈ percent <$> rs ∧ PrimFloat.leb 0 p = true) →
       ∃ q, q ∈ percent <$> rs ∧ PrimFloat.eqb hi q = true)
  ∧ (∀ ps', percent <$> rs ≡ₚ ps' →
       PrimFloat.eqb (aggregate ps' 100 0).1 lo = true
       ∧ PrimFloat.eqb (aggregate ps' 100 0).2 hi = true)
  ∧ Forall (λ ps', aggregate ps' 100 0 = (10, 80)%float)
      (permutations [10; 55; 80]%float).
Proof.
  intros Hb. apply tab_batch_aggregate in Hb. unfold aggregate in Hb.
  injection Hb as Hlo Hhi.
  set (ps := percent <$> rs) in *.
  destruct (running_min_spec ps 100 eq_refl) as (Hin & Hr & Hle & Hlow).
  destruct (running_max_spec ps 0 eq_refl) as (Hin' & Hr' & Hle' & Hlow').
  rewrite <- Hlo in Hin, Hr, Hle, Hlow. rewrite <- Hhi in Hin', Hr', Hle', Hlow'.
  split; [unfold aggregate; congruence|].
  split; [done|]. split; [done|]. split; [|split; [|split]].
  - intros (p & Hp & Hp100).
    apply elem_of_cons in Hin as [->|Hin]; [|by exists lo].
    exists p. split; [done|]. rewrite F64.eqb_sym.
    apply F64.leb_nlt_eqb; [done|]. by apply Hlow.
  - intros (p & Hp & Hp0).
    apply elem_of_cons in Hin' as [->|Hin']; [|by exists hi].
    exists p. split; [done|]. apply F64.leb_nlt_eqb; [done|]. by apply Hlow'.
  - intros ps' Hperm. unfold aggregate. cbn [fst snd]. rewrite Hlo, Hhi.
    split; [by apply running_min_perm|by apply running_max_perm].
  - vm_compute. repeat constructor.
Qed.

End MinMax.

Lemma minmax_of_batch_witness :
  (10, 80)%float
  = aggregate (percent <$> (@tab_batch literal_builtins density_stub 150000
       [("a.dat", table_80); ("notes.txt", []); ("b.dat", table_10)]%string
       unbound 100 0).1)
      100 0
  ∧ (∃ q, q ∈ percent <$> (@tab_batch literal_builtins density_stub 150000
            [("a.dat", table_80); ("notes.txt", []); ("b.dat", table_10)]%string
            unbound 100 0).1
          ∧ PrimFloat.eqb 10 q = true).
Proof.
  pose proof (@minmax_of_batch literal_builtins density_stub 150000
    [("a.dat", table_80); ("notes.txt", []); ("b.dat", table_10)]%string unbound
    (mkLocals None None None (Some 2))
    (@tab_batch literal_builtins density_stub 150000
       [("a.dat", table_80); ("notes.txt", []); ("b.dat", table_10)]%string
       unbound 100 0).1
    10%float 80%float eq_refl) as (Hagg & _ & _ & Hmin & _).
  split; [exact Hagg|]. apply Hmin.
  exists 80%float. split; [|reflexivity].
  apply elem_of_cons. left. reflexivity.
Defined.

(** ** What a scan that returns has done *)

Lemma first_index_None (P : nat → bool) (lo n : nat) :
  first_index P lo n = None → ∀ j, (lo ≤ j < lo + n)%nat → P j = false.
Proof.
  revert lo. induction n as [|n IH]; intros lo Hf j Hj; [lia|].
  simpl in Hf. destruct (P lo) eqn:Hlo; [done|].
  destruct (decide (j = lo)) as [->|Hne]; [done|].
  apply (IH (S lo)); [done|lia].
Qed.

Lemma first_index_Some (P : nat → bool) (lo n i : nat) :
  first_index P lo n = Some i →
  (lo ≤ i < lo + n)%nat ∧ P i = true ∧ ∀ j, (lo ≤ j < i)%nat → P j = false.
Proof.
  revert lo. induction n as [|n IH]; intros lo Hf; [done|].
  simpl in Hf. destruct (P lo) eqn:Hlo.
  - injection Hf as <-. split; [lia|]. split; [done|]. intros j Hj. lia.
  - destruct (IH (S lo) Hf) as (Hi & HP & Hlow).
    split; [lia|]. split; [done|]. intros j Hj.
    destruct (decide (j = lo)) as [->|Hne]; [done|]. apply Hlow. lia.
Qed.

Lemma bracket_range (rs : list float) (t : float) (i : nat) :
  bracket rs t i = true → (S i < length rs)%nat.
Proof.
  unfold bracket. destruct (rs !! i); [|done].
  destruct (rs !! S i) eqn:Hb; [|done]. intros _. by eapply lookup_lt_Some.
Qed.

Lemma locate_nil (r0 d : float) (il : option Z) : locate [] r0 d 0 il = Ok il.
Proof. reflexivity. Qed.

(** The outcome of the scan, by the first bracketing pair. *)
Lemma locate_outcome (rs : list float) (r0 d : float) (il : option Z) :
  locate rs r0 d (Z.of_nat (length rs)) il
  = match first_index (bracket rs (r0 - d)) 0 (length rs) with
    | Some i =>
        match rs !! i, rs !! S i with
        | Some a, Some b => Ok (Some (resolve a b (r0 - d) (Z.of_nat i)))
        | _, _ => Ok il
        end
    | None =>
        match last rs with
        | Some rl => if PrimFloat.leb rl (r0 - d) then Raise IndexError else Ok il
        | None => Ok il
        end
    end.
Proof.
  destruct (first_index (bracket rs (r0 - d)) 0 (length rs)) as [i|] eqn:Hf.
  - apply first_index_Some in Hf as (Hi & Hb & Hlow).
    pose proof (bracket_range _ _ _ Hb) as Hr.
    destruct (lookup_lt_is_Some_2 rs i) as [a Ha]; [lia|].
    destruct (lookup_lt_is_Some_2 rs (S i)) as [b Hb']; [lia|].
    rewrite Ha, Hb'. apply locate_first; [done..|].
    intros j Hj. apply Hlow. lia.
  - pose proof (first_index_None _ _ _ Hf) as Hnone.
    assert (Hnb : ∀ j, bracket rs (r0 - d) j = false).
    { intros j. destruct (decide (j < length rs)%nat) as [Hj|Hj].
      - apply Hnone. lia.
      - destruct (bracket rs (r0 - d) j) eqn:Hb; [|done].
        apply bracket_range in Hb. lia. }
    destruct (last rs) as [rl|] eqn:Hlast.
    + by apply locate_no_bracket.
    + apply last_None in Hlast. by subst rs.
Qed.

(** X1. A scan that returns has either found no bracketing pair and left
    the shell index as it was, or bound it to [i] or [i+1] for the first
    bracketing pair [(i, i+1)]: an index of a row of the profile. *)
Theorem scan_result_in_range (rs : list float) (r0 d : float) (il il' : option Z) :
  locate rs r0 d (Z.of_nat (length rs)) il = Ok il' →
  (il' = il ∧ ∀ j, bracket rs (r0 - d) j = false)
  ∨ ∃ (i : nat) (k : Z) (x : float),
      bracket rs (r0 - d) i = true
      ∧ (∀ j, (j < i)%nat → bracket rs (r0 - d) j = false)
      ∧ il' = Some k ∧ (k = Z.of_nat i ∨ k = Z.of_nat i + 1)
      ∧ py_get rs k = Ok x.
Proof.
  rewrite locate_outcome.
  destruct (first_index (bracket rs (r0 - d)) 0 (length rs)) as [i|] eqn:Hf.
  - apply first_index_Some in Hf as (Hi & Hb & Hlow).
    pose proof (bracket_range _ _ _ Hb) as Hr.
    destruct (lookup_lt_is_Some_2 rs i) as [a Ha]; [lia|].
    destruct (lookup_lt_is_Some_2 rs (S i)) as [b Hb']; [lia|].
    rewrite Ha, Hb'. intros [= <-]. right.
    assert (Hk : ∃ x, py_get rs (resolve a b (r0 - d) (Z.of_nat i)) = Ok x
                 ∧ (resolve a b (r0 - d) (Z.of_nat i) = Z.of_nat i
                    ∨ resolve a b (r0 - d) (Z.of_nat i) = Z.of_nat i + 1)).
    { unfold resolve. destruct (PrimFloat.eqb a (r0 - d)).
      - exists a. split; [by apply py_get_nat|by left].
      - destruct (PrimFloat.leb _ _).
        + exists a. split; [by apply py_get_nat|by left].
        + exists b. split; [|by right].
          replace (Z.of_nat i + 1) with (Z.of_nat (S i)) by lia.
          by apply py_get_nat. }
    destruct Hk as (x & Hx & Hk).
    exists i, (resolve a b (r0 - d) (Z.of_nat i)), x.
    repeat split; try done. intros j Hj. apply Hlow. lia.
  - pose proof (first_index_None _ _ _ Hf) as Hnone.
    assert (Hnb : ∀ j, bracket rs (r0 - d) j = false).
    { intros j. destruct (decide (j < length rs)%nat) as [Hj|Hj].
      - apply Hnone. lia.
      - destruct (bracket rs (r0 - d) j) eqn:Hb; [|done].
        apply bracket_range in Hb. lia. }
    destruct (last rs) as [rl|].
    + destruct (PrimFloat.leb rl (r0 - d)); [done|]. intros [= <-]. by left.
    + intros [= <-]. by left.
Qed.

Lemma scan_result_in_range_witness :
  (Some 1 = None ∧ ∀ j, bracket [0; 10; 20; 30]%float (30 - 15) j = false)
  ∨ ∃ (i : nat) (k : Z) (x : float),
      bracket [0; 10; 20; 30]%float (30 - 15) i = true
      ∧ (∀ j, (j < i)%nat → bracket [0; 10; 20; 30]%float (30 - 15) j = false)
      ∧ Some 1 = Some k ∧ (k = Z.of_nat i ∨ k = Z.of_nat i + 1)
      ∧ py_get [0; 10; 20; 30]%float k = Ok x.
Proof.
  exact (scan_result_in_range [0; 10; 20; 30]%float 30 15 None (Some 1) eq_refl).
Defined.

(** X2. The scan fails in one way only: with [IndexError], when no pair
    brackets the target and the last radius does not exceed it, on reading
    the row after the last. *)
Theorem scan_fails_only_past_the_end (rs : list float) (r0 d : float)
    (il : option Z) (e : exn) :
  locate rs r0 d (Z.of_nat (length rs)) il = Raise e →
  e = IndexError
  ∧ (∀ j, bracket rs (r0 - d) j = false)
  ∧ ∃ rl, last rs = Some rl ∧ PrimFloat.leb rl (r0 - d) = true
          ∧ py_get rs (Z.of_nat (length rs)) = Raise IndexError.
Proof.
  rewrite locate_outcome.
  destruct (first_index (bracket rs (r0 - d)) 0 (length rs)) as [i|] eqn:Hf.
  - by destruct (rs !! i), (rs !! S i).
  - pose proof (first_index_None _ _ _ Hf) as Hnone.
    destruct (last rs) as [rl|]; [|done].
    destruct (PrimFloat.leb rl (r0 - d)) eqn:Hg; [|done]. intros [= <-].
    split; [done|]. split.
    + intros j. destruct (decide (j < length rs)%nat) as [Hj|Hj].
      * apply Hnone. lia.
      * destruct (bracket rs (r0 - d) j) eqn:Hb; [|done].
        apply bracket_range in Hb. lia.
    + exists rl. repeat split; try done. apply py_get_ge. lia.
Qed.

Lemma scan_fails_only_past_the_end_witness :
  IndexError = IndexError
  ∧ (∀ j, bracket [0; 10; 20; 30]%float (30 - 0) j = false)
  ∧ ∃ rl, last [0; 10; 20; 30]%float = Some rl ∧ PrimFloat.leb rl (30 - 0) = true
          ∧ py_get [0; 10; 20; 30]%float (Z.of_nat 4) = Raise IndexError.
Proof.
  exact (scan_fails_only_past_the_end [0; 10; 20; 30]%float 30 0 None IndexError
           eq_refl).
Defined.

(** ** The rows the boundary indices point at *)

(** The rows of a deck are those of the pairs before pair [i] followed by
    those of the pairs from [i] on. *)
Lemma emit_split (es : list (float * float)) (i : nat) :
  emit es = emit (take (S i) es) ++ emit (drop i es).
Proof.
  revert i. induction es as [|x [|y es] IH]; intros i.
  - by destruct i.
  - destruct i as [|i]; [done|]. simpl. by destruct i.
  - destruct i as [|i]; [done|].
    change (take (S (S i)) (x :: y :: es)) with (x :: take (S i) (y :: es)).
    change (take (S i) (y :: es)) with (y :: take i es).
    change (drop (S i) (x :: y :: es)) with (drop i (y :: es)).
    rewrite !emit_cons2.
    change (y :: take i es) with (take (S i) (y :: es)).
    rewrite (IH i).
    by destruct (PrimFloat.eqb x.1 y.1).
Qed.

(** The first radius of the rows of a deck (surface row included) equals
    the radius of its first entry. *)
Lemma emit_head (es : list (float * float)) (t lst : float * float) :
  PrimFloat.eqb t.1 t.1 = true → last (t :: es) = Some lst →
  ∃ h tl, (emit (t :: es)).*1 ++ [lst.1] = h :: tl ∧ PrimFloat.eqb t.1 h = true.
Proof.
  revert t. induction es as [|u es IH]; intros t Hrefl Hlast.
  - simpl in Hlast. injection Hlast as <-. by exists t.1, [].
  - rewrite emit_cons2. destruct (PrimFloat.eqb t.1 u.1) eqn:Heq.
    + assert (Hu : PrimFloat.eqb u.1 u.1 = true).
      { apply (F64.eqb_trans _ t.1); [by rewrite F64.eqb_sym|done]. }
      destruct (IH u Hu Hlast) as (h & tl & Hrs & Hh).
      exists h, tl. split; [done|]. by apply (F64.eqb_trans _ u.1).
    + rewrite fmap_cons. by eexists _, _.
Qed.

Lemma last_drop_lt {A} (l : list A) (i : nat) :
  (i < length l)%nat → last (drop i l) = last l.
Proof.
  intros Hi. rewrite !last_lookup, lookup_drop, length_drop. f_equal. lia.
Qed.

(** The row at the output index that was running at a boundary pair sits
    at the radius of that pair. *)
Lemma boundary_row (es : list (float * float)) (i : nat) (b t : float * float)
    (rt rhot : float) :
  es !! i = Some b → es !! S i = Some t → PrimFloat.eqb b.1 t.1 = true →
  last es = Some (rt, rhot) →
  (length (emit (take (S i) es)) ≤ length (emit es))%nat
  ∧ ∃ x, ((emit es).*1 ++ [rt]) !! length (emit (take (S i) es)) = Some x
         ∧ PrimFloat.eqb b.1 x = true.
Proof.
  intros Hb Ht Heq Hlast.
  rewrite (emit_split es i). rewrite length_app. split; [lia|].
  rewrite fmap_app, <- app_assoc.
  rewrite lookup_app_r by (by rewrite length_fmap).
  rewrite length_fmap, Nat.sub_diag.
  assert (Hdrop : drop i es = b :: drop (S i) es) by (by apply drop_S).
  assert (Hl : last (b :: drop (S i) es) = Some (rt, rhot)).
  { rewrite <- Hdrop. rewrite last_drop_lt; [done|].
    by apply lookup_lt_Some in Hb. }
  assert (Hrefl : PrimFloat.eqb b.1 b.1 = true).
  { apply (F64.eqb_trans _ t.1); [done|by rewrite F64.eqb_sym]. }
  destruct (emit_head _ b (rt, rhot) Hrefl Hl) as (h & tl & Hrs & Hh).
  rewrite Hdrop. change ((rt, rhot).1) with rt in Hrs. rewrite Hrs. by exists h.
Qed.

Lemma marker_boundary (es : list (float * float)) (i : nat) (old : option Z) :
  boundary es i = true → marker es (Z.of_nat i) old = Some (rows_before es i).
Proof.
  intros Hb. unfold marker, marker_upto. rewrite Nat2Z.id, Hb.
  assert (Hi : (S i < length es)%nat).
  { unfold boundary in Hb. destruct (es !! i); [|done].
    destruct (es !! S i) eqn:Ht; [|done]. by eapply lookup_lt_Some. }
  destruct (Z.leb_spec 0 (Z.of_nat i)); [|lia].
  destruct (Z.ltb_spec (Z.of_nat i) (Z.of_nat (length es - 1))); [done|lia].
Qed.

(** The row written for a layer pair [(i0, i0 + 1)] sits at the output
    index that was running when the pair was reached. *)
Lemma layer_row (es : list (float * float)) (i0 : nat) (a b : float * float)
    (z : float) :
  es !! i0 = Some a → es !! S i0 = Some b → PrimFloat.eqb a.1 b.1 = false →
  rows_before es (S i0) = rows_before es i0 + 1
  ∧ ((emit es).*2 ++ [z]) !! length (emit (take (S i0) es))
    = Some ((b.2 + a.2) / 2)%float.
Proof.
  intros Ha Hb Hne.
  pose proof (emit_snoc es i0 a b Ha Hb) as Hsnoc. rewrite Hne in Hsnoc.
  split.
  - unfold rows_before. rewrite Hsnoc, length_app. simpl. lia.
  - rewrite (emit_split es (S i0)), Hsnoc, !fmap_app, <- !app_assoc.
    rewrite lookup_app_r by (by rewrite length_fmap).
    by rewrite length_fmap, Nat.sub_diag.
Qed.

Section BoundaryRows.
Context `{Builtins} `{Collaborator}.

(** X3. On a well-formed deck, a boundary index declared at a boundary
    pair is bound to an index of a row of the profile, and that row sits at
    the radius of the boundary: the mantle (core) radius that a deck model
    which is evaluated reports is the radius of the declared
    discontinuity. *)
Theorem boundary_index_radius (lines : list string) (loc : Locals) (N icr ico : Z)
    (es : list (float * float)) (i : nat) (b t : float * float) :
  deck_header lines = Ok (N, icr, ico) →
  read_rows lines 3 (Z.to_nat N) = Ok es → 2 <= N →
  es !! i = Some b → es !! S i = Some t → PrimFloat.eqb b.1 t.1 = true →
  ∃ p loc1,
    deck_parse lines loc = Ok (p, loc1)
    ∧ (icr = Z.of_nat i →
         ∃ k x, v_i_crust loc1 = Some k ∧ 0 <= k <= p_n p
                ∧ py_get (p_radius p) k = Ok x ∧ PrimFloat.eqb b.1 x = true
                ∧ ∀ d r loc', deck_model d lines loc = Ok (r, loc') →
                    mantle_km r = Some (x / 1000)%float)
    ∧ (ico = Z.of_nat i →
         ∃ k x, v_i_core loc1 = Some k ∧ 0 <= k <= p_n p
                ∧ py_get (p_radius p) k = Ok x ∧ PrimFloat.eqb b.1 x = true
                ∧ ∀ d r loc', deck_model d lines loc = Ok (r, loc') →
                    core_km r = Some (x / 1000)%float).
Proof.
  intros Hhd Hrows HN Hb Ht Heq.
  pose proof (read_rows_length _ _ _ _ Hrows) as Hlen.
  destruct (last es) as [[rt rhot]|] eqn:Hlast.
  2:{ apply last_None in Hlast. subst es. simpl in Hlen. lia. }
  pose proof (deck_parse_spec lines loc N icr ico es rt rhot Hhd Hrows HN Hlast)
    as Hp.
  destruct (boundary_row es i b t rt rhot Hb Ht Heq Hlast) as (Hle & x & Hx & Hbx).
  assert (Hbd : boundary es i = true) by (unfold boundary; by rewrite Hb, Ht).
  assert (Hget : py_get ((emit es).*1 ++ [rt]) (rows_before es i) = Ok x).
  { unfold rows_before. by apply py_get_nat. }
  do 2 eexists. split; [exact Hp|].
  cbn [v_i_crust v_i_core p_n p_radius].
  split; intros ->; rewrite (marker_boundary es i _ Hbd);
    exists (rows_before es i), x;
    (split; [done|]); (split; [unfold rows_before in *; lia|]);
    (split; [done|]); (split; [done|]);
    intros d r loc' Hm; unfold deck_model in Hm; rewrite Hp, bind_Ok in Hm;
    cbn match in Hm; bind_inv Hm;
    cbn [set_i_lith v_i_crust v_i_core v_i_lith v_rt p_rho p_radius] in Hm;
    rewrite (marker_boundary es i _ Hbd) in Hm; cbn [read_var] in Hm.
  - rewrite bind_Ok in Hm. bind_inv Hm. bind_inv Hm. bind_inv Hm.
    rewrite Hget, bind_Ok in Hm. bind_inv Hm. bind_inv Hm. bind_inv Hm.
    by injection Hm as <- _.
  - bind_inv Hm. bind_inv Hm. rewrite bind_Ok in Hm. bind_inv Hm. bind_inv Hm.
    rewrite Hget, bind_Ok in Hm. bind_inv Hm. bind_inv Hm.
    by injection Hm as <- _.
Qed.

(** X4. On a well-formed deck, when the pair below a declared boundary
    pair is a layer, the density read one row below the boundary index is
    the mean density of that layer; a model that is evaluated reports it as
    the mantle (core) density. *)
Theorem boundary_index_density (d : float) (lines : list string) (loc : Locals)
    (N icr ico : Z) (es : list (float * float)) (i0 : nat) (a b t : float * float) :
  deck_header lines = Ok (N, icr, ico) →
  read_rows lines 3 (Z.to_nat N) = Ok es → 2 <= N →
  es !! i0 = Some a → es !! S i0 = Some b → es !! S (S i0) = Some t →
  PrimFloat.eqb a.1 b.1 = false → PrimFloat.eqb b.1 t.1 = true →
  ∃ p loc1,
    deck_parse lines loc = Ok (p, loc1)
    ∧ (icr = Z.of_nat (S i0) →
         ∃ k, v_i_crust loc1 = Some k
              ∧ py_get (p_rho p) (k - 1) = Ok ((b.2 + a.2) / 2)%float
              ∧ ∀ r loc', deck_model d lines loc = Ok (r, loc') →
                  rho_mantle r = Some ((b.2 + a.2) / 2)%float)
    ∧ (ico = Z.of_nat (S i0) →
         ∃ k, v_i_core loc1 = Some k
              ∧ py_get (p_rho p) (k - 1) = Ok ((b.2 + a.2) / 2)%float
              ∧ ∀ r loc', deck_model d lines loc = Ok (r, loc') →
                  rho_core r = Some ((b.2 + a.2) / 2)%float).
Proof.
  intros Hhd Hrows HN Ha Hb Ht Hne Heq.
  pose proof (read_rows_length _ _ _ _ Hrows) as Hlen.
  destruct (last es) as [[rt rhot]|] eqn:Hlast.
  2:{ apply last_None in Hlast. subst es. simpl in Hlen. lia. }
  pose proof (deck_parse_spec lines loc N icr ico es rt rhot Hhd Hrows HN Hlast)
    as Hp.
  destruct (layer_row es i0 a b 0%float Ha Hb Hne) as (Hk & Hrow).
  assert (Hbd : boundary es (S i0) = true) by (unfold boundary; by rewrite Hb, Ht).
  assert (Hget : py_get ((emit es).*2 ++ [0%float]) (rows_before es (S i0) - 1)
                 = Ok ((b.2 + a.2) / 2)%float).
  { rewrite Hk, Z.add_simpl_r. unfold rows_before. by apply py_get_nat. }
  do 2 eexists. split; [exact Hp|].
  cbn [v_i_crust v_i_core p_rho].
  split; intros ->; rewrite (marker_boundary es (S i0) _ Hbd);
    exists (rows_before es (S i0)); (split; [done|]); (split; [done|]);
    intros r loc' Hm; unfold deck_model in Hm; rewrite Hp, bind_Ok in Hm;
    cbn match in Hm; bind_inv Hm;
    cbn [set_i_lith v_i_crust v_i_core v_i_lith v_rt p_rho p_radius] in Hm;
    rewrite (marker_boundary es (S i0) _ Hbd) in Hm; cbn [read_var] in Hm.
  - rewrite bind_Ok, Hget, bind_Ok in Hm.
    bind_inv Hm. bind_inv Hm. bind_inv Hm. bind_inv Hm. bind_inv Hm. bind_inv Hm.
    by injection Hm as <- _.
  - bind_inv Hm. bind_inv Hm. rewrite bind_Ok, Hget, bind_Ok in Hm.
    bind_inv Hm. bind_inv Hm. bind_inv Hm. bind_inv Hm.
    by injection Hm as <- _.
Qed.

End BoundaryRows.

Lemma boundary_index_radius_witness :
  ∃ p loc1,
    @deck_parse literal_builtins marked_deck unbound = Ok (p, loc1)
    ∧ (∃ k x, v_i_crust loc1 = Some k ∧ 0 <= k <= p_n p
              ∧ py_get (p_radius p) k = Ok x ∧ PrimFloat.eqb 2000 x = true
              ∧ ∃ r loc',
                  @deck_model literal_builtins index_stub 500 marked_deck unbound
                  = Ok (r, loc')
                  ∧ mantle_km r = Some (x / 1000)%float
                  ∧ mantle_km r = Some 2%float).
Proof.
  destruct (@boundary_index_radius literal_builtins index_stub marked_deck unbound
              6 3 1
              [(0, 8000); (1000, 7000); (1000, 4000); (2000, 3000);
               (2000, 2900); (3000, 2800)]%float 3
              (2000, 3000)%float (2000, 2900)%float eq_refl eq_refl)
    as (p & loc1 & Hp & Hcrust & _); [lia|reflexivity..|].
  exists p, loc1. split; [exact Hp|].
  destruct (Hcrust eq_refl) as (k & x & Hk & Hrange & Hx & Hbx & Hrep).
  exists k, x. repeat (split; [assumption|]).
  let v := eval vm_compute in
    (@deck_model literal_builtins index_stub 500 marked_deck unbound) in
  assert (Hm : @deck_model literal_builtins index_stub 500 marked_deck unbound = v)
    by (vm_compute; reflexivity);
  lazymatch v with Ok (?r, ?l) => exists r, l end.
  split; [exact Hm|]. split; [exact (Hrep _ _ _ Hm)|reflexivity].
Defined.

Lemma boundary_index_density_witness :
  ∃ p loc1,
    @deck_parse literal_builtins marked_deck unbound = Ok (p, loc1)
    ∧ ∃ k, v_i_crust loc1 = Some k
           ∧ py_get (p_rho p) (k - 1) = Ok ((3000 + 4000) / 2)%float
           ∧ ∀ r loc',
               @deck_model literal_builtins index_stub 500 marked_deck unbound
               = Ok (r, loc') →
               rho_mantle r = Some ((3000 + 4000) / 2)%float.
Proof.
  destruct (@boundary_index_density literal_builtins index_stub 500 marked_deck
              unbound 6 3 1
              [(0, 8000); (1000, 7000); (1000, 4000); (2000, 3000);
               (2000, 2900); (3000, 2800)]%float 2
              (1000, 4000)%float (2000, 3000)%float (2000, 2900)%float
              eq_refl eq_refl)
    as (p & loc1 & Hp & Hcrust & _); [lia|reflexivity..|].
  exists p, loc1. split; [exact Hp|]. exact (Hcrust eq_refl).
Defined.

(** ** Degenerate and damaged files *)

Lemma for_range_fails {St} (body : Z → St → result St) (lo : Z) (k count : nat)
    (s sk : St) (e : exn) :
  for_range body lo k s = Ok sk → body (lo + Z.of_nat k) sk = Raise e →
  (k < count)%nat → for_range body lo count s = Raise e.
Proof.
  revert lo k s. induction count as [|count IH]; intros lo k s Hk Hb Hlt; [lia|].
  rewrite for_range_S. destruct k as [|k].
  - simpl in Hk. injection Hk as ->. rewrite Z.add_0_r in Hb. by rewrite Hb.
  - rewrite for_range_S in Hk. destruct (body lo s) as [s1|e1]; [|done].
    rewrite bind_Ok in Hk |- *. apply (IH (lo + 1) k s1); [done| |lia].
    by replace (lo + 1 + Z.of_nat k) with (lo + Z.of_nat (S k)) by lia.
Qed.

Section Degenerate.
Context `{Builtins} `{Collaborator}.

(** X5. A deck that declares fewer than two entries never reads its entry
    lines.  With a negative count it fails with [ValueError]; otherwise the
    surface radius is taken from the variable [rt] as the previous deck left
    it: unbound in the first model ([UnboundLocalError]), and else, with a
    count of 0, the write past the empty arrays fails ([IndexError]), and
    with a count of 1 the deck is read as a one-row profile at the last top
    radius of the previous deck. *)
Theorem deck_of_one_entry (lines : list string) (loc : Locals) (N icr ico : Z) :
  deck_header lines = Ok (N, icr, ico) → N <= 1 →
  deck_parse lines loc
  = if N <? 0 then Raise ValueError else
    match v_rt loc with
    | None => Raise UnboundLocalError
    | Some rt =>
        if N =? 0 then Raise IndexError
        else Ok (mkProfile [rt] [0%float] 0 rt, loc)
    end.
Proof.
  intros Hhd HN. unfold deck_parse. rewrite Hhd, bind_Ok. cbn match.
  unfold np_zeros. destruct (Z.ltb_spec N 0) as [|Hn]; [done|].
  rewrite !bind_Ok. replace (Z.to_nat (N - 1)) with 0%nat by lia.
  cbn [for_range]. rewrite bind_Ok. cbn [locals radius rho num].
  destruct (v_rt loc) as [rt|]; [|done]. cbn [read_var]. rewrite bind_Ok.
  destruct (Z.eqb_spec N 0) as [->|Hz]; [done|].
  assert (N = 1) as -> by lia. reflexivity.
Qed.

End Degenerate.

Lemma deck_of_one_entry_witness :
  @deck_parse literal_builtins single_entry_deck unbound = Raise UnboundLocalError
  ∧ @deck_parse literal_builtins single_entry_deck
      (mkLocals (Some 3000%float) (Some 1) (Some 2) (Some 2))
    = Ok (mkProfile [3000%float] [0%float] 0 3000%float,
          mkLocals (Some 3000%float) (Some 1) (Some 2) (Some 2)).
Proof.
  split.
  - exact (@deck_of_one_entry literal_builtins single_entry_deck unbound 1 0 0
             eq_refl ltac:(lia)).
  - exact (@deck_of_one_entry literal_builtins single_entry_deck
             (mkLocals (Some 3000%float) (Some 1) (Some 2) (Some 2)) 1 0 0
             eq_refl ltac:(lia)).
Defined.

Section Damaged.
Context `{Builtins} `{Collaborator}.

Lemma py_get_errors {A} (l : list A) (i : Z) (e : exn) :
  py_get l i = Raise e → e = IndexError.
Proof.
  unfold py_get. destruct (py_pos (length l) i) as [k|]; [|congruence].
  destruct (l !! k); congruence.
Qed.

Lemma convert_errors {A} (v : option A) (e : exn) :
  convert v = Raise e → e = ValueError.
Proof. destruct v; simpl; congruence. Qed.

(** Reading a row fails with [IndexError] (no such line, or fewer than two
    fields) or with [ValueError] (a field that is not a number). *)
Lemma read_row_errors (lines : list string) (j : Z) (e : exn) :
  read_row lines j = Raise e → e = IndexError ∨ e = ValueError.
Proof.
  unfold read_row. intros Hr.
  destruct (py_get lines j) as [line|e1] eqn:E1;
    [rewrite bind_Ok in Hr
    |rewrite bind_Raise in Hr; injection Hr as ->; left; by eapply py_get_errors].
  destruct (py_get (split line) 0) as [s0|e1] eqn:E2;
    [rewrite bind_Ok in Hr
    |rewrite bind_Raise in Hr; injection Hr as ->; left; by eapply py_get_errors].
  destruct (convert (py_float s0)) as [r|e1] eqn:E3;
    [rewrite bind_Ok in Hr
    |rewrite bind_Raise in Hr; injection Hr as ->; right; by eapply convert_errors].
  destruct (py_get (split line) 1) as [s1|e1] eqn:E4;
    [rewrite bind_Ok in Hr
    |rewrite bind_Raise in Hr; injection Hr as ->; left; by eapply py_get_errors].
  destruct (convert (py_float s1)) as [r'|e1] eqn:E5;
    [rewrite bind_Ok in Hr; discriminate
    |rewrite bind_Raise in Hr; injection Hr as ->; right; by eapply convert_errors].
Qed.

(** A pass of the deck loop whose two rows can be read and whose output
    index is inside the arrays succeeds, keeps the sizes and moves the
    output index by at most one. *)
Lemma deck_step_runs (lines : list string) (ico icr i : Z) (st : DeckState)
    (rb rt : float * float) :
  read_row lines (i + 3) = Ok rb → read_row lines (i + 4) = Ok rt →
  0 <= num st < Z.of_nat (length (radius st)) →
  length (rho st) = length (radius st) →
  ∃ st', deck_step lines ico icr i st = Ok st'
         ∧ length (radius st') = length (radius st)
         ∧ length (rho st') = length (radius st)
         ∧ num st <= num st' <= num st + 1.
Proof.
  intros Hb Ht Hn Hl. unfold deck_step.
  destruct rb as [rb rhob], rt as [rt rhot].
  rewrite Hb, bind_Ok, Ht, bind_Ok.
  destruct (PrimFloat.eqb rb rt).
  - eexists. split; [reflexivity|]. simpl. lia.
  - assert (num st = Z.of_nat (Z.to_nat (num st))) as -> by lia.
    rewrite !py_set_nat by lia. rewrite !bind_Ok.
    eexists. split; [reflexivity|]. simpl. rewrite !length_insert. lia.
Qed.

Lemma deck_loop_runs (lines : list string) (ico icr : Z) (loc : Locals)
    (M k : nat) :
  (∀ m, (m ≤ k)%nat → ∃ row, read_row lines (3 + Z.of_nat m) = Ok row) →
  (k < M)%nat →
  ∃ st, for_range (deck_step lines ico icr) 0 k (deck_init M loc) = Ok st
        ∧ length (radius st) = M ∧ length (rho st) = M
        ∧ 0 <= num st <= Z.of_nat k.
Proof.
  induction k as [|k IH]; intros Hrows Hk.
  - eexists. split; [reflexivity|]. simpl. rewrite !length_replicate. lia.
  - destruct IH as (st & Hrun & Hlr & Hlp & Hn); [intros m Hm; apply Hrows; lia|lia|].
    destruct (Hrows k) as [rb Hb]; [lia|].
    destruct (Hrows (S k)) as [rt Ht]; [lia|].
    destruct (deck_step_runs lines ico icr (Z.of_nat k) st rb rt)
      as (st' & Hstep & Hlr' & Hlp' & Hn'); [| |lia|congruence|].
    { by replace (Z.of_nat k + 3) with (3 + Z.of_nat k) by lia. }
    { by replace (Z.of_nat k + 4) with (3 + Z.of_nat (S k)) by lia. }
    rewrite for_range_snoc, Hrun, bind_Ok, Z.add_0_l, Hstep.
    eexists. split; [reflexivity|]. repeat split; try congruence; lia.
Qed.

(** X7. On a deck that declares [N >= 2] entries and no more entries than
    it has lines, the reader fails with the error of the first of the [N]
    declared entries that cannot be read: [IndexError] for a missing line
    or a line with fewer than two fields, [ValueError] for a field that is
    not a number. *)
Theorem deck_first_bad_entry (lines : list string) (loc : Locals) (N icr ico : Z)
    (k : nat) (e : exn) :
  deck_header lines = Ok (N, icr, ico) → 2 <= N <= Z.of_nat (length lines) →
  Z.of_nat k < N →
  (∀ m, (m < k)%nat → ∃ row, read_row lines (3 + Z.of_nat m) = Ok row) →
  read_row lines (3 + Z.of_nat k) = Raise e →
  deck_parse lines loc = Raise e ∧ (e = IndexError ∨ e = ValueError).
Proof.
  intros Hhd [HN _] Hk Hrows Hbad. split; [|by eapply read_row_errors].
  unfold deck_parse. rewrite Hhd, bind_Ok. cbn match.
  unfold np_zeros. destruct (Z.ltb_spec N 0); [lia|]. rewrite !bind_Ok.
  fold (deck_init (Z.to_nat N) loc).
  assert (Hloop : for_range (deck_step lines ico icr) 0 (Z.to_nat (N - 1))
                    (deck_init (Z.to_nat N) loc) = Raise e); [|by rewrite Hloop].
  destruct k as [|k].
  - apply (for_range_fails _ 0 0 _ _ (deck_init (Z.to_nat N) loc)); [done| |lia].
    unfold deck_step. change (0 + Z.of_nat 0 + 3) with (3 + Z.of_nat 0).
    by rewrite Hbad.
  - destruct (deck_loop_runs lines ico icr loc (Z.to_nat N) k)
      as (st & Hrun & _); [intros m Hm; apply Hrows; lia|lia|].
    apply (for_range_fails _ 0 k _ _ st); [done| |lia].
    destruct (Hrows k) as [[rb rhob] Hb]; [lia|].
    unfold deck_step. rewrite Z.add_0_l.
    replace (Z.of_nat k + 3) with (3 + Z.of_nat k) by lia.
    replace (Z.of_nat k + 4) with (3 + Z.of_nat (S k)) by lia.
    by rewrite Hb, bind_Ok, Hbad.
Qed.

End Damaged.

Lemma deck_first_bad_entry_witness :
  (@deck_parse literal_builtins truncated_deck unbound = Raise IndexError
   ∧ (IndexError = IndexError ∨ IndexError = ValueError))
  ∧ (@deck_parse literal_builtins garbled_deck unbound = Raise ValueError
     ∧ (ValueError = IndexError ∨ ValueError = ValueError)).
Proof.
  split.
  - apply (@deck_first_bad_entry literal_builtins truncated_deck unbound 6 3 1 4
             IndexError); [reflexivity|simpl; lia|lia| |reflexivity].
    intros m Hm.
    destruct m as [|[|[|[|m]]]]; [by eexists..|lia].
  - apply (@deck_first_bad_entry literal_builtins garbled_deck unbound 6 3 1 3
             ValueError); [reflexivity|simpl; lia|lia| |reflexivity].
    intros m Hm.
    destruct m as [|[|[|m]]]; [by eexists..|lia].
Defined.

Section DamagedTable.
Context `{Builtins} `{Collaborator}.

(** A pass of the copy loop fails as the reading of its row fails. *)
Lemma tab_step_fails (lines : list string) (i : nat)
    (st : list float * list float) (e : exn) :
  read_row lines (4 + Z.of_nat i) = Raise e → (i < length st.1)%nat →
  tab_step lines (Z.of_nat i) st = Raise e.
Proof.
  unfold read_row, tab_step. intros Hr Hi. revert Hr.
  replace (Z.of_nat i + 4) with (4 + Z.of_nat i) by lia.
  destruct (py_get lines (4 + Z.of_nat i)) as [line|e1];
    [rewrite !bind_Ok|rewrite !bind_Raise; by intros [= ->]].
  destruct (py_get (split line) 0) as [s0|e1];
    [rewrite !bind_Ok|rewrite !bind_Raise; by intros [= ->]].
  destruct (convert (py_float s0)) as [r|e1];
    [rewrite !bind_Ok|rewrite !bind_Raise; by intros [= ->]].
  rewrite py_set_nat by done. rewrite bind_Ok.
  destruct (py_get (split line) 1) as [s1|e1];
    [rewrite !bind_Ok|rewrite !bind_Raise; by intros [= ->]].
  destruct (convert (py_float s1)) as [x|e1];
    [rewrite !bind_Ok; discriminate|rewrite !bind_Raise; by intros [= ->]].
Qed.

Lemma tab_loop_runs (lines : list string) (M k : nat) :
  (∀ m, (m < k)%nat → ∃ row, read_row lines (4 + Z.of_nat m) = Ok row) →
  (k ≤ M)%nat →
  ∃ st, for_range (tab_step lines) 0 k
          (replicate M 0%float, replicate M 0%float) = Ok st
        ∧ length st.1 = M ∧ length st.2 = M.
Proof.
  induction k as [|k IH]; intros Hrows Hk.
  - eexists. split; [reflexivity|]. simpl. by rewrite !length_replicate.
  - destruct IH as ([R P] & Hrun & Hlr & Hlp); [intros m Hm; apply Hrows; lia|lia|].
    simpl in Hlr, Hlp.
    destruct (Hrows k) as [[r x] Hr]; [lia|].
    rewrite for_range_snoc, Hrun, bind_Ok, Z.add_0_l.
    rewrite (tab_step_read lines k (R, P) r x Hr) by (simpl; lia).
    eexists. split; [reflexivity|]. simpl. by rewrite !length_insert.
Qed.

(** X8. A table without a data row is not read: with fewer than four lines
    the negative array size fails with [ValueError], and with exactly four
    lines the read of the surface radius [radius[num-1]] on the empty array
    fails with [IndexError]. *)
Theorem table_without_rows (d : float) (lines : list string) (loc : Locals) :
  (length lines ≤ 4)%nat →
  tab_parse lines
  = (if (length lines <? 4)%nat then Raise ValueError else Raise IndexError)
  ∧ tab_model d lines loc
    = (if (length lines <? 4)%nat then Raise ValueError else Raise IndexError).
Proof.
  intros Hlen.
  assert (Hp : tab_parse lines
    = if (length lines <? 4)%nat then Raise ValueError else Raise IndexError).
  { unfold tab_parse, np_zeros.
    destruct (Nat.ltb_spec (length lines) 4) as [Hlt|Hge].
    - by destruct (Z.ltb_spec (Z.of_nat (length lines) - 4) 0); [|lia].
    - destruct (Z.ltb_spec (Z.of_nat (length lines) - 4) 0); [lia|].
      assert (length lines = 4%nat) as -> by lia. reflexivity. }
  split; [done|]. unfold tab_model. rewrite Hp.
  by destruct (length lines <? 4)%nat.
Qed.

(** X9. The tabulated reader fails with the error of the first line after
    the header that cannot be read as a row: [IndexError] for a line with
    fewer than two fields (a blank line among them), [ValueError] for a
    field that is not a number; the model is not evaluated. *)
Theorem table_first_bad_row (d : float) (lines : list string) (loc : Locals)
    (k : nat) (e : exn) :
  (4 + k < length lines)%nat →
  (∀ m, (m < k)%nat → ∃ row, read_row lines (4 + Z.of_nat m) = Ok row) →
  read_row lines (4 + Z.of_nat k) = Raise e →
  tab_parse lines = Raise e ∧ tab_model d lines loc = Raise e
  ∧ (e = IndexError ∨ e = ValueError).
Proof.
  intros Hlen Hrows Hbad.
  assert (Hp : tab_parse lines = Raise e).
  { unfold tab_parse, np_zeros.
    destruct (Z.ltb_spec (Z.of_nat (length lines) - 4) 0); [lia|].
    rewrite !bind_Ok.
    destruct (tab_loop_runs lines (Z.to_nat (Z.of_nat (length lines) - 4)) k Hrows)
      as (st & Hrun & Hlr & Hlp); [lia|].
    rewrite (for_range_fails _ 0 k _ _ st e Hrun); [done| |lia].
    rewrite Z.add_0_l. apply tab_step_fails; [done|lia]. }
  split; [done|]. split; [|by eapply read_row_errors].
  unfold tab_model. by rewrite Hp.
Qed.

End DamagedTable.

Lemma table_without_rows_witness :
  @tab_parse literal_builtins ["model"; "units"; "columns"; "count"]%string
  = Raise IndexError
  ∧ @tab_model literal_builtins index_stub 150000
      ["model"; "units"; "columns"; "count"]%string unbound
    = Raise IndexError.
Proof.
  exact (@table_without_rows literal_builtins index_stub 150000
           ["model"; "units"; "columns"; "count"]%string unbound
           ltac:(simpl; lia)).
Defined.

Lemma table_first_bad_row_witness :
  @tab_parse literal_builtins gapped_table = Raise IndexError
  ∧ @tab_model literal_builtins index_stub 15 gapped_table unbound
    = Raise IndexError
  ∧ (IndexError = IndexError ∨ IndexError = ValueError).
Proof.
  apply (@table_first_bad_row literal_builtins index_stub 15 gapped_table unbound
           2 IndexError); [simpl; lia| |reflexivity].
  intros m Hm. destruct m as [|[|m]]; [by eexists..|lia].
Defined.

(* [row_ok l k x Hx] rewrites the read [l[k]] of a row known to exist. *)
Ltac row_ok l k x Hx :=
  let G := fresh "G" in
  let z := eval cbv in (Z.of_nat k) in
  assert (G : py_get l z = Ok x) by exact (py_get_nat l k x Hx);
  rewrite G, bind_Ok; clear G.

(* [row_missing l k Hk] rewrites the read [l[k]] past the end of [l]. *)
Ltac row_missing l k :=
  let G := fresh "G" in
  let z := eval cbv in (Z.of_nat k) in
  assert (G : py_get l z = Raise IndexError) by (apply py_get_ge; simpl; lia);
  rewrite G, ?bind_Raise; clear G.

Section DamagedHeader.
Context `{Builtins} `{Collaborator}.

(** X6. Failures of the deck header.  A file of fewer than two lines, or a
    flag line of fewer than three fields, fails with [IndexError]; a flag
    field that is not a number fails with [ValueError]; with the flag equal
    to 1, a missing third line, a third line without a field, or a third
    line of fewer than four fields (once the entry count is read) fails with
    [IndexError], and an entry count that is not an integer literal with
    [ValueError]. *)
Theorem deck_header_failures (lines : list string) (loc : Locals) :
  ((length lines ≤ 1)%nat → deck_parse lines loc = Raise IndexError)
  ∧ (∀ l1, lines !! 1%nat = Some l1 → (length (split l1) ≤ 2)%nat →
       deck_parse lines loc = Raise IndexError)
  ∧ (∀ l1 s, lines !! 1%nat = Some l1 → split l1 !! 2%nat = Some s →
       py_float s = None → deck_parse lines loc = Raise ValueError)
  ∧ (∀ l1 s flag, lines !! 1%nat = Some l1 → split l1 !! 2%nat = Some s →
       py_float s = Some flag → PrimFloat.eqb flag 1 = true →
       (length lines = 2%nat → deck_parse lines loc = Raise IndexError)
       ∧ (∀ l2 s0, lines !! 2%nat = Some l2 → split l2 !! 0%nat = Some s0 →
            (py_int s0 = None → deck_parse lines loc = Raise ValueError)
            ∧ (∀ N, py_int s0 = Some N → (length (split l2) ≤ 3)%nat →
                 deck_parse lines loc = Raise IndexError))
       ∧ (∀ l2, lines !! 2%nat = Some l2 → split l2 = [] →
            deck_parse lines loc = Raise IndexError)).
Proof.
  assert (H0' : ∀ l1, lines !! 1%nat = Some l1 → ∃ l0, lines !! 0%nat = Some l0).
  { intros l1 H1. apply lookup_lt_is_Some_2. apply lookup_lt_Some in H1. lia. }
  split; [|split; [|split]].
  - intros Hlen. unfold deck_parse, deck_header.
    destruct lines as [|l0 [|l1 lines]]; [done|done|simpl in Hlen; lia].
  - intros l1 H1 Hshort. destruct (H0' l1 H1) as [l0 Hl0].
    unfold deck_parse, deck_header.
    row_ok lines 0%nat l0 Hl0. row_ok lines 1%nat l1 H1.
    row_missing (split l1) 2%nat. reflexivity.
  - intros l1 s H1 H2 Hf. destruct (H0' l1 H1) as [l0 Hl0].
    unfold deck_parse, deck_header.
    row_ok lines 0%nat l0 Hl0. row_ok lines 1%nat l1 H1.
    row_ok (split l1) 2%nat s H2. by rewrite Hf.
  - intros l1 s flag H1 H2 Hf Hflag. destruct (H0' l1 H1) as [l0 Hl0].
    assert (Hh : deck_header lines
      = (l2 ← py_get lines 2;
         s ← py_get (split l2) 0;
         num_file ← convert (py_int s);
         s ← py_get (split l2) 3;
         crust_index_file ← convert (py_int s);
         s ← py_get (split l2) 2;
         core_index_file ← convert (py_int s);
         Ok (num_file, crust_index_file - 1, core_index_file - 1))).
    { unfold deck_header.
      row_ok lines 0%nat l0 Hl0. row_ok lines 1%nat l1 H1.
      row_ok (split l1) 2%nat s H2. rewrite Hf. cbn [convert]. rewrite bind_Ok.
      by rewrite Hflag. }
    split; [|split].
    + intros Hlen. unfold deck_parse. rewrite Hh.
      row_missing lines 2%nat. reflexivity.
    + intros l2 s0 Hl2 Hs0. unfold deck_parse. rewrite Hh.
      row_ok lines 2%nat l2 Hl2. row_ok (split l2) 0%nat s0 Hs0. split.
      * intros Hn. by rewrite Hn.
      * intros N HN Hshort. rewrite HN. cbn [convert]. rewrite bind_Ok.
        row_missing (split l2) 3%nat. reflexivity.
    + intros l2 Hl2 Hnil. unfold deck_parse. rewrite Hh.
      row_ok lines 2%nat l2 Hl2. by rewrite Hnil.
Qed.

End DamagedHeader.

Lemma deck_header_failures_witness :
  @deck_parse literal_builtins [] unbound = Raise IndexError
  ∧ @deck_parse literal_builtins ["title"; "0 1"]%string unbound = Raise IndexError
  ∧ @deck_parse literal_builtins ["title"; "0 0 one"]%string unbound
    = Raise ValueError
  ∧ @deck_parse literal_builtins ["title"; "0 0 1"]%string unbound
    = Raise IndexError
  ∧ @deck_parse literal_builtins ["title"; "0 0 1"; "6.0 0 2 4"]%string unbound
    = Raise ValueError
  ∧ @deck_parse literal_builtins ["title"; "0 0 1"; "6 0 2"]%string unbound
    = Raise IndexError
  ∧ @deck_parse literal_builtins ["title"; "0 0 1"; "  "]%string unbound
    = Raise IndexError.
Proof.
  split; [|split; [|split; [|split; [|split; [|split]]]]].
  - exact (proj1 (@deck_header_failures literal_builtins [] unbound)
             ltac:(simpl; lia)).
  - exact (proj1 (proj2 (@deck_header_failures literal_builtins
             ["title"; "0 1"]%string unbound)) "0 1"%string eq_refl
             ltac:(simpl; lia)).
  - exact (proj1 (proj2 (proj2 (@deck_header_failures literal_builtins
             ["title"; "0 0 one"]%string unbound))) "0 0 one"%string "one"%string
             eq_refl eq_refl eq_refl).
  - destruct (proj2 (proj2 (proj2 (@deck_header_failures literal_builtins
                ["title"; "0 0 1"]%string unbound))) "0 0 1"%string
                "1"%string 1%float eq_refl eq_refl eq_refl eq_refl)
      as (Hmissing & _ & _).
    exact (Hmissing eq_refl).
  - destruct (proj2 (proj2 (proj2 (@deck_header_failures literal_builtins
                ["title"; "0 0 1"; "6.0 0 2 4"]%string unbound))) "0 0 1"%string
                "1"%string 1%float eq_refl eq_refl eq_refl eq_refl)
      as (_ & Hcount & _).
    exact (proj1 (Hcount "6.0 0 2 4"%string "6.0"%string eq_refl eq_refl) eq_refl).
  - destruct (proj2 (proj2 (proj2 (@deck_header_failures literal_builtins
                ["title"; "0 0 1"; "6 0 2"]%string unbound))) "0 0 1"%string
                "1"%string 1%float eq_refl eq_refl eq_refl eq_refl)
      as (_ & Hcount & _).
    exact (proj2 (Hcount "6 0 2"%string "6"%string eq_refl eq_refl) 6 eq_refl
             ltac:(simpl; lia)).
  - destruct (proj2 (proj2 (proj2 (@deck_header_failures literal_builtins
                ["title"; "0 0 1"; "  "]%string unbound))) "0 0 1"%string
                "1"%string 1%float eq_refl eq_refl eq_refl eq_refl)
      as (_ & _ & Hblank).
    exact (Hblank "  "%string eq_refl eq_refl).
Defined.

(** ** The batches *)

Section Batches.
Context `{Builtins} `{Collaborator}.

(** X10. Whatever the percentages, the reported minimum and maximum are
    numbers, the minimum is at most 100 and the maximum at least 0; every
    percentage that is a number lies between them, so that a percentage
    that is not a number (a NaN) is never reported and never hides another.
    With no model evaluated the pair is [(100, 0)], minimum above maximum. *)
Theorem minmax_bounds (d : float) (models : list (string * list string))
    (loc loc' : Locals) (rs : list Report) (lo hi : float) :
  tab_batch d models loc 100 0 = (rs, Ok (loc', (lo, hi))) →
  PrimFloat.eqb lo lo = true ∧ PrimFloat.eqb hi hi = true
  ∧ PrimFloat.leb lo 100 = true ∧ PrimFloat.leb 0 hi = true
  ∧ (∀ p, p ∈ percent <$> rs → PrimFloat.eqb p p = true →
       PrimFloat.leb lo p = true ∧ PrimFloat.leb p hi = true)
  ∧ ((∃ p, p ∈ percent <$> rs ∧ PrimFloat.eqb p p = true) →
       PrimFloat.leb lo hi = true)
  ∧ (rs = [] → lo = 100%float ∧ hi = 0%float).
Proof.
  intros Hb. apply tab_batch_aggregate in Hb. unfold aggregate in Hb.
  injection Hb as Hlo Hhi.
  destruct (running_min_spec (percent <$> rs) 100 eq_refl) as (_ & Hr & Hle & Hlow).
  destruct (running_max_spec (percent <$> rs) 0 eq_refl) as (_ & Hr' & Hle' & Hup).
  rewrite <- Hlo in Hr, Hle, Hlow. rewrite <- Hhi in Hr', Hle', Hup.
  assert (Hbetween : ∀ p, p ∈ percent <$> rs → PrimFloat.eqb p p = true →
            PrimFloat.leb lo p = true ∧ PrimFloat.leb p hi = true).
  { intros p Hp Hpp. split.
    - exact (F64.ltb_total p lo Hpp Hr (Hlow p Hp)).
    - exact (F64.ltb_total hi p Hr' Hpp (Hup p Hp)). }
  split; [done|]. split; [done|]. split; [done|]. split; [done|].
  split; [exact Hbetween|]. split.
  - intros (p & Hp & Hpp). destruct (Hbetween p Hp Hpp).
    by apply (F64.leb_trans _ p).
  - intros ->. by rewrite Hlo, Hhi.
Qed.

(** A batch that went through its first entries goes on from the state
    they left. *)
Lemma tab_batch_app (d : float) (pre rest : list (string * list string))
    (loc loc1 : Locals) (a b a1 b1 : float) (rs : list Report) :
  tab_batch d pre loc a b = (rs, Ok (loc1, (a1, b1))) →
  tab_batch d (pre ++ rest) loc a b
  = (rs ++ (tab_batch d rest loc1 a1 b1).1, (tab_batch d rest loc1 a1 b1).2).
Proof.
  revert loc a b rs. induction pre as [|[file lines] pre IH]; intros loc a b rs Hb.
  - simpl in Hb. injection Hb as <- <- <- <-. simpl.
    by destruct (tab_batch d rest loc a b).
  - cbn [tab_batch app] in Hb |- *.
    change ((file, lines) :: pre ++ rest) with ((file, lines) :: (pre ++ rest)).
    cbn [tab_batch].
    destruct (negb (String.eqb (splitext_ext file) ".dat")); [by apply IH|].
    destruct (tab_model d lines loc) as [[r loc']|e]; [|done].
    destruct (tab_batch d pre loc' (update_pmin a (percent r))
                (update_pmax b (percent r))) as [rs' out] eqn:Hpre.
    injection Hb as <- ->. by rewrite (IH _ _ _ _ Hpre).
Qed.

(** X11. Directory entries whose extension is not [.dat] are passed over:
    the batch is the batch of the [.dat] entries alone, and when it
    succeeds it has evaluated each of them once, in order. *)
Theorem only_dat_entries (d : float) (models : list (string * list string))
    (loc : Locals) (a b : float) :
  tab_batch d models loc a b
  = tab_batch d (List.filter (λ m, is_dat m.1) models) loc a b
  ∧ ∀ rs out, tab_batch d models loc a b = (rs, Ok out) →
      Forall2 (λ r m, ∃ p, tab_parse m.2 = Ok p ∧ call_radius r = p_radius p)
        rs (List.filter (λ m, is_dat m.1) models).
Proof.
  split.
  - revert loc a b. induction models as [|[file lines] models IH]; intros loc a b.
    + done.
    + cbn [tab_batch List.filter fst]. unfold is_dat at 1.
      destruct (String.eqb (splitext_ext file) ".dat") eqn:Hd; cbn [negb];
        [|apply IH].
      cbn [tab_batch]. rewrite Hd. cbn [negb].
      destruct (tab_model d lines loc) as [[r loc']|e]; [|done].
      by rewrite IH.
  - revert loc a b. induction models as [|[file lines] models IH];
      intros loc a b rs out Hb.
    + simpl in Hb. injection Hb as <- _. constructor.
    + cbn [tab_batch List.filter fst] in Hb |- *. unfold is_dat at 1.
      destruct (String.eqb (splitext_ext file) ".dat"); cbn [negb] in Hb |- *;
        [|by eapply IH].
      destruct (tab_model d lines loc) as [[r loc']|e] eqn:Hm; [|done].
      destruct (tab_batch d models loc' (update_pmin a (percent r))
                  (update_pmax b (percent r))) as [rs' out'] eqn:Hrest.
      injection Hb as <- ->. constructor; [|by eapply IH].
      cbn [snd]. unfold tab_model in Hm.
      destruct (tab_parse lines) as [p|]; [|done]. rewrite bind_Ok in Hm.
      bind_inv Hm. bind_inv Hm. bind_inv Hm. bind_inv Hm.
      injection Hm as <- _. by exists p.
Qed.

(** X12. The first model that raises ends the run with its exception: the
    reports are those of the models before it, nothing after it is read,
    and no minimum and maximum are printed. *)
Theorem first_failure_ends_run (lines : list string) (e : exn) :
  (∀ d pre post rs loc loc1,
     deck_batch d pre loc = (rs, Ok loc1) → deck_model d lines loc1 = Raise e →
     deck_batch d (pre ++ lines :: post) loc = (rs, Raise e))
  ∧ (∀ pre post models rs loc1,
       deck_batch 150000 pre unbound = (rs, Ok loc1) →
       deck_model 150000 lines loc1 = Raise e →
       main (pre ++ lines :: post) models = (rs, [], Raise e))
  ∧ (∀ d file pre post rs loc loc1 a b a1 b1,
       tab_batch d pre loc a b = (rs, Ok (loc1, (a1, b1))) →
       is_dat file = true → tab_model d lines loc1 = Raise e →
       tab_batch d (pre ++ (file, lines) :: post) loc a b = (rs, Raise e))
  ∧ (∀ files file pre post drs rs loc0 loc1 a1 b1,
       deck_batch 150000 files unbound = (drs, Ok loc0) →
       tab_batch 150000 pre loc0 100 0 = (rs, Ok (loc1, (a1, b1))) →
       is_dat file = true → tab_model 150000 lines loc1 = Raise e →
       main files (pre ++ (file, lines) :: post) = (drs, rs, Raise e)).
Proof.
  assert (Hdeck : ∀ d pre post rs loc loc1,
     deck_batch d pre loc = (rs, Ok loc1) → deck_model d lines loc1 = Raise e →
     deck_batch d (pre ++ lines :: post) loc = (rs, Raise e)).
  { intros d pre post rs loc loc1 Hpre Hm.
    rewrite (deck_batch_app d pre (lines :: post) loc loc1 rs Hpre).
    cbn [deck_batch]. rewrite Hm. cbn [fst snd]. by rewrite app_nil_r. }
  assert (Htab : ∀ d file pre post rs loc loc1 a b a1 b1,
       tab_batch d pre loc a b = (rs, Ok (loc1, (a1, b1))) →
       is_dat file = true → tab_model d lines loc1 = Raise e →
       tab_batch d (pre ++ (file, lines) :: post) loc a b = (rs, Raise e)).
  { intros d file pre post rs loc loc1 a b a1 b1 Hpre Hd Hm.
    rewrite (tab_batch_app d pre ((file, lines) :: post) loc loc1 a b a1 b1 rs Hpre).
    cbn [tab_batch]. unfold is_dat in Hd. rewrite Hd. cbn [negb].
    rewrite Hm. cbn [fst snd]. by rewrite app_nil_r. }
  split; [done|]. split; [|split; [done|]].
  - intros pre post models rs loc1 Hpre Hm. unfold main.
    by rewrite (Hdeck _ pre post rs unbound loc1 Hpre Hm).
  - intros files file pre post drs rs loc0 loc1 a1 b1 Hfiles Hpre Hd Hm.
    unfold main. rewrite Hfiles.
    by rewrite (Htab _ file pre post rs loc0 loc1 _ _ a1 b1 Hpre Hd Hm).
Qed.

End Batches.

Lemma minmax_bounds_witness :
  PrimFloat.eqb 10 10 = true ∧ PrimFloat.eqb 80 80 = true
  ∧ PrimFloat.leb 10 100 = true ∧ PrimFloat.leb 0 80 = true
  ∧ (∀ p, p ∈ percent <$> (@tab_batch literal_builtins density_stub 150000
            [("a.dat", table_80); ("b.dat", table_10)]%string unbound 100 0).1 →
          PrimFloat.eqb p p = true →
          PrimFloat.leb 10 p = true ∧ PrimFloat.leb p 80 = true).
Proof.
  pose proof (@minmax_bounds literal_builtins density_stub 150000
    [("a.dat", table_80); ("b.dat", table_10)]%string unbound
    (mkLocals None None None (Some 2))
    (@tab_batch literal_builtins density_stub 150000
       [("a.dat", table_80); ("b.dat", table_10)]%string unbound 100 0).1
    10%float 80%float eq_refl) as (H1 & H2 & H3 & H4 & H5 & _).
  exact (conj H1 (conj H2 (conj H3 (conj H4 H5)))).
Defined.

Lemma only_dat_entries_witness :
  Forall2 (λ r (m : string * list string),
             ∃ p, @tab_parse literal_builtins m.2 = Ok p
                  ∧ call_radius r = p_radius p)
    (@tab_batch literal_builtins density_stub 150000
       [("a.dat", table_80); ("notes.txt", []); (".dat", []);
        ("b.dat", table_10)]%string unbound 100 0).1
    (List.filter (λ m : string * list string, is_dat m.1)
       [("a.dat", table_80); ("notes.txt", []); (".dat", []);
        ("b.dat", table_10)]%string).
Proof.
  exact (proj2 (@only_dat_entries literal_builtins density_stub 150000
    [("a.dat", table_80); ("notes.txt", []); (".dat", []); ("b.dat", table_10)]%string
    unbound 100 0) _ (mkLocals None None None (Some 2), (10, 80)%float) eq_refl).
Defined.

Lemma first_failure_ends_run_witness :
  @main literal_builtins index_stub []
    ([("a.dat"%string, deep_table)]
       ++ ("b.dat"%string, gapped_table) :: [("c.dat"%string, deep_table)])
  = ([], (@tab_batch literal_builtins index_stub 150000
            [("a.dat", deep_table)]%string unbound 100 0).1,
     Raise IndexError).
Proof.
  exact (proj2 (proj2 (proj2 (@first_failure_ends_run literal_builtins index_stub
    gapped_table IndexError))) [] "b.dat"%string [("a.dat", deep_table)]%string
    [("c.dat", deep_table)]%string [] _ unbound
    (mkLocals None None None (Some 2)) 2%float 2%float
    eq_refl eq_refl eq_refl eq_refl).
Defined.

(** ** Models that are evaluated *)

Section Evaluated.
Context `{Builtins} `{Collaborator}.

(** X13. A table of four header lines and rows that all read as two
    numbers, with strictly increasing radii and a pair of rows that
    brackets the target, is always evaluated, and what is reported and
    handed to the external routine does not depend on the models read
    before: the rows as read with the last density set to 0, the shell
    index the policy picks on the bracketing pair, and the depth of that
    row below the surface. *)
Theorem table_model_evaluated (d : float) (lines : list string) (loc : Locals)
    (es : list (float * float)) (r0 rho0 : float) (i : nat) (a b : float) :
  (5 ≤ length lines)%nat → read_rows lines 4 (length lines - 4) = Ok es →
  increasing es.*1 = true → last es = Some (r0, rho0) →
  es.*1 !! i = Some a → es.*1 !! S i = Some b →
  bracket es.*1 (r0 - d) i = true →
  ∃ x, py_get es.*1 (resolve a b (r0 - d) (Z.of_nat i)) = Ok x
    ∧ (resolve a b (r0 - d) (Z.of_nat i) = Z.of_nat i ∧ x = a
       ∨ resolve a b (r0 - d) (Z.of_nat i) = Z.of_nat i + 1 ∧ x = b)
    ∧ tab_model d lines loc
      = Ok (mkReport (r0 / 1000)%float None None None None
              ((r0 - x) / 1000)%float
              es.*1 (<[(length es - 1)%nat := 0%float]> es.*2)
              (resolve a b (r0 - d) (Z.of_nat i))
              (percent_of es.*1 (<[(length es - 1)%nat := 0%float]> es.*2)
                 (resolve a b (r0 - d) (Z.of_nat i))),
            set_i_lith (Some (resolve a b (r0 - d) (Z.of_nat i))) loc).
Proof.
  intros Hlen Hrows Hinc Hlast Ha Hb Hbr.
  pose proof (read_rows_length _ _ _ _ Hrows) as Hes.
  destruct (resolve_row es.*1 (r0 - d) i a b Ha Hb) as (x & Hx & Hk).
  exists x. split; [done|]. split; [done|].
  unfold tab_model.
  rewrite (tab_parse_spec lines es r0 rho0 Hlen Hrows Hlast), bind_Ok.
  cbn [p_radius p_rho p_n p_r0].
  replace (Z.of_nat (length es) - 1 + 1) with (Z.of_nat (length es.*1))
    by (rewrite length_fmap; lia).
  rewrite (locate_first es.*1 r0 d i a b (v_i_lith loc) Ha Hb Hbr), bind_Ok.
  2:{ intros j Hj. by eapply bracket_first. }
  replace (Z.of_nat (length es) - 1) with (Z.of_nat (length es - 1)) by lia.
  rewrite py_set_nat by (rewrite length_fmap; lia). rewrite bind_Ok.
  cbn [set_i_lith v_i_lith read_var]. by rewrite bind_Ok, Hx, bind_Ok.
Qed.

Lemma rows_before_bound (es : list (float * float)) (i : nat) :
  0 <= rows_before es i <= Z.of_nat (length (emit es)).
Proof.
  unfold rows_before. rewrite (emit_split es i), length_app. lia.
Qed.

(** X14. A well-formed deck whose entry radii never decrease, whose
    declared core and crust entries are boundary pairs and whose profile has
    a pair of rows that brackets the target is always evaluated, and the
    report, the call to the external routine and the variables it leaves
    bound are the same whatever was read before it. *)
Theorem deck_model_evaluated (d : float) (lines : list string) (N icr ico : Z)
    (es : list (float * float)) (rt rhot : float) (ic io i : nat) (a b : float) :
  deck_header lines = Ok (N, icr, ico) →
  read_rows lines 3 (Z.to_nat N) = Ok es → 2 <= N →
  nondecreasing es = true → last es = Some (rt, rhot) →
  icr = Z.of_nat ic → boundary es ic = true →
  ico = Z.of_nat io → boundary es io = true →
  ((emit es).*1 ++ [rt]) !! i = Some a → ((emit es).*1 ++ [rt]) !! S i = Some b →
  bracket ((emit es).*1 ++ [rt]) (rt - d) i = true →
  ∃ r,
    (∀ loc, deck_model d lines loc
            = Ok (r, mkLocals (Some rt) (Some (rows_before es io))
                       (Some (rows_before es ic))
                       (Some (resolve a b (rt - d) (Z.of_nat i)))))
    ∧ call_radius r = (emit es).*1 ++ [rt]
    ∧ call_rho r = (emit es).*2 ++ [0%float]
    ∧ call_i_lith r = resolve a b (rt - d) (Z.of_nat i)
    ∧ (call_i_lith r = Z.of_nat i ∨ call_i_lith r = Z.of_nat i + 1)
    ∧ surface_km r = (rt / 1000)%float
    ∧ percent r = percent_of (call_radius r) (call_rho r) (call_i_lith r).
Proof.
  intros Hhd Hrows HN Hnd Hlast -> Hbc -> Hbo Ha Hb Hbr.
  pose proof (read_rows_length _ _ _ _ Hrows) as Hlen.
  assert (Hinc : increasing ((emit es).*1 ++ [rt]) = true).
  { destruct es as [|t [|u es]]; [simpl in Hlen; lia..|].
    destruct (emit_increasing (u :: es) t (rt, rhot) Hnd) as [Hinc _]; [|done..].
    by eapply nondecreasing_head. }
  set (rs := (emit es).*1 ++ [rt]) in *.
  set (ps := (emit es).*2 ++ [0%float]).
  assert (Hlr : length rs = S (length (emit es))).
  { unfold rs. rewrite length_app, length_fmap. simpl. lia. }
  assert (Hlp : length ps = S (length (emit es))).
  { unfold ps. rewrite length_app, length_fmap. simpl. lia. }
  pose proof (rows_before_bound es ic) as Hkc.
  pose proof (rows_before_bound es io) as Hko.
  destruct (py_get_in_range ps (rows_before es ic - 1)) as [xm Hxm]; [lia|].
  destruct (py_get_in_range ps (rows_before es io - 1)) as [xc Hxc]; [lia|].
  destruct (py_get_in_range rs (rows_before es ic)) as [rm Hrm]; [lia|].
  destruct (py_get_in_range rs (rows_before es io)) as [rc Hrc]; [lia|].
  destruct (resolve_row rs (rt - d) i a b Ha Hb) as (x & Hx & Hk).
  eexists. split.
  { intros loc. unfold deck_model.
    rewrite (deck_parse_spec lines loc N _ _ es rt rhot Hhd Hrows HN Hlast), bind_Ok.
    cbn match. cbn [p_radius p_rho p_n p_r0 v_i_lith]. fold rs ps.
    replace (Z.of_nat (length (emit es)) + 1) with (Z.of_nat (length rs)) by lia.
    rewrite (locate_first rs rt d i a b (v_i_lith loc) Ha Hb Hbr), bind_Ok.
    2:{ intros j Hj. by eapply bracket_first. }
    rewrite !marker_boundary by done.
    cbn [set_i_lith v_i_crust v_i_core v_i_lith v_rt read_var].
    rewrite bind_Ok, Hxm, bind_Ok, bind_Ok, Hxc, bind_Ok, Hrm, bind_Ok, Hrc, bind_Ok.
    rewrite bind_Ok, Hx, bind_Ok. reflexivity. }
  cbn [call_radius call_rho call_i_lith surface_km percent].
  split; [done|]. split; [done|]. split; [done|]. split; [|done].
  destruct Hk as [[Hk _]|[Hk _]]; [by left|by right].
Qed.

End Evaluated.

Lemma table_model_evaluated_witness :
  ∃ x, py_get [0; 10; 20; 30]%float (resolve 10 20 (30 - 15) (Z.of_nat 1)) = Ok x
    ∧ (resolve 10 20 (30 - 15) (Z.of_nat 1) = Z.of_nat 1 ∧ x = 10%float
       ∨ resolve 10 20 (30 - 15) (Z.of_nat 1) = Z.of_nat 1 + 1 ∧ x = 20%float)
    ∧ @tab_model literal_builtins index_stub 15 small_table unbound
      = Ok (mkReport (30 / 1000)%float None None None None
              ((30 - x) / 1000)%float
              [0; 10; 20; 30]%float
              (<[3%nat := 0%float]> [8000; 5000; 3000; 2900]%float)
              (resolve 10 20 (30 - 15) (Z.of_nat 1))
              (@percent_of index_stub [0; 10; 20; 30]%float
                 (<[3%nat := 0%float]> [8000; 5000; 3000; 2900]%float)
                 (resolve 10 20 (30 - 15) (Z.of_nat 1))),
            set_i_lith (Some (resolve 10 20 (30 - 15) (Z.of_nat 1))) unbound).
Proof.
  exact (@table_model_evaluated literal_builtins index_stub 15 small_table unbound
           [(0, 8000); (10, 5000); (20, 3000); (30, 2900)]%float 30 2900 1 10 20
           ltac:(simpl; lia) eq_refl eq_refl eq_refl eq_refl eq_refl eq_refl).
Defined.

Lemma deck_model_evaluated_witness :
  ∃ r,
    (∀ loc, @deck_model literal_builtins index_stub 500 marked_deck loc
            = Ok (r, mkLocals (Some 3000%float) (Some 1) (Some 2) (Some 2)))
    ∧ call_radius r = [0; 1000; 2000; 3000]%float
    ∧ call_rho r = [7500; 3500; 2850; 0]%float
    ∧ call_i_lith r = 2.
Proof.
  destruct (@deck_model_evaluated literal_builtins index_stub 500 marked_deck
              6 3 1
              [(0, 8000); (1000, 7000); (1000, 4000); (2000, 3000);
               (2000, 2900); (3000, 2800)]%float 3000 2800 3 1 2 2000 3000
              eq_refl eq_refl ltac:(lia) eq_refl eq_refl eq_refl eq_refl eq_refl
              eq_refl eq_refl eq_refl eq_refl)
    as (r & Hall & Hrad & Hrho & Hi & _).
  exists r. split; [exact Hall|]. split; [exact Hrad|]. split; [exact Hrho|exact Hi].
Defined.

(** ** What the deck reader leaves unread *)

Lemma py_get_app_l {A} (l l' : list A) (j : Z) :
  0 <= j < Z.of_nat (length l) → py_get (l ++ l') j = py_get l j.
Proof.
  intros Hj. unfold py_get, py_pos. rewrite length_app.
  destruct (Z.ltb_spec j 0); [lia|].
  destruct (Z.leb_spec 0 j); [|lia].
  destruct (Z.ltb_spec j (Z.of_nat (length l))); [|lia].
  destruct (Z.ltb_spec j (Z.of_nat (length l + length l'))); [|lia].
  simpl. by rewrite lookup_app_l by lia.
Qed.

Lemma for_range_ext {St} (body body' : Z → St → result St) (lo : Z) (k : nat)
    (s : St) :
  (∀ i s, lo <= i < lo + Z.of_nat k → body i s = body' i s) →
  for_range body lo k s = for_range body' lo k s.
Proof.
  revert lo s. induction k as [|k IH]; intros lo s Hext; [done|].
  rewrite !for_range_S, (Hext lo s) by lia.
  destruct (body' lo s) as [s1|e]; [|done].
  rewrite !bind_Ok. apply IH. intros i s' Hi. apply Hext. lia.
Qed.

Section Trailing.
Context `{Builtins} `{Collaborator}.

Lemma read_row_app (lines extra : list string) (j : Z) :
  0 <= j < Z.of_nat (length lines) →
  read_row (lines ++ extra) j = read_row lines j.
Proof. intros Hj. unfold read_row. by rewrite py_get_app_l. Qed.

Lemma deck_header_app (lines extra : list string) :
  (3 ≤ length lines)%nat → deck_header (lines ++ extra) = deck_header lines.
Proof.
  intros Hlen. unfold deck_header.
  by rewrite !(py_get_app_l lines extra) by lia.
Qed.

Lemma deck_step_app (lines extra : list string) (ico icr i : Z) (st : DeckState) :
  0 <= i → i + 4 < Z.of_nat (length lines) →
  deck_step (lines ++ extra) ico icr i st = deck_step lines ico icr i st.
Proof.
  intros Hi Hlen. unfold deck_step. by rewrite !read_row_app by lia.
Qed.

(** X15. The deck reader reads the three header lines and the [N] entry
    lines the header declares, and nothing after them: on a deck that has
    these [N + 3] lines, whatever follows them changes neither the profile
    and the variables read, nor the report, nor the exception raised. *)
Theorem deck_trailing_lines_unread (d : float) (lines extra : list string)
    (loc : Locals) (N icr ico : Z) :
  deck_header lines = Ok (N, icr, ico) → N + 3 <= Z.of_nat (length lines) →
  deck_parse (lines ++ extra) loc = deck_parse lines loc
  ∧ deck_model d (lines ++ extra) loc = deck_model d lines loc.
Proof.
  intros Hhd Hlen.
  assert (Hp : deck_parse (lines ++ extra) loc = deck_parse lines loc).
  { destruct (deck_header_Ok lines N icr ico Hhd)
      as (l1 & s & flag & l2 & sN & sK & sC & _ & _ & _ & _ & Hl2 & _).
    apply lookup_lt_Some in Hl2.
    unfold deck_parse. rewrite deck_header_app by lia. rewrite Hhd, !bind_Ok.
    cbn match. destruct (np_zeros N) as [z|e]; [|done]. rewrite !bind_Ok.
    rewrite (for_range_ext (deck_step (lines ++ extra) ico icr)
               (deck_step lines ico icr)); [done|].
    intros i st Hi. apply deck_step_app; lia. }
  split; [done|]. unfold deck_model. by rewrite Hp.
Qed.

End Trailing.

Lemma deck_trailing_lines_unread_witness :
  @deck_parse literal_builtins (marked_deck ++ ["not a row"; EmptyString]%string)
    unbound
  = @deck_parse literal_builtins marked_deck unbound
  ∧ @deck_model literal_builtins index_stub 500
      (marked_deck ++ ["not a row"; EmptyString]%string) unbound
    = @deck_model literal_builtins index_stub 500 marked_deck unbound.
Proof.
  exact (@deck_trailing_lines_unread literal_builtins index_stub 500 marked_deck
           ["not a row"; EmptyString]%string unbound 6 3 1 eq_refl
           ltac:(simpl; lia)).
Defined.

(** ** Variables read before they are assigned *)

Lemma never_Ok {A} (e : exn) (a : A) : never e (Ok a).
Proof. done. Qed.

Lemma never_bind {A B} (e : exn) (m : result A) (f : A → result B) :
  never e m → (∀ a, m = Ok a → never e (f a)) → never e (m ≫= f).
Proof.
  intros Hm Hf. destruct m as [a|e']; [rewrite bind_Ok; by apply Hf|].
  unfold never in *. rewrite bind_Raise. intros [= ->]. by apply Hm.
Qed.

Lemma never_Raise {A B} (e e' : exn) :
  never e (@Raise A e') → never e (@Raise B e').
Proof. unfold never. intros Hn [= ->]. by apply Hn. Qed.

Lemma py_get_never {A} (l : list A) (i : Z) :
  never UnboundLocalError (py_get l i).
Proof. unfold py_get. destruct (py_pos _ _); [|done]. by destruct (l !! _). Qed.

Lemma py_set_never {A} (l : list A) (i : Z) (v : A) :
  never UnboundLocalError (py_set l i v).
Proof. unfold py_set. by destruct (py_pos _ _). Qed.

Lemma convert_never {A} (v : option A) : never UnboundLocalError (convert v).
Proof. by destruct v. Qed.

Lemma np_zeros_never (n : Z) : never UnboundLocalError (np_zeros n).
Proof. unfold np_zeros. by destruct (n <? 0). Qed.

Lemma read_var_never {A} (v : option A) :
  bound v = true → never UnboundLocalError (read_var v).
Proof. by destruct v. Qed.

Lemma read_var_bound {A} (v : option A) (a : A) :
  read_var v = Ok a → bound v = true.
Proof. by destruct v. Qed.

Lemma for_range_never {St} (e : exn) (P : St → Prop) (body : Z → St → result St)
    (lo : Z) (k : nat) (s : St) :
  (∀ i s, P s → never e (body i s)) →
  (∀ i s s', P s → body i s = Ok s' → P s') →
  P s → never e (for_range body lo k s).
Proof.
  intros Hb Hp. revert lo s. induction k as [|k IH]; intros lo s Hs; [done|].
  rewrite for_range_S. apply never_bind; [by apply Hb|].
  intros s' Hs'. apply IH. by eapply Hp.
Qed.

Lemma for_break_never {St} (e : exn) (body : Z → St → result (flow St))
    (lo : Z) (k : nat) (s : St) :
  (∀ i s, never e (body i s)) → never e (for_break body lo k s).
Proof.
  intros Hb. revert lo s. induction k as [|k IH]; intros lo s; [done|].
  cbn [for_break]. apply never_bind; [done|].
  intros [s'|s'] _; [apply IH|done].
Qed.

Lemma for_break_inv {St} (P : St → Prop) (body : Z → St → result (flow St))
    (lo : Z) (k : nat) (s s' : St) :
  (∀ i s f, P s → body i s = Ok f → match f with Next t | Break t => P t end) →
  P s → for_break body lo k s = Ok s' → P s'.
Proof.
  intros Hb. revert lo s. induction k as [|k IH]; intros lo s Hs Hr.
  - simpl in Hr. by injection Hr as <-.
  - cbn [for_break] in Hr. bind_inv Hr. pose proof (Hb _ _ _ Hs E) as Hf.
    destruct a as [t|t]; [by eapply IH|by injection Hr as <-].
Qed.

(** Goals [never UnboundLocalError (...)] over steps that read no variable. *)
Ltac never_steps :=
  repeat first
    [ apply never_Ok | apply py_get_never | apply py_set_never
    | apply convert_never | apply np_zeros_never
    | apply never_bind; [|intros ? _]
    | match goal with
      | |- never _ (let '(_, _) := ?x in _) => destruct x
      | |- never _ (if ?b then _ else _) => destruct b
      | |- never _ (Raise _) => solve [unfold never; discriminate]
      end ].

Lemma locate_never (rs : list float) (r0 d : float) (n : Z) (il : option Z) :
  never UnboundLocalError (locate rs r0 d n il).
Proof.
  unfold locate. apply for_break_never. intros i s. unfold locate_step.
  never_steps.
Qed.

(** The scan never unbinds the shell index. *)
Lemma locate_keeps_bound (rs : list float) (r0 d : float) (n : Z)
    (il il' : option Z) :
  bound il = true → locate rs r0 d n il = Ok il' → bound il' = true.
Proof.
  unfold locate. apply (for_break_inv (λ v, bound v = true)).
  intros i s f Hs Hstep. unfold locate_step in Hstep. bind_inv Hstep.
  destruct (PrimFloat.leb a (r0 - d)); [|by injection Hstep as <-].
  bind_inv Hstep.
  destruct (PrimFloat.ltb (r0 - d) a0); [|by injection Hstep as <-].
  destruct (PrimFloat.eqb a (r0 - d)); [by injection Hstep as <-|].
  destruct (PrimFloat.leb _ _); by injection Hstep as <-.
Qed.

Section Unbound.
Context `{Builtins} `{Collaborator}.

Lemma read_row_never (lines : list string) (j : Z) :
  never UnboundLocalError (read_row lines j).
Proof. unfold read_row. never_steps. Qed.

Lemma deck_header_never (lines : list string) :
  never UnboundLocalError (deck_header lines).
Proof. unfold deck_header. never_steps. Qed.

Lemma deck_step_never (lines : list string) (ico icr i : Z) (st : DeckState) :
  never UnboundLocalError (deck_step lines ico icr i st).
Proof.
  unfold deck_step. apply never_bind; [apply read_row_never|]. intros [rb rhob] _.
  apply never_bind; [apply read_row_never|]. intros [rt rhot] _.
  never_steps.
Qed.

(** A pass of the deck loop assigns and never unbinds. *)
Lemma deck_step_bound (lines : list string) (ico icr i : Z) (st st' : DeckState) :
  all_bound (locals st) = true → deck_step lines ico icr i st = Ok st' →
  all_bound (locals st') = true.
Proof.
  intros Hb Hs. unfold deck_step in Hs.
  bind_inv Hs. destruct a as [rb rhob]. bind_inv Hs. destruct a as [rt rhot].
  destruct (locals st) as [[x|] [ic|] [icr'|] [il|]]; try done.
  destruct (PrimFloat.eqb rb rt).
  - injection Hs as <-. cbn [locals]. by destruct (i =? ico), (i =? icr).
  - bind_inv Hs. bind_inv Hs. by injection Hs as <-.
Qed.

Lemma deck_parse_bound (lines : list string) (loc loc' : Locals) (p : Profile) :
  all_bound loc = true → deck_parse lines loc = Ok (p, loc') →
  all_bound loc' = true.
Proof.
  intros Hb Hp. unfold deck_parse in Hp.
  bind_inv Hp. destruct a as [[N icr] ico]. bind_inv Hp. bind_inv Hp. bind_inv Hp.
  bind_inv Hp. bind_inv Hp. bind_inv Hp. cbn zeta in Hp. bind_inv Hp.
  injection Hp as _ <-.
  exact (for_range_inv (λ st, all_bound (locals st) = true)
           (deck_step lines ico icr) 0 _ (mkDeck a a0 0 loc) a1
           (λ i s s', deck_step_bound lines ico icr i s s') Hb E2).
Qed.

Lemma deck_parse_never (lines : list string) (loc : Locals) :
  all_bound loc = true → never UnboundLocalError (deck_parse lines loc).
Proof.
  intros Hb. unfold deck_parse.
  apply never_bind; [apply deck_header_never|]. intros [[N icr] ico] _.
  apply never_bind; [apply np_zeros_never|]. intros radius0 _.
  apply never_bind; [apply np_zeros_never|]. intros rho0 _.
  apply never_bind.
  { apply (for_range_never _ (λ st, all_bound (locals st) = true)); [| |done].
    - intros i st _. apply deck_step_never.
    - intros i st st'. apply deck_step_bound. }
  intros st Hst.
  apply (for_range_inv (λ st, all_bound (locals st) = true)) in Hst;
    [|intros i s s'; apply deck_step_bound|done].
  apply never_bind.
  { apply read_var_never. by destruct (locals st) as [[x|] ? ? ?]. }
  intros rt _. never_steps.
Qed.

(** A deck model that is reported leaves the four names assigned. *)
Lemma deck_model_binds (d : float) (lines : list string) (loc loc' : Locals)
    (r : Report) :
  deck_model d lines loc = Ok (r, loc') → all_bound loc' = true.
Proof.
  intros Hm. unfold deck_model in Hm.
  bind_inv Hm. destruct a as [p loc1]. bind_inv Hm. cbn zeta in Hm.
  assert (Hrt : bound (v_rt loc1) = true).
  { unfold deck_parse in E.
    bind_inv E. destruct a0 as [[N icr] ico]. bind_inv E. bind_inv E. bind_inv E.
    bind_inv E. bind_inv E. bind_inv E. cbn zeta in E. bind_inv E.
    injection E as _ <-. by eapply read_var_bound. }
  bind_inv Hm. apply read_var_bound in E1.
  bind_inv Hm. bind_inv Hm. apply read_var_bound in E3.
  bind_inv Hm. bind_inv Hm. bind_inv Hm. bind_inv Hm. apply read_var_bound in E7.
  bind_inv Hm. injection Hm as _ <-.
  destruct loc1 as [[x|] [ic|] [icr|] il]; try done.
Qed.

Lemma deck_model_never (d : float) (lines : list string) (loc : Locals) :
  all_bound loc = true → never UnboundLocalError (deck_model d lines loc).
Proof.
  intros Hb. unfold deck_model.
  apply never_bind; [by apply deck_parse_never|]. intros [p loc1] Hp.
  apply deck_parse_bound in Hp; [|done].
  apply never_bind; [apply locate_never|]. intros il' Hl.
  apply locate_keeps_bound in Hl; [|by destruct loc1 as [[x|] [ic|] [icr|] [il|]]].
  destruct loc1 as [[x|] [ic|] [icr|] [il|]]; try done.
  destruct il' as [k|]; [|done]. cbn. never_steps.
Qed.

Lemma tab_step_never (lines : list string) (i : Z) (st : list float * list float) :
  never UnboundLocalError (tab_step lines i st).
Proof. unfold tab_step. never_steps. Qed.

Lemma tab_parse_never (lines : list string) :
  never UnboundLocalError (tab_parse lines).
Proof.
  unfold tab_parse. cbn zeta.
  apply never_bind; [apply np_zeros_never|]. intros radius0 _.
  apply never_bind; [apply np_zeros_never|]. intros rho0 _.
  apply never_bind.
  { apply (for_range_never _ (λ _, True)); [|done|done].
    intros i st _. apply tab_step_never. }
  intros [radius1 rho1] _. never_steps.
Qed.

(** A table that is reported leaves the shell index assigned and the other
    names as they were. *)
Lemma tab_model_binds (d : float) (lines : list string) (loc loc' : Locals)
    (r : Report) :
  tab_model d lines loc = Ok (r, loc') →
  bound (v_i_lith loc') = true ∧ (all_bound loc = true → all_bound loc' = true).
Proof.
  intros Hm. unfold tab_model in Hm.
  bind_inv Hm. bind_inv Hm. cbn zeta in Hm. bind_inv Hm. bind_inv Hm.
  apply read_var_bound in E2. bind_inv Hm. injection Hm as _ <-.
  split; [done|]. cbn in E2. destruct a0; [|done].
  by destruct loc as [[x|] [ic|] [icr|] il].
Qed.

Lemma tab_model_never (d : float) (lines : list string) (loc : Locals) :
  bound (v_i_lith loc) = true → never UnboundLocalError (tab_model d lines loc).
Proof.
  intros Hb. unfold tab_model.
  apply never_bind; [apply tab_parse_never|]. intros p _.
  apply never_bind; [apply locate_never|]. intros il' Hl.
  apply locate_keeps_bound in Hl; [|done].
  destruct il' as [k|]; [|done]. cbn. never_steps.
Qed.

Lemma deck_batch_never (d : float) (files : list (list string)) (loc : Locals) :
  all_bound loc = true → never UnboundLocalError (deck_batch d files loc).2.
Proof.
  revert loc. induction files as [|lines files IH]; intros loc Hb; [done|].
  cbn [deck_batch]. pose proof (deck_model_never d lines loc Hb) as Hn.
  destruct (deck_model d lines loc) as [[r loc']|e] eqn:Hm; [|exact (never_Raise _ _ Hn)].
  apply deck_model_binds in Hm. specialize (IH loc' Hm).
  by destruct (deck_batch d files loc').
Qed.

(** After a deck batch the four names are assigned, unless it read no
    deck. *)
Lemma deck_batch_binds (d : float) (files : list (list string))
    (loc loc' : Locals) (rs : list Report) :
  deck_batch d files loc = (rs, Ok loc') →
  all_bound loc' = true ∨ files = [] ∧ loc' = loc ∧ rs = [].
Proof.
  revert loc rs. induction files as [|lines files IH]; intros loc rs Hb.
  - simpl in Hb. injection Hb as <- <-. by right.
  - left. cbn [deck_batch] in Hb.
    destruct (deck_model d lines loc) as [[r loc1]|e] eqn:Hm; [|done].
    apply deck_model_binds in Hm.
    destruct (deck_batch d files loc1) as [rs' out] eqn:Hrest.
    injection Hb as <- ->.
    destruct (IH loc1 rs' Hrest) as [Hb|(_ & -> & _)]; done.
Qed.

Lemma deck_batch_first (d : float) (files : list (list string)) (loc : Locals)
    (rs : list Report) :
  deck_batch d files loc = (rs, Raise UnboundLocalError) → rs = [].
Proof.
  destruct files as [|lines files]; [done|]. cbn [deck_batch].
  destruct (deck_model d lines loc) as [[r loc1]|e] eqn:Hm; [|by intros [= <-]].
  apply deck_model_binds in Hm.
  pose proof (deck_batch_never d files loc1 Hm) as Hn.
  destruct (deck_batch d files loc1) as [rs' out]. intros [= <- ->]. done.
Qed.

Lemma tab_batch_never (d : float) (models : list (string * list string))
    (loc : Locals) (a b : float) :
  bound (v_i_lith loc) = true →
  never UnboundLocalError (tab_batch d models loc a b).2.
Proof.
  revert loc a b. induction models as [|[file lines] models IH];
    intros loc a b Hb; [done|].
  cbn [tab_batch].
  destruct (negb (String.eqb (splitext_ext file) ".dat")); [by apply IH|].
  pose proof (tab_model_never d lines loc Hb) as Hn.
  destruct (tab_model d lines loc) as [[r loc']|e] eqn:Hm; [|exact (never_Raise _ _ Hn)].
  apply tab_model_binds in Hm as [Hm _].
  specialize (IH loc' (update_pmin a (percent r)) (update_pmax b (percent r)) Hm).
  by destruct (tab_batch d models loc' _ _).
Qed.

Lemma tab_batch_first (d : float) (models : list (string * list string))
    (loc : Locals) (a b : float) (rs : list Report) :
  tab_batch d models loc a b = (rs, Raise UnboundLocalError) → rs = [].
Proof.
  revert rs. induction models as [|[file lines] models IH]; intros rs; [done|].
  cbn [tab_batch].
  destruct (negb (String.eqb (splitext_ext file) ".dat")); [apply IH|].
  destruct (tab_model d lines loc) as [[r loc']|e] eqn:Hm; [|by intros [= <-]].
  apply tab_model_binds in Hm as [Hm _].
  pose proof (tab_batch_never d models loc' (update_pmin a (percent r))
                (update_pmax b (percent r)) Hm) as Hn.
  destruct (tab_batch d models loc' _ _) as [rs' out]. intros [= <- ->]. done.
Qed.

(** X16. A read of a name that was never assigned can only stop the first
    model that is evaluated: a run that ends in [UnboundLocalError] has
    reported no model, deck or table, before it. *)
Theorem unbound_error_first_model_only (files : list (list string))
    (models : list (string * list string)) (drs trs : list Report) :
  main files models = (drs, trs, Raise UnboundLocalError) →
  drs = [] ∧ trs = [].
Proof.
  unfold main. cbn zeta.
  destruct (deck_batch 150000 files unbound) as [drs' [loc|e]] eqn:Hd.
  - destruct (deck_batch_binds _ _ _ _ _ Hd) as [Hb|(_ & -> & ->)].
    + assert (Hl : bound (v_i_lith loc) = true)
        by (by destruct loc as [[x|] [ic|] [icr|] [il|]]).
      pose proof (tab_batch_never 150000 models loc 100 0 Hl) as Hn.
      destruct (tab_batch 150000 models loc 100 0) as [trs' [[loc' mm]|e]];
        [done|]. intros [= <- <- ->]. done.
    + destruct (tab_batch 150000 models unbound 100 0) as [trs' [[loc' mm]|e]]
        eqn:Ht; [done|].
      intros [= <- <- ->]. split; [done|]. by eapply tab_batch_first.
  - intros [= <- <- ->]. split; [|done]. by eapply deck_batch_first.
Qed.

End Unbound.

Lemma unbound_error_first_model_only_witness :
  @main literal_builtins index_stub [] [("a.dat"%string, shallow_table)]
  = ([], [], Raise UnboundLocalError)
  ∧ ([] : list Report) = [] ∧ ([] : list Report) = [].
Proof.
  split; [reflexivity|].
  exact (@unbound_error_first_model_only literal_builtins index_stub []
           [("a.dat"%string, shallow_table)] [] [] eq_refl).
Defined.
